(** * A shallow embedding of the line-numbered BASIC interpreter (basic.go)

    The interpreter is modelled function by function.  Go's [int] is taken
    to be the 64-bit two's-complement integer of the usual targets and is
    represented by [Z] with the wrap-around written out.  The input of a
    [bufio.Reader] is the list of characters still to be read; the two
    writers of [Basic] are the texts written so far; the files reachable by
    [os.Open]/[os.Create] are a finite map from names to contents, in one
    directory without permissions: [os.Open] fails for a name that is not
    in the map, and [os.Create] fails for the empty name and for no other.

    A Go function can end in four ways here: it returns, the process exits
    through [os.Exit(1)], the runtime panics, or it loops for ever.  The
    last one is observed through a fuel argument on every loop whose
    termination the source does not guarantee. *)

From Stdlib Require Import ZArith Ascii String List Bool Lia DecimalString Sorted.
From Stdlib Require Import DecimalFacts DecimalPos.
From stdpp Require Import base option gmap strings.

Import ListNotations.
Local Open Scope string_scope.
Local Open Scope list_scope.
Local Open Scope Z_scope.

(** ** Outcomes of a call *)

Inductive res (A : Type) : Type :=
| Ok (a : A)      (* the call returned *)
| Fatal           (* os.Exit(1) after "basic: fatal: ..." *)
| Panic           (* a Go run-time panic *)
| OutOfFuel.      (* the loop did not finish within the fuel given *)

Arguments Ok {A} a.
Arguments Fatal {A}.
Arguments Panic {A}.
Arguments OutOfFuel {A}.

Definition rbind {A B} (m : res A) (k : A -> res B) : res B :=
  match m with
  | Ok a => k a
  | Fatal => Fatal
  | Panic => Panic
  | OutOfFuel => OutOfFuel
  end.

Definition rmap {A B} (f : A -> B) (m : res A) : res B :=
  rbind m (fun a => Ok (f a)).

(** ** Go's [int] *)

Module Int.

Definition MinInt : Z := - 2 ^ 63.
Definition MaxInt : Z := 2 ^ 63 - 1.
Definition MaxInt32 : Z := 2147483647.

Definition in_range (z : Z) : Prop := MinInt <= z <= MaxInt.

(** Reduction of a mathematical integer to its two's-complement value. *)
Definition wrap (z : Z) : Z := (z + 2 ^ 63) mod 2 ^ 64 - 2 ^ 63.

Definition add (x y : Z) : Z := wrap (x + y).
Definition sub (x y : Z) : Z := wrap (x - y).
Definition mul (x y : Z) : Z := wrap (x * y).
Definition neg (x : Z) : Z := wrap (- x).

(** [x / y]: the quotient truncated toward zero; a zero divisor panics. *)
Definition div (x y : Z) : res Z :=
  if y =? 0 then Panic else Ok (wrap (Z.quot x y)).

End Int.

(** ** Characters and text *)

Abbreviation rune := ascii (only parsing).

Definition dquote : ascii := ascii_of_nat 34.
Definition squote : ascii := ascii_of_nat 39.
Definition newline : ascii := ascii_of_nat 10.
Definition nl : string := String newline "".
Definition dq : string := String dquote "".

Definition code (ch : rune) : Z := Z.of_nat (nat_of_ascii ch).

Definition between (lo ch hi : rune) : bool :=
  (code lo <=? code ch) && (code ch <=? code hi).

Definition is_letter (ch : rune) : bool :=
  between "A" ch "Z" || between "a" ch "z".

Definition is_digit (ch : rune) : bool := between "0" ch "9".

Definition is_rune (c ch : rune) : bool := Ascii.eqb ch c.

Definition upper (ch : rune) : rune :=
  if between "a" ch "z" then ascii_of_nat (nat_of_ascii ch - 32) else ch.

(** strings.ToUpper, on the one-byte characters of the model. *)
Fixpoint ToUpper (s : string) : string :=
  match s with
  | EmptyString => EmptyString
  | String ch r => String (upper ch) (ToUpper r)
  end.

(** [s += string(ch)] *)
Definition snoc (s : string) (ch : rune) : string := s +:+ String ch "".

(** The verb [%d]. *)
Definition fmt_d (z : Z) : string := NilZero.string_of_int (Z.to_int z).

(** fmt.Fprintln of one text. *)
Definition ln (msg : string) : string := msg +:+ nl.

(** ** Scanner *)

Inductive Token : Type :=
| EndOfLine
| KeywordToken
| IntegerToken
| StringToken
| OperatorToken.

Definition Token_eqb (a b : Token) : bool :=
  match a, b with
  | EndOfLine, EndOfLine
  | KeywordToken, KeywordToken
  | IntegerToken, IntegerToken
  | StringToken, StringToken
  | OperatorToken, OperatorToken => true
  | _, _ => false
  end.

(** What [ReadToken] returns: the token, its number and its text. *)
Definition tok : Type := Token * Z * string.

Record TokenReader : Type := mkTR {
  R : list rune;      (* the characters not read yet *)
  AtEOL : bool;
  peeked : bool;
  t : Token;
  n : Z;
  s : string
}.

Definition reader (input : string) : TokenReader :=
  mkTR (list_ascii_of_string input) false false EndOfLine 0 "".

(** [ReadRuneEOF]: the next character, or the end of the input. *)
Definition ReadRuneEOF (l : list rune) : option (rune * list rune) :=
  match l with
  | [] => None
  | ch :: rest => Some (ch, rest)
  end.

(** [ReadRune]: the end of the input is fatal. *)
Definition ReadRune (l : list rune) : res (rune * list rune) :=
  match l with
  | [] => Fatal
  | ch :: rest => Ok (ch, rest)
  end.

(** [UnreadRune] is only ever called straight after a [ReadRune] that
    returned [ch]: it makes [ch] the next character again. *)
Definition UnreadRune (ch : rune) (rest : list rune) : list rune := ch :: rest.

(** The comment loop [for ch != '\n' { ch = tr.ReadRune() }]. *)
Fixpoint skip_comment (l : list rune) : res (list rune) :=
  match l with
  | [] => Fatal
  | ch :: rest => if is_rune newline ch then Ok rest else skip_comment rest
  end.

(** The keyword loop; [kw] is the text gathered so far. *)
Fixpoint read_keyword (kw : string) (l : list rune) : res (string * list rune) :=
  match l with
  | [] => Fatal
  | ch :: rest =>
      if is_letter ch then read_keyword (snoc kw ch) rest
      else if is_rune "$" ch || is_rune "%" ch then Ok (snoc kw ch, rest)
      else Ok (kw, UnreadRune ch rest)
  end.

(** The digit loop, entered with the first digit as the head of [l]. *)
Fixpoint read_integer (acc : Z) (l : list rune) : res (Z * list rune) :=
  match l with
  | [] => Fatal
  | ch :: rest =>
      if is_digit ch
      then read_integer (Int.add (Int.mul acc 10) (Int.sub (code ch) (code "0"))) rest
      else Ok (acc, UnreadRune ch rest)
  end.

(** The string loop: up to the closing quote, which is consumed. *)
Fixpoint read_string (acc : string) (l : list rune) : res (string * list rune) :=
  match l with
  | [] => Fatal
  | ch :: rest =>
      if is_rune dquote ch then Ok (acc, rest) else read_string (snoc acc ch) rest
  end.

Definition is_single_operator (ch : rune) : bool :=
  is_rune "-" ch || is_rune "+" ch || is_rune "*" ch || is_rune "/" ch || is_rune "(" ch || is_rune ")" ch
  || is_rune "," ch || is_rune "=" ch.

(** The body of [ReadToken] once no token is pending: the token, the value
    of [AtEOL] and the remaining input.  A blank and a character that
    starts no token both lead to the next character. *)
Fixpoint scan (l : list rune) : res (tok * bool * list rune) :=
  match l with
  | [] => Fatal
  | ch :: rest =>
      if is_rune " " ch then scan rest
      else if is_rune newline ch then Ok ((EndOfLine, 0, ""), true, rest)
      else if is_rune squote ch then
        rbind (skip_comment (ch :: rest))
              (fun rest' => Ok ((EndOfLine, 0, ""), true, rest'))
      else if is_letter ch then
        rbind (read_keyword (String ch "") rest)
              (fun '(kw, rest') => Ok ((KeywordToken, 0, ToUpper kw), false, rest'))
      else if is_digit ch then
        rbind (read_integer 0 (ch :: rest))
              (fun '(v, rest') => Ok ((IntegerToken, v, ""), false, rest'))
      else if is_single_operator ch then
        Ok ((OperatorToken, 0, String ch ""), false, rest)
      else if is_rune "<" ch then
        rbind (ReadRune rest)
              (fun '(ch', rest') =>
                 if is_rune "=" ch' then Ok ((OperatorToken, 0, "<="), false, rest')
                 else if is_rune ">" ch' then Ok ((OperatorToken, 0, "<>"), false, rest')
                 else Ok ((OperatorToken, 0, "<"), false, UnreadRune ch' rest'))
      else if is_rune ">" ch then
        (* no character is read here: [ch] is still '>' in the test, and
           the character that is unread is this '>' *)
        if is_rune "=" ch then Ok ((OperatorToken, 0, ">="), false, rest)
        else Ok ((OperatorToken, 0, ">"), false, UnreadRune ch rest)
      else if is_rune dquote ch then
        rbind (read_string "" rest)
              (fun '(str, rest') => Ok ((StringToken, 0, str), false, rest'))
      else scan rest
  end.

Definition ReadToken (tr : TokenReader) : res (tok * TokenReader) :=
  if peeked tr then
    Ok ((t tr, n tr, s tr), mkTR (R tr) (AtEOL tr) false (t tr) (n tr) (s tr))
  else
    rbind (scan (R tr))
          (fun '(tk, eol, rest) =>
             Ok (tk, mkTR rest eol false (t tr) (n tr) (s tr))).

Definition PeekToken (tr : TokenReader) : res (tok * TokenReader) :=
  if peeked tr then Ok ((t tr, n tr, s tr), tr)
  else
    rbind (ReadToken tr)
          (fun '((tk, v, str), tr') =>
             Ok ((tk, v, str), mkTR (R tr') (AtEOL tr') true tk v str)).

(** ** Values and expressions *)

(** The three dynamic types an [interface{}] value of the interpreter has. *)
Inductive Value : Type :=
| VInt (v : Z)
| VStr (v : string)
| VBool (v : bool).

(** A pair [(interface{}, bool)]: [None] is [(nil, false)]. *)
Abbreviation checked := (option Value) (only parsing).

Record BinaryOp : Type := mkBinaryOp {
  StringFunc : option (string -> string -> res checked);
  IntegerFunc : option (Z -> Z -> res checked)
}.

Definition ret_int (z : Z) : res checked := Ok (Some (VInt z)).
Definition ret_str (v : string) : res checked := Ok (Some (VStr v)).
Definition ret_bool (v : bool) : res checked := Ok (Some (VBool v)).

Definition str_ltb (a b : string) : bool :=
  match String.compare a b with Lt => true | _ => false end.
Definition str_leb (a b : string) : bool :=
  match String.compare a b with Gt => false | _ => true end.

Definition op_add : BinaryOp :=
  mkBinaryOp (Some (fun s1 s2 => ret_str (s1 +:+ s2)))
             (Some (fun n1 n2 => ret_int (Int.add n1 n2))).
Definition op_sub : BinaryOp :=
  mkBinaryOp None (Some (fun n1 n2 => ret_int (Int.sub n1 n2))).
Definition op_mul : BinaryOp :=
  mkBinaryOp None (Some (fun n1 n2 => ret_int (Int.mul n1 n2))).
Definition op_div : BinaryOp :=
  mkBinaryOp None
             (Some (fun n1 n2 => rbind (Int.div n1 n2) (fun q => ret_int q))).
Definition op_eq : BinaryOp :=
  mkBinaryOp (Some (fun s1 s2 => ret_bool (String.eqb s1 s2)))
             (Some (fun n1 n2 => ret_bool (n1 =? n2))).
Definition op_ne : BinaryOp :=
  mkBinaryOp (Some (fun s1 s2 => ret_bool (negb (String.eqb s1 s2))))
             (Some (fun n1 n2 => ret_bool (negb (n1 =? n2)))).
Definition op_lt : BinaryOp :=
  mkBinaryOp (Some (fun s1 s2 => ret_bool (str_ltb s1 s2)))
             (Some (fun n1 n2 => ret_bool (n1 <? n2))).
Definition op_le : BinaryOp :=
  mkBinaryOp (Some (fun s1 s2 => ret_bool (str_leb s1 s2)))
             (Some (fun n1 n2 => ret_bool (n1 <=? n2))).
Definition op_gt : BinaryOp :=
  mkBinaryOp (Some (fun s1 s2 => ret_bool (str_ltb s2 s1)))
             (Some (fun n1 n2 => ret_bool (n2 <? n1))).
Definition op_ge : BinaryOp :=
  mkBinaryOp (Some (fun s1 s2 => ret_bool (str_leb s2 s1)))
             (Some (fun n1 n2 => ret_bool (n2 <=? n1))).

(** The table [BinaryOps], as the lookup [BinaryOps[s]]. *)
Definition BinaryOps (name : string) : option BinaryOp :=
  if String.eqb name "+" then Some op_add
  else if String.eqb name "-" then Some op_sub
  else if String.eqb name "*" then Some op_mul
  else if String.eqb name "/" then Some op_div
  else if String.eqb name "=" then Some op_eq
  else if String.eqb name "<>" then Some op_ne
  else if String.eqb name "<" then Some op_lt
  else if String.eqb name "<=" then Some op_le
  else if String.eqb name ">" then Some op_gt
  else if String.eqb name ">=" then Some op_ge
  else None.

Inductive Expr : Type :=
| ValueExpr (Value : Value)
| VarExpr (name : string)
| NegateExpr (e : Expr)
| BinaryExpr (Name : string) (Op : BinaryOp) (Left Right : Expr).

(** ** Statements, lines and the interpreter state *)

Definition GoSubCtx : Z := 0.
Definition ForCtx : Z := 1.
Definition WhileCtx : Z := 2.

Record Ctx : Type := mkCtx {
  Ctx_Type : Z;
  Ctx_Number : Z
}.

(** A [Stmt] interface value may be nil: it is an [option Stmt] wherever
    the source can hold nil. *)
#[warnings="-register-all"]
Inductive Stmt : Type :=
| EndStmt
| GoSubStmt (target : Z)
| ReturnStmt
| GotoStmt (target : Z)
| RemStmt (text : string)
| AssignStmt (Var : string) (e : Expr)
| PrintStmt (exprs : list Expr)
| IfThenStmt (Test : Expr) (Then : option Stmt) (Else : option Stmt)
| IfGotoStmt (Test : Expr) (Number : Z).

Record Line : Type := mkLine {
  Number : Z;
  Stmt_ : option Stmt
}.

Record Basic : Type := mkBasic {
  Vars : gmap string Value;
  Code : list Line;            (* the items of the B-tree, ascending *)
  W : string;                  (* what was written to W *)
  ErrW : string;               (* what was written to ErrW *)
  Files : gmap string string   (* the files os.Open and os.Create see *)
}.

Definition set_Vars (v : gmap string Value) (b : Basic) : Basic :=
  mkBasic v (Code b) (W b) (ErrW b) (Files b).
Definition set_Code (c : list Line) (b : Basic) : Basic :=
  mkBasic (Vars b) c (W b) (ErrW b) (Files b).
Definition set_Files (f : gmap string string) (b : Basic) : Basic :=
  mkBasic (Vars b) (Code b) (W b) (ErrW b) f.
(** fmt.Fprint(b.W, text) and fmt.Fprint(b.ErrW, text) *)
Definition out (text : string) (b : Basic) : Basic :=
  mkBasic (Vars b) (Code b) (W b +:+ text) (ErrW b) (Files b).
Definition err (text : string) (b : Basic) : Basic :=
  mkBasic (Vars b) (Code b) (W b) (ErrW b +:+ text) (Files b).

(** [Basic.New] *)
Definition New (b : Basic) : Basic :=
  mkBasic ∅ [] (W b) (ErrW b) (Files b).

(** [NewBasic], in a world with the files [fs]. *)
Definition NewBasic (fs : gmap string string) : Basic := mkBasic ∅ [] "" "" fs.

(** ** Rendering *)

Definition Value_String (v : Value) : string :=
  match v with
  | VInt z => fmt_d z
  | VStr v => v
  | VBool true => "TRUE"
  | VBool false => "FALSE"
  end.

(** The methods [String]: what the verb [%s] prints for an expression. *)
Fixpoint Expr_String (e : Expr) : string :=
  match e with
  | ValueExpr v => Value_String v
  | VarExpr name => name
  | NegateExpr e1 => "- " +:+ Expr_String e1
  | BinaryExpr name _ l r =>
      Expr_String l +:+ " " +:+ name +:+ " " +:+ Expr_String r
  end.

(** The methods [Print] of the expressions. *)
Definition Expr_Print (e : Expr) : string :=
  match e with
  | ValueExpr (VInt z) => fmt_d z
  | ValueExpr (VStr v) => dq +:+ v +:+ dq
  | ValueExpr (VBool true) => "TRUE"
  | ValueExpr (VBool false) => "FALSE"
  | VarExpr name => name
  | NegateExpr e1 => "- " +:+ Expr_String e1
  | BinaryExpr name _ l r =>
      Expr_String l +:+ " " +:+ name +:+ " " +:+ Expr_String r
  end.

Fixpoint Print_exprs (i : nat) (exprs : list Expr) : string :=
  match exprs with
  | [] => ""
  | e :: rest =>
      (if (0 <? i)%nat then ", " else "") +:+ Expr_Print e
      +:+ Print_exprs (S i) rest
  end.

(** The methods [Print] of the statements; printing through a nil
    statement panics. *)
Fixpoint Stmt_Print (st : Stmt) : res string :=
  match st with
  | EndStmt => Ok "END"
  | GoSubStmt target => Ok ("GOSUB " +:+ fmt_d target)
  | ReturnStmt => Ok "RETURN"
  | GotoStmt target => Ok ("GOTO " +:+ fmt_d target)
  | RemStmt text => Ok ("REM " +:+ text)
  | AssignStmt v e => Ok (v +:+ " = " +:+ Expr_Print e)
  | PrintStmt exprs => Ok ("PRINT " +:+ Print_exprs 0 exprs)
  | IfThenStmt test thn els =>
      match thn with
      | None => Panic
      | Some th =>
          rbind (Stmt_Print th) (fun p1 =>
            let head := "IF " +:+ Expr_String test +:+ " THEN " +:+ p1 in
            match els with
            | None => Ok head
            | Some el =>
                rbind (Stmt_Print el) (fun p2 => Ok (head +:+ " ELSE " +:+ p2))
            end)
      end
  | IfGotoStmt test number =>
      Ok ("IF " +:+ Expr_String test +:+ " GOTO " +:+ fmt_d number)
  end.

Definition Print_iface (st : option Stmt) : res string :=
  match st with
  | None => Panic
  | Some st => Stmt_Print st
  end.

(** ** Evaluation *)

Fixpoint Eval (e : Expr) (b : Basic) : res (checked * Basic) :=
  match e with
  | ValueExpr v => Ok (Some v, b)
  | VarExpr name =>
      match Vars b !! name with
      | None => Ok (None, err ("basic: error: variable not found: " +:+ name +:+ nl) b)
      | Some val => Ok (Some val, b)
      end
  | NegateExpr e1 =>
      rbind (Eval e1 b) (fun '(val, b1) =>
        match val with
        | None => Ok (None, b1)
        | Some (VInt v) => Ok (Some (VInt (Int.neg v)), b1)
        | Some _ => Ok (None, err (ln "basic: error: expected an integer value") b1)
        end)
  | BinaryExpr name op l r =>
      rbind (Eval l b) (fun '(val1, b1) =>
        match val1 with
        | None => Ok (None, b1)
        | Some v1 =>
            rbind (Eval r b1) (fun '(val2, b2) =>
              match val2 with
              | None => Ok (None, b2)
              | Some v2 =>
                  match v1 with
                  | VInt n1 =>
                      match IntegerFunc op with
                      | None =>
                          Ok (None, err ("basic: error: " +:+ name
                                         +:+ " does not work for integers" +:+ nl) b2)
                      | Some f =>
                          match v2 with
                          | VInt n2 => rbind (f n1 n2) (fun v => Ok (v, b2))
                          | _ => Ok (None, err (ln "basic: error: expected an integer value") b2)
                          end
                      end
                  | VStr s1 =>
                      match StringFunc op with
                      | None =>
                          Ok (None, err ("basic: error: " +:+ name
                                         +:+ " does not work for strings" +:+ nl) b2)
                      | Some f =>
                          match v2 with
                          | VStr s2 => rbind (f s1 s2) (fun v => Ok (v, b2))
                          | _ => Ok (None, err (ln "basic: error: expected a string value") b2)
                          end
                      end
                  | VBool _ =>
                      Ok (None, err ("basic: error: " +:+ name
                                     +:+ " does not work for booleans" +:+ nl) b2)
                  end
              end)
        end)
  end.

(** ** Execution of a statement *)

Definition last_rune (v : string) : option rune :=
  last (list_ascii_of_string v).

(** The loop of [ReturnStmt.Execute], on the stack read from its top:
    frames are dropped until a GOSUB frame has been dropped. *)
Fixpoint unwind (top_first : list Ctx) : option Z * list Ctx :=
  match top_first with
  | [] => (None, [])
  | ctx :: below =>
      if Ctx_Type ctx =? GoSubCtx
      then (Some (Int.add (Ctx_Number ctx) 1), below)
      else unwind below
  end.

(** The loop of [PrintStmt.Execute]; [false] when an expression failed. *)
Fixpoint PrintStmt_loop (i : nat) (exprs : list Expr) (b : Basic) : res (bool * Basic) :=
  match exprs with
  | [] => Ok (true, b)
  | e :: rest =>
      let b0 := if (0 <? i)%nat then out ", " b else b in
      rbind (Eval e b0) (fun '(val, b1) =>
        match val with
        | None => Ok (false, b1)
        | Some v => PrintStmt_loop (S i) rest (out (Value_String v) b1)
        end)
  end.

(** The test of IF: [Some t] for a boolean, [None] after a failure. *)
Definition Eval_test (test : Expr) (b : Basic) : res (option bool * Basic) :=
  rbind (Eval test b) (fun '(val, b1) =>
    match val with
    | None => Ok (None, b1)
    | Some (VBool v) => Ok (Some v, b1)
    | Some _ => Ok (None, err (ln "basic: error: expected a boolean value") b1)
    end).

(** [Execute(b, ln, stk)]: the next line, the stack and the state. *)
Fixpoint Execute (st : Stmt) (b : Basic) (line : Z) (stk : list Ctx)
  : res (Z * list Ctx * Basic) :=
  match st with
  | EndStmt => Ok (-1, stk, b)
  | GoSubStmt target => Ok (target, stk ++ [mkCtx GoSubCtx line], b)
  | ReturnStmt =>
      match unwind (rev stk) with
      | (Some next, below) => Ok (next, rev below, b)
      | (None, below) =>
          Ok (-1, rev below, err (ln "basic: error: RETURN without a GOSUB") b)
      end
  | GotoStmt target => Ok (target, stk, b)
  | RemStmt _ => Ok (Int.add line 1, stk, b)
  | AssignStmt var e =>
      rbind (Eval e b) (fun '(val, b1) =>
        match val with
        | None => Ok (-1, stk, b1)
        | Some v =>
            match last_rune var with
            | None => Panic
            | Some c =>
                let store := Ok (Int.add line 1, stk, set_Vars (<[var := v]> (Vars b1)) b1) in
                if is_rune "$" c then
                  match v with
                  | VStr _ => store
                  | _ => Ok (-1, stk, err (ln "basic: error: expected a string value") b1)
                  end
                else if is_rune "%" c then
                  match v with
                  | VInt _ => store
                  | _ => Ok (-1, stk, err (ln "basic: error: expected an integer value") b1)
                  end
                else Panic
            end
        end)
  | PrintStmt exprs =>
      rbind (PrintStmt_loop 0 exprs b) (fun '(ok, b1) =>
        if ok then Ok (Int.add line 1, stk, out nl b1) else Ok (-1, stk, b1))
  | IfThenStmt test thn els =>
      rbind (Eval_test test b) (fun '(val, b1) =>
        match val with
        | None => Ok (-1, stk, b1)
        | Some true =>
            match thn with
            | Some th => Execute th b1 line stk
            | None => Panic
            end
        | Some false =>
            match els with
            | Some el => Execute el b1 line stk
            | None => Ok (Int.add line 1, stk, b1)
            end
        end)
  | IfGotoStmt test number =>
      rbind (Eval_test test b) (fun '(val, b1) =>
        match val with
        | None => Ok (-1, stk, b1)
        | Some true => Ok (number, stk, b1)
        | Some false => Ok (Int.add line 1, stk, b1)
        end)
  end.

(** A call through the interface: a nil statement panics. *)
Definition Execute_iface (st : option Stmt) (b : Basic) (line : Z) (stk : list Ctx)
  : res (Z * list Ctx * Basic) :=
  match st with
  | None => Panic
  | Some st => Execute st b line stk
  end.

(** ** The program store

    The B-tree holds [Line]s ordered by [Less]; the model is the list of
    its items in ascending order. *)

Definition Less (l than : Line) : bool := Number l <? Number than.

Fixpoint ReplaceOrInsert (item : Line) (c : list Line) : list Line :=
  match c with
  | [] => [item]
  | x :: rest =>
      if Less item x then item :: c
      else if Less x item then x :: ReplaceOrInsert item rest
      else item :: rest
  end.

Fixpoint Delete (item : Line) (c : list Line) : list Line :=
  match c with
  | [] => []
  | x :: rest =>
      if Less x item then x :: Delete item rest
      else if Less item x then c
      else rest
  end.

(** The items that are not less than the pivot. *)
Fixpoint from_pivot (pivot : Line) (c : list Line) : list Line :=
  match c with
  | [] => []
  | x :: rest => if Less x pivot then from_pivot pivot rest else c
  end.

(** A walk that calls [iterator] on each item until it answers [false];
    what the closure captures is the accumulator [a]. *)
Fixpoint walk {A} (iterator : Line -> A -> bool * A) (c : list Line) (a : A) : A :=
  match c with
  | [] => a
  | x :: rest =>
      let '(continue, a') := iterator x a in
      if continue then walk iterator rest a' else a'
  end.

Definition Ascend {A} (iterator : Line -> A -> bool * A) (c : list Line) (a : A) : A :=
  walk iterator c a.

Definition AscendGreaterOrEqual {A} (pivot : Line)
           (iterator : Line -> A -> bool * A) (c : list Line) (a : A) : A :=
  walk iterator (from_pivot pivot c) a.

(** ** The executor *)

(** The fetch at the head of the loop of [Run]: the zero [Line] when no
    item is at or after [line]. *)
Definition fetch (c : list Line) (line : Z) : Line :=
  AscendGreaterOrEqual (mkLine line None) (fun item _ => (false, item)) c
                       (mkLine 0 None).

(** The loop of [Run], entered with the local variables [line] and [stk]. *)
Fixpoint Run_loop (fuel : nat) (line : Z) (stk : list Ctx) (b : Basic) : res Basic :=
  match fuel with
  | O => OutOfFuel
  | S fuel' =>
      let l := fetch (Code b) line in
      if Number l =? 0 then Ok b
      else
        rbind (Execute_iface (Stmt_ l) b (Number l) stk) (fun '(next, stk', b') =>
          if next <=? 0 then Ok b' else Run_loop fuel' next stk' b')
  end.

Definition Run (fuel : nat) (b : Basic) : res Basic := Run_loop fuel 0 [] b.

(** ** The compiler

    The compiling methods change the writer [ErrW] of [Basic] and the
    token reader: they are computations over both. *)

Definition M (A : Type) : Type := Basic -> TokenReader -> res (A * Basic * TokenReader).

Definition mret {A} (a : A) : M A := fun b tr => Ok (a, b, tr).

Definition mbind {A B} (m : M A) (k : A -> M B) : M B :=
  fun b tr =>
    match m b tr with
    | Ok (a, b', tr') => k a b' tr'
    | Fatal => Fatal
    | Panic => Panic
    | OutOfFuel => OutOfFuel
    end.

Declare Scope m_scope.
Delimit Scope m_scope with M.
Notation "x <- m ;; k" := (mbind m (fun x => k))
  (at level 100, m at next level, right associativity) : m_scope.
#[warnings="-notation-incompatible-prefix"]
Notation "' p <- m ;; k" := (mbind m (fun x => let 'p := x in k))
  (at level 100, p pattern, m at next level, right associativity) : m_scope.
Notation "m ;;; k" := (mbind m (fun _ => k))
  (at level 100, right associativity) : m_scope.

Definition no_fuel {A} : M A := fun _ _ => OutOfFuel.

Definition readT : M tok :=
  fun b tr => rbind (ReadToken tr) (fun '(tk, tr') => Ok (tk, b, tr')).

Definition peekT : M tok :=
  fun b tr => rbind (PeekToken tr) (fun '(tk, tr') => Ok (tk, b, tr')).

(** The loop of [Basic.Error]: tokens are read until [AtEOL]. *)
Fixpoint drain (fuel : nat) (tr : TokenReader) : res TokenReader :=
  if AtEOL tr then Ok tr
  else
    match fuel with
    | O => OutOfFuel
    | S fuel' => rbind (ReadToken tr) (fun '(_, tr') => drain fuel' tr')
    end.

Definition Error (fuel : nat) (msg : string) : M unit :=
  fun b tr => rbind (drain fuel tr) (fun tr' => Ok (tt, err (ln msg) b, tr')).

Definition is_op (tk : Token) (text : string) (name : string) : bool :=
  Token_eqb tk OperatorToken && String.eqb text name.

Definition is_kw (tk : Token) (text : string) (name : string) : bool :=
  Token_eqb tk KeywordToken && String.eqb text name.

Local Open Scope m_scope.

(** [CompileExpr]: [None] is the result [(nil, false)]. *)
Fixpoint CompileExpr (fuel : nat) {struct fuel} : M (option Expr) :=
  match fuel with
  | O => no_fuel
  | S fuel' =>
      '(tk, v, text) <- readT ;;
      primary <-
        (if Token_eqb tk IntegerToken then mret (Some (ValueExpr (VInt v)))
         else if Token_eqb tk StringToken then mret (Some (ValueExpr (VStr text)))
         else if Token_eqb tk KeywordToken then mret (Some (VarExpr text))
         else if is_op tk text "-" then
           e <- CompileExpr fuel' ;;
           match e with
           | None => mret None
           | Some e => mret (Some (NegateExpr e))
           end
         else if is_op tk text "(" then
           e <- CompileExpr fuel' ;;
           match e with
           | None => mret None
           | Some e =>
               '(tk2, _, text2) <- readT ;;
               if negb (is_op tk2 text2 ")") then
                 Error fuel' "basic: error: missing closing ) in expression" ;;;
                 mret None
               else mret (Some e)
           end
         else
           Error fuel' "basic: error: unexpected token in expression" ;;;
           mret None) ;;
      match primary with
      | None => mret None
      | Some e =>
          '(tk3, _, text3) <- peekT ;;
          if Token_eqb tk3 OperatorToken then
            match BinaryOps text3 with
            | Some op =>
                readT ;;;
                e2 <- CompileExpr fuel' ;;
                match e2 with
                | None => mret None
                | Some e2 => mret (Some (BinaryExpr text3 op e e2))
                end
            | None => mret (Some e)
            end
          else mret (Some e)
      end
  end.

(** The loop of the PRINT case; [acc] is [ps.exprs]. *)
Fixpoint CompilePrint (fuel : nat) (acc : list Expr) : M (option (list Expr)) :=
  match fuel with
  | O => no_fuel
  | S fuel' =>
      e <- CompileExpr fuel' ;;
      match e with
      | None => mret None
      | Some e =>
          '(tk, _, text) <- peekT ;;
          if negb (is_op tk text ",") then mret (Some (acc ++ [e]))
          else readT ;;; CompilePrint fuel' (acc ++ [e])
      end
  end.

(** The loop of the REM case, on the characters: up to the end of the
    line, which is unread. *)
Fixpoint read_rem (acc : string) (l : list rune) : res (string * list rune) :=
  match l with
  | [] => Fatal
  | ch :: rest =>
      if is_rune newline ch then Ok (acc, UnreadRune ch rest)
      else read_rem (snoc acc ch) rest
  end.

Definition readRem : M string :=
  fun b tr =>
    rbind (read_rem "" (R tr)) (fun '(text, rest) =>
      Ok (text, b, mkTR rest (AtEOL tr) (peeked tr) (t tr) (n tr) (s tr))).

(** What a compiling method returns: the statement (nil is [None]) and ok. *)
Definition compiled : Type := option Stmt * bool.

Definition failed : compiled := (None, false).

(** [CompileStatement], given the method it ends in. *)
Definition CompileStatement_with (CompileKeyword : string -> bool -> M compiled)
           (fuel : nat) (full : bool) : M compiled :=
  '(tk, _, kw) <- readT ;;
  if negb (Token_eqb tk KeywordToken) then
    Error fuel "basic: error: statement must start with a keyword or variable" ;;;
    mret failed
  else CompileKeyword kw full.

Definition line_number_for (fuel : nat) (what : string) (mk : Z -> Stmt)
  : M (option (option Stmt)) :=
  '(tk, v, _) <- readT ;;
  if negb (Token_eqb tk IntegerToken) then
    Error fuel ("basic: error: missing line number for " +:+ what) ;;; mret None
  else mret (Some (Some (mk v))).

(** [CompileKeyword].  The switch gives [None] where the source returns
    [nil, false] at once, and otherwise the value of [stmt], which stays
    nil for the keywords without a body. *)
Fixpoint CompileKeyword (fuel : nat) (kw : string) (full : bool) {struct fuel}
  : M compiled :=
  match fuel with
  | O => no_fuel
  | S fuel' =>
      let CompileStatement := CompileStatement_with (CompileKeyword fuel') fuel' in
      switch <-
        (if String.eqb kw "END" then mret (Some (Some EndStmt))
         else if String.eqb kw "FOR" then mret (Some None)
         else if String.eqb kw "NEXT" then mret (Some None)
         else if String.eqb kw "GOSUB" then line_number_for fuel' "GOSUB" GoSubStmt
         else if String.eqb kw "RETURN" then mret (Some (Some ReturnStmt))
         else if String.eqb kw "GOTO" then line_number_for fuel' "GOTO" GotoStmt
         else if String.eqb kw "IF" then
           e <- CompileExpr fuel' ;;
           match e with
           | None => mret None
           | Some e =>
               '(tk, _, text) <- readT ;;
               if is_kw tk text "THEN" then
                 '(thn, ok) <- CompileStatement false ;;
                 if negb ok then mret None
                 else
                   '(tk2, _, text2) <- peekT ;;
                   if is_kw tk2 text2 "ELSE" then
                     readT ;;;
                     '(els, ok2) <- CompileStatement false ;;
                     if negb ok2 then mret None
                     else mret (Some (Some (IfThenStmt e thn els)))
                   else mret (Some (Some (IfThenStmt e thn None)))
               else if is_kw tk text "GOTO" then
                 line_number_for fuel' "IF GOTO" (IfGotoStmt e)
               else
                 Error fuel' "basic: error: expected IF followed by THEN or GOTO" ;;;
                 mret None
           end
         else if String.eqb kw "INPUT" then mret (Some None)
         else if String.eqb kw "PRINT" then
           exprs <- CompilePrint fuel' [] ;;
           match exprs with
           | None => mret None
           | Some exprs => mret (Some (Some (PrintStmt exprs)))
           end
         else if String.eqb kw "REM" then
           text <- readRem ;; mret (Some (Some (RemStmt text)))
         else if String.eqb kw "WHILE" then mret (Some None)
         else if String.eqb kw "WEND" then mret (Some None)
         else
           match last_rune kw with
           | None => fun _ _ => Panic
           | Some c =>
               if is_rune "$" c || is_rune "%" c then
                 '(tk, _, op) <- readT ;;
                 if negb (is_op tk op "=") then
                   Error fuel' "basic: error: expected '=' following variable name" ;;;
                   mret None
                 else
                   e <- CompileExpr fuel' ;;
                   match e with
                   | None => mret None
                   | Some e => mret (Some (Some (AssignStmt kw e)))
                   end
               else
                 Error fuel' ("basic: error: unknown keyword: " +:+ kw) ;;;
                 mret None
           end) ;;
      match switch with
      | None => mret failed
      | Some stmt =>
          if full then
            '(tk, _, _) <- readT ;;
            if negb (Token_eqb tk EndOfLine) then
              Error fuel' ("basic: error: too many argument to keyword: " +:+ kw) ;;;
              mret failed
            else mret (stmt, true)
          else mret (stmt, true)
      end
  end.

Definition CompileStatement (fuel : nat) (full : bool) : M compiled :=
  CompileStatement_with (CompileKeyword fuel) fuel full.

(** ** Files: SAVE and LOAD *)

Definition set_R (l : list rune) (tr : TokenReader) : TokenReader :=
  mkTR l (AtEOL tr) (peeked tr) (t tr) (n tr) (s tr).

(** The loop at the head of [Load] and of [Program]: blanks and line ends
    are read; [None] at the end of the input, and otherwise the input from
    the first other character, which is unread. *)
Fixpoint skip_blank (l : list rune) : option (list rune) :=
  match l with
  | [] => None
  | ch :: rest =>
      if negb (is_rune " " ch) && negb (is_rune newline ch)
      then Some (UnreadRune ch rest)
      else skip_blank rest
  end.

(** One listed line: the number, the statement and the line end. *)
Definition print_line (line : Line) (w : res string) : bool * res string :=
  match w with
  | Ok text =>
      match Print_iface (Stmt_ line) with
      | Ok p => (true, Ok (text +:+ fmt_d (Number line) +:+ " " +:+ p +:+ nl))
      | _ => (false, Panic)
      end
  | _ => (false, w)
  end.

(** [Basic.Save]; a file with the empty name cannot be created. *)
Definition Save (fn : string) (b : Basic) : res Basic :=
  if String.eqb fn ""
  then Ok (err ("basic: error: SAVE: open : no such file or directory" +:+ nl) b)
  else
    rbind (Ascend print_line (Code b) (Ok ""))
          (fun text => Ok (set_Files (<[fn := text]> (Files b)) b)).

(** The loop of [Basic.Load]: [true] at the end of the file, [false] when
    the loop is left by [break]. *)
Fixpoint Load_loop (fuel : nat) (b : Basic) (tr : TokenReader) : res (bool * Basic) :=
  match fuel with
  | O => OutOfFuel
  | S fuel' =>
      match skip_blank (R tr) with
      | None => Ok (true, b)
      | Some l =>
          match ReadToken (set_R l tr) with
          | Ok ((tk, v, _), tr1) =>
              if Token_eqb tk IntegerToken then
                match CompileStatement fuel' true b tr1 with
                | Ok ((stmt, ok), b2, tr2) =>
                    if ok
                    then Load_loop fuel' (set_Code (ReplaceOrInsert (mkLine v stmt) (Code b2)) b2) tr2
                    else Ok (false, b2)
                | Fatal => Fatal
                | Panic => Panic
                | OutOfFuel => OutOfFuel
                end
              else
                match Error fuel' "basic: error: statement must start with a line number" b tr1 with
                | Ok (_, b2, _) => Ok (false, b2)
                | Fatal => Fatal
                | Panic => Panic
                | OutOfFuel => OutOfFuel
                end
          | Fatal => Fatal
          | Panic => Panic
          | OutOfFuel => OutOfFuel
          end
      end
  end.

(** [Basic.Load]; a file that is not in [Files] cannot be opened. *)
Definition Load (fuel : nat) (fn : string) (b : Basic) : res (bool * Basic) :=
  match Files b !! fn with
  | None =>
      Ok (false, err ("basic: error: OPEN: open " +:+ fn
                      +:+ ": no such file or directory" +:+ nl) b)
  | Some content =>
      let vars := Vars b in
      let code := Code b in
      rbind (Load_loop fuel (New b) (reader content)) (fun '(done, b') =>
        if done then Ok (true, b')
        else Ok (false, set_Code code (set_Vars vars b')))
  end.

(** ** The command loop *)

Definition readRange (opt : bool) (tr : TokenReader) : res (Z * Z * bool * TokenReader) :=
  let finish (strt end_ : Z) (tr' : TokenReader) :=
    if end_ <? strt then Ok (0, 0, false, tr') else Ok (strt, end_, true, tr') in
  rbind (ReadToken tr) (fun '((tk, v, _), tr1) =>
    if Token_eqb tk IntegerToken then
      rbind (ReadToken tr1) (fun '((tk2, _, text2), tr2) =>
        if is_op tk2 text2 "-" then
          rbind (ReadToken tr2) (fun '((tk3, v3, _), tr3) =>
            if negb (Token_eqb tk3 IntegerToken) then Ok (0, 0, false, tr3)
            else
              rbind (ReadToken tr3) (fun '((tk4, _, _), tr4) =>
                if negb (Token_eqb tk4 EndOfLine) then Ok (0, 0, false, tr4)
                else finish v v3 tr4))
        else if negb (Token_eqb tk2 EndOfLine) then Ok (0, 0, false, tr2)
        else finish v Int.MaxInt32 tr2)
    else if Token_eqb tk EndOfLine then
      if negb opt then Ok (0, 0, false, tr1) else finish 0 Int.MaxInt32 tr1
    else Ok (0, 0, false, tr1)).

Definition readRangeM (opt : bool) : M (Z * Z * bool) :=
  fun b tr => rbind (readRange opt tr) (fun '(strt, end_, ok, tr') =>
    Ok ((strt, end_, ok), b, tr')).

Definition HelpText : string :=
"
<program> =
    <line-number> <statement>
    ...

<command> =
      <statement>
    | <line-number> <statement>
    | DELETE <line-number> [ '-' <line-number> ] ; delete one or a range of line numbers inclusive
    | EXIT
    | HELP
    | LIST [ <line-number> [ '-' <line-number> ]]
    | LOAD <filename> ; load a program into memory from <filename>
    | NEW ; start over with a new program
    | RUN ; run the program from the beginning
    | SAVE <filename> ; save the program in memory to <filename>

<statement> =
    | END ; end execution of the program
    | <for>
    | GOSUB <line-number> ... RETURN
    | GOTO <line-number>
    | IF <logical-expr> THEN <statement> [ELSE <statement>]
    | IF <logical-expr> GOTO <line-number>
    | INPUT [ <string> ',' ] <variable>
    | <string-variable> '=' <string-expr>
    | <integer-variable> '=' <integer-expr>
    | PRINT <expr> [ ','  ...]
    | REM ... ; comment (remark); ' at the end of the line is also a comment
    | <while>

<for> = ; execute the statements with <variable> going from <start> to <end> inclusively
    FOR <variable> = <start> TO <end> [ STEP <step> ]
    <statement> ...
    NEXT <variable>

<while> =
    WHILE <logical-expr>
    <statement> ...
    WEND

<string> = '" +:+ dq +:+ "' ... '" +:+ dq +:+ "'
<integer> = [ '-' ] <digit> ...
<digit> = '0' ... '9'
<variable> = <string-variable> | <integer-variable>
<string-variable> = <name> '$'
<integer-variable> = <name> '%'
<line> = <line-number> <statement>
<integer-expr> =
      <integer-variable>
    | <integer>
    | '-' <expr>
    | <integer-expr> ( '+' | '-' | '*' | '/' ) <integer-expr>
    | <intrinsic> '(' <expr> ... ')'
<logical-expr> =
      <integer-expr> <logical-op> <integer-expr>
    | <string-expr> <logical-op> <string-expr>
<logical-op> = '=' | '<>' | '<' | '>' | '<=' | '>='
<string-expr> =
      <string-variable>
    | <string>
    | <string-expr> '+' <string-expr>
".

Definition update (f : Basic -> Basic) : M unit := fun b tr => Ok (tt, f b, tr).

Definition lift (f : Basic -> res Basic) : M unit :=
  fun b tr => rbind (f b) (fun b' => Ok (tt, b', tr)).

(** The closure of DELETE: the lines up to [end_] are gathered. *)
Definition gather (end_ : Z) (line : Line) (lines : list Line) : bool * list Line :=
  if end_ <? Number line then (false, lines) else (true, lines ++ [line]).

(** The closure of LIST: the lines up to [end_] are printed to [W]. *)
Definition list_line (end_ : Z) (line : Line) (w : res string) : bool * res string :=
  if end_ <? Number line then (false, w) else print_line line w.

(** A keyword without arguments: [run] when the line ends after it. *)
Definition no_arguments (fuel : nat) (name : string) (run : M unit) : M unit :=
  '(tk, _, _) <- readT ;;
  if negb (Token_eqb tk EndOfLine)
  then Error fuel ("basic: error: " +:+ name +:+ " takes no arguments")
  else run.

(** LOAD and SAVE read one string and the end of the line; both report a
    bad argument under the name of SAVE. *)
Definition one_string (fuel : nat) (run : string -> M unit) : M unit :=
  '(tk, _, text) <- readT ;;
  if negb (Token_eqb tk StringToken)
  then Error fuel "basic: error: SAVE expects one string argument"
  else
    '(tk2, _, _) <- readT ;;
    if negb (Token_eqb tk2 EndOfLine)
    then Error fuel "basic: error: SAVE expects one string argument"
    else run text.

(** The default case of [Program]: the line is a statement, compiled and
    executed at line 0 with a nil stack; what [Execute] returns is dropped. *)
Definition immediate (fuel : nat) (kw : string) : M unit :=
  '(stmt, ok) <- CompileKeyword fuel kw true ;;
  if ok then
    lift (fun b => rbind (Execute_iface stmt b 0 []) (fun '(_, _, b') => Ok b'))
  else mret tt.

(** One turn of the loop of [Program], from the first token of the line:
    [true] when [Program] returns (EXIT). *)
Definition Program_line (fuel : nat) : M bool :=
  '(tk, v, text) <- readT ;;
  if Token_eqb tk IntegerToken then
    '(stmt, ok) <- CompileStatement fuel true ;;
    (if ok
     then update (fun b => set_Code (ReplaceOrInsert (mkLine v stmt) (Code b)) b)
     else mret tt) ;;;
    mret false
  else if Token_eqb tk KeywordToken then
    if String.eqb text "DELETE" then
      '(strt, end_, ok) <- readRangeM false ;;
      (if negb ok then Error fuel "basic: error: bad argument to DELETE"
       else if end_ =? Int.MaxInt32 then
         update (fun b => set_Code (Delete (mkLine strt None) (Code b)) b)
       else
         update (fun b =>
           let lines := AscendGreaterOrEqual (mkLine strt None) (gather end_) (Code b) [] in
           set_Code (fold_left (fun c line => Delete line c) lines (Code b)) b)) ;;;
      mret false
    else if String.eqb text "EXIT" then
      '(tk2, _, _) <- readT ;;
      if negb (Token_eqb tk2 EndOfLine)
      then Error fuel "basic: error: EXIT takes no arguments" ;;; mret false
      else mret true
    else if String.eqb text "HELP" then
      no_arguments fuel "HELP" (update (out HelpText)) ;;; mret false
    else if String.eqb text "LIST" then
      '(strt, end_, ok) <- readRangeM true ;;
      (if negb ok then Error fuel "basic: error: bad argument to LIST"
       else
         lift (fun b =>
           rbind (AscendGreaterOrEqual (mkLine strt None) (list_line end_) (Code b) (Ok ""))
                 (fun text => Ok (out text b)))) ;;;
      mret false
    else if String.eqb text "LOAD" then
      one_string fuel (fun fn =>
        lift (fun b => rbind (Load fuel fn b) (fun '(_, b') => Ok b'))) ;;;
      mret false
    else if String.eqb text "NEW" then
      no_arguments fuel "NEW" (update New) ;;; mret false
    else if String.eqb text "RUN" then
      no_arguments fuel "RUN" (lift (Run fuel)) ;;; mret false
    else if String.eqb text "SAVE" then
      one_string fuel (fun fn => lift (Save fn)) ;;; mret false
    else
      immediate fuel text ;;; mret false
  else
    Error fuel "basic: error: statement must start with a keyword or variable" ;;;
    mret false.

(** [Basic.Program]. *)
Fixpoint Program (fuel : nat) (b : Basic) (tr : TokenReader) {struct fuel} : res Basic :=
  match fuel with
  | O => OutOfFuel
  | S fuel' =>
      match skip_blank (R tr) with
      | None => Ok b
      | Some l =>
          match Program_line fuel' b (set_R l tr) with
          | Ok (true, b', _) => Ok b'
          | Ok (false, b', tr') => Program fuel' b' tr'
          | Fatal => Fatal
          | Panic => Panic
          | OutOfFuel => OutOfFuel
          end
      end
  end.

(** A session: a new interpreter reads [input] to its end; what it wrote. *)
Definition session (fuel : nat) (fs : gmap string string) (input : string) : res Basic :=
  Program fuel (NewBasic fs) (reader input).

Local Close Scope m_scope.

(** * The vocabulary of the properties *)

(** The statement compiled from one line of text. *)
Definition compile (fuel : nat) (text : string) : res compiled :=
  rbind (CompileStatement fuel true (NewBasic ∅) (reader (text +:+ nl)))
        (fun '(c, _, _) => Ok c).

Definition quoted (v : string) : string := dq +:+ v +:+ dq.

Definition no_gosub (frames : list Ctx) : Prop :=
  Forall (fun c => Ctx_Type c <> GoSubCtx) frames.

(** The parts of the state that the compiler never writes. *)
Definition same_store (b b' : Basic) : Prop :=
  Vars b' = Vars b /\ Code b' = Code b /\ W b' = W b /\ Files b' = Files b.

Definition frame {A} (m : M A) : Prop :=
  forall b tr a b' tr', m b tr = Ok (a, b', tr') -> same_store b b'.

(** A state with a variable and two lines, and a file whose second line
    does not compile. *)
Definition loaded_state : Basic :=
  mkBasic {[ "A%" := VInt 1 ]}
          [mkLine 10 (Some (GotoStmt 10)); mkLine 20 (Some EndStmt)]
          "" ""
          {[ "good" := "10 end" +:+ nl;
             "bad" := "20 print 1" +:+ nl +:+ "30 foo" +:+ nl ]}.

(** The stored lines and the files, which no statement writes. *)
Definition same_program (b b' : Basic) : Prop :=
  Code b' = Code b /\ Files b' = Files b.

(** Induction on statements, through the branches of IF. *)
Section Stmt_induction.

Variable P : Stmt -> Prop.

Definition opt_all (o : option Stmt) : Prop :=
  match o with
  | Some st => P st
  | None => True
  end.

Hypothesis HEnd : P EndStmt.
Hypothesis HGoSub : forall target, P (GoSubStmt target).
Hypothesis HReturn : P ReturnStmt.
Hypothesis HGoto : forall target, P (GotoStmt target).
Hypothesis HRem : forall text, P (RemStmt text).
Hypothesis HAssign : forall var e, P (AssignStmt var e).
Hypothesis HPrint : forall exprs, P (PrintStmt exprs).
Hypothesis HIfThen :
  forall test thn els, opt_all thn -> opt_all els -> P (IfThenStmt test thn els).
Hypothesis HIfGoto : forall test number, P (IfGotoStmt test number).

Fixpoint Stmt_induction (st : Stmt) : P st :=
  match st with
  | EndStmt => HEnd
  | GoSubStmt target => HGoSub target
  | ReturnStmt => HReturn
  | GotoStmt target => HGoto target
  | RemStmt text => HRem text
  | AssignStmt var e => HAssign var e
  | PrintStmt exprs => HPrint exprs
  | IfThenStmt test thn els =>
      HIfThen test thn els
              match thn return opt_all thn with
              | Some th => Stmt_induction th
              | None => I
              end
              match els return opt_all els with
              | Some el => Stmt_induction el
              | None => I
              end
  | IfGotoStmt test number => HIfGoto test number
  end.

End Stmt_induction.

Definition commands : list string :=
  ["DELETE"; "EXIT"; "HELP"; "LIST"; "LOAD"; "NEW"; "RUN"; "SAVE"].

(** A state with a stored program that would print. *)
Definition printing_state : Basic :=
  mkBasic ∅ [mkLine 10 (Some (PrintStmt [ValueExpr (VInt 1)]))] "" "" ∅.

Definition sorted (c : list Line) : Prop :=
  StronglySorted (fun a b => Number a < Number b) c.

(** [l] is the first line of [c] at or after the number [N]. *)
Definition first_at_or_after (c : list Line) (N : Z) (l : Line) : Prop :=
  In l c /\ N <= Number l
  /\ forall l', In l' c -> N <= Number l' -> Number l <= Number l'.

(** What [Run] does once positioned at a line of the store. *)
Definition run_line (fuel : nat) (l : Line) (stk : list Ctx) (b : Basic) : res Basic :=
  rbind (Execute_iface (Stmt_ l) b (Number l) stk) (fun '(next, stk', b') =>
    if next <=? 0 then Ok b' else Run_loop fuel next stk' b').

(** A program whose GOTO names a line that is not stored. *)
Definition goto_state : Basic :=
  mkBasic ∅
          [mkLine 10 (Some (GotoStmt 25));
           mkLine 20 (Some (PrintStmt [ValueExpr (VInt 1)]));
           mkLine 30 (Some (PrintStmt [ValueExpr (VInt 2)]))]
          "" "" ∅.

(** An operand of a chain: a run of digits, or a variable name. *)
Inductive operand : Type :=
| Num (digits : list rune)
| Name (letters : list rune) (suffix : rune).

Definition is_suffix (ch : rune) : bool := is_rune "$" ch || is_rune "%" ch.

Definition nonempty {A} (l : list A) : bool :=
  match l with
  | [] => false
  | _ :: _ => true
  end.

Definition operand_ok (o : operand) : bool :=
  match o with
  | Num ds => nonempty ds && forallb is_digit ds
  | Name ls sfx => nonempty ls && forallb is_letter ls && is_suffix sfx
  end.

Definition operand_text (o : operand) : list rune :=
  match o with
  | Num ds => ds
  | Name ls sfx => ls ++ [sfx]
  end.

(** The number a run of digits denotes for the scanner. *)
Definition digits_value (ds : list rune) : Z :=
  fold_left (fun acc ch => Int.add (Int.mul acc 10) (Int.sub (code ch) (code "0"))) ds 0.

Definition operand_tok (o : operand) : tok :=
  match o with
  | Num ds => (IntegerToken, digits_value ds, "")
  | Name ls sfx => (KeywordToken, 0, ToUpper (string_of_list_ascii (ls ++ [sfx])))
  end.

Definition operand_expr (o : operand) : Expr :=
  match o with
  | Num ds => ValueExpr (VInt (digits_value ds))
  | Name ls sfx => VarExpr (ToUpper (string_of_list_ascii (ls ++ [sfx])))
  end.

(** The binary operators that the scanner delivers. *)
Inductive chain_op : Type := Add | Sub | Mul | Div | Eq | Ne | Lt | Le.

Definition op_name (o : chain_op) : string :=
  match o with
  | Add => "+" | Sub => "-" | Mul => "*" | Div => "/"
  | Eq => "=" | Ne => "<>" | Lt => "<" | Le => "<="
  end.

Definition op_entry (o : chain_op) : BinaryOp :=
  match o with
  | Add => op_add | Sub => op_sub | Mul => op_mul | Div => op_div
  | Eq => op_eq | Ne => op_ne | Lt => op_lt | Le => op_le
  end.

(** The text [x op y op z ...], with one blank around each operator. *)
Fixpoint chain_text (first : operand) (rest : list (chain_op * operand)) : list rune :=
  match rest with
  | [] => operand_text first
  | (o, next) :: rest' =>
      operand_text first
      ++ (" "%char :: list_ascii_of_string (op_name o))
      ++ " "%char :: chain_text next rest'
  end.

(** The tree that nests every operator in the right operand of the one
    before it. *)
Fixpoint right_nested (first : operand) (rest : list (chain_op * operand)) : Expr :=
  match rest with
  | [] => operand_expr first
  | (o, next) :: rest' =>
      BinaryExpr (op_name o) (op_entry o) (operand_expr first) (right_nested next rest')
  end.

(** The expression of a token that is an operand by itself. *)
Definition simple_primary (tk : tok) : option Expr :=
  match tk with
  | (IntegerToken, v, _) => Some (ValueExpr (VInt v))
  | (StringToken, _, text) => Some (ValueExpr (VStr text))
  | (KeywordToken, _, text) => Some (VarExpr text)
  | _ => None
  end.

(** What [CompileExpr] does after a primary [e], from the reader [tr1]. *)
Definition after_primary (fuel : nat) (e : Expr) (b : Basic) (tr1 : TokenReader)
  : res (option Expr * Basic * TokenReader) :=
  match PeekToken tr1 with
  | Ok ((tk3, _, text3), tr2) =>
      if Token_eqb tk3 OperatorToken then
        match BinaryOps text3 with
        | Some op =>
            match ReadToken tr2 with
            | Ok (_, tr3) =>
                match CompileExpr fuel b tr3 with
                | Ok (Some e2, b', tr') => Ok (Some (BinaryExpr text3 op e e2), b', tr')
                | Ok (None, b', tr') => Ok (None, b', tr')
                | Fatal => Fatal
                | Panic => Panic
                | OutOfFuel => OutOfFuel
                end
            | Fatal => Fatal
            | Panic => Panic
            | OutOfFuel => OutOfFuel
            end
        | None => Ok (Some e, b, tr2)
        end
      else Ok (Some e, b, tr2)
  | Fatal => Fatal
  | Panic => Panic
  | OutOfFuel => OutOfFuel
  end.

(** ** The vocabulary of the further properties *)

Definition no_quote (v : list rune) : bool :=
  forallb (fun ch => negb (is_rune dquote ch)) v.

(** The value of the digits [d] read after the value [acc]. *)
Fixpoint uint_value (d : Decimal.uint) (acc : Z) : Z :=
  match d with
  | Decimal.Nil => acc
  | Decimal.D0 l => uint_value l (acc * 10 + 0)
  | Decimal.D1 l => uint_value l (acc * 10 + 1)
  | Decimal.D2 l => uint_value l (acc * 10 + 2)
  | Decimal.D3 l => uint_value l (acc * 10 + 3)
  | Decimal.D4 l => uint_value l (acc * 10 + 4)
  | Decimal.D5 l => uint_value l (acc * 10 + 5)
  | Decimal.D6 l => uint_value l (acc * 10 + 6)
  | Decimal.D7 l => uint_value l (acc * 10 + 7)
  | Decimal.D8 l => uint_value l (acc * 10 + 8)
  | Decimal.D9 l => uint_value l (acc * 10 + 9)
  end.

Definition within (strt end_ : Z) (l : Line) : bool :=
  (strt <=? Number l) && (Number l <=? end_).

(** The store after DELETE with two numbers, as in the case DELETE of
    [Program]. *)
Definition delete_range (strt end_ : Z) (c : list Line) : list Line :=
  fold_left (fun c line => Delete line c)
            (AscendGreaterOrEqual (mkLine strt None) (gather end_) c []) c.

(** What LIST and SAVE write for one line. *)
Definition rendered (l : Line) : string :=
  match Print_iface (Stmt_ l) with
  | Ok p => fmt_d (Number l) +:+ " " +:+ p +:+ nl
  | _ => ""
  end.

Fixpoint listing (lines : list Line) : string :=
  match lines with
  | [] => ""
  | l :: rest => rendered l +:+ listing rest
  end.

Definition printable (l : Line) : Prop := Print_iface (Stmt_ l) <> Panic.

(** The lines of [goto_state] and the line that [40 FOR] stores: FOR
    compiles to the nil statement. *)
Definition for_state : Basic :=
  mkBasic ∅
          [mkLine 10 (Some (GotoStmt 25));
           mkLine 20 (Some (PrintStmt [ValueExpr (VInt 1)]));
           mkLine 30 (Some (PrintStmt [ValueExpr (VInt 2)]));
           mkLine 40 None]
          "" "" ∅.

(** The line holds a statement that [Print] renders: not the nil statement
    that FOR, NEXT, INPUT, WHILE and WEND leave, and no IF with a nil
    branch after THEN. *)
Definition renders (l : Line) : bool :=
  match Print_iface (Stmt_ l) with
  | Ok _ => true
  | _ => false
  end.

(** The value [v] has the tag that the last character of [name] asks for. *)
Definition tag_ok (name : string) (v : Value) : bool :=
  match last_rune name, v with
  | Some c, VStr _ => is_rune "$" c
  | Some c, VInt _ => negb (is_rune "$" c) && is_rune "%" c
  | _, _ => false
  end.

Definition typed (vars : gmap string Value) : Prop :=
  map_Forall (fun name v => tag_ok name v = true) vars.

Fixpoint joined (vals : list Value) : string :=
  match vals with
  | [] => ""
  | [v] => Value_String v
  | v :: rest => Value_String v +:+ ", " +:+ joined rest
  end.

(** The stored lines are in ascending order of their numbers, without two
    lines of one number, and every variable has the tag of its name. *)
Definition inv (b : Basic) : Prop := sorted (Code b) /\ typed (Vars b).

Definition keeps {A} (m : M A) : Prop :=
  forall b tr a b' tr', m b tr = Ok (a, b', tr') -> inv b -> inv b'.

(** What a compiling method leaves: after a success the state of before;
    after a failure one more message in [ErrW] and a reader at the end of
    its line. *)
Definition tidy {A} (ok : A -> bool) (m : M A) : Prop :=
  forall b tr a b' tr',
    m b tr = Ok (a, b', tr') ->
    if ok a then b' = b
    else AtEOL tr' = true /\ exists msg, b' = err (ln msg) b.

Definition always {A} (a : A) : bool := true.

Definition is_some {A} (o : option A) : bool :=
  match o with
  | Some _ => true
  | None => false
  end.

(** The statements that go on with the next line, or fail. *)
Definition sequential (st : option Stmt) : bool :=
  match st with
  | Some (RemStmt _) | Some (AssignStmt _ _) | Some (PrintStmt _) => true
  | _ => false
  end.

(** The lines executed one after the other, up to the first that fails. *)
Fixpoint in_order (lines : list Line) (b : Basic) : res Basic :=
  match lines with
  | [] => Ok b
  | l :: rest =>
      rbind (Execute_iface (Stmt_ l) b (Number l) []) (fun '(next, _, b') =>
        if next <=? 0 then Ok b' else in_order rest b')
  end.

Definition counting_state : Basic :=
  mkBasic ∅
          [mkLine 10 (Some (AssignStmt "N%" (ValueExpr (VInt 1))));
           mkLine 20 (Some (PrintStmt [VarExpr "N%"]));
           mkLine 30 (Some (PrintStmt [VarExpr "M%"]));
           mkLine 40 (Some (PrintStmt [VarExpr "N%"]))]
          "" "" ∅.

Definition no_newline (v : list rune) : bool :=
  forallb (fun ch => negb (is_rune newline ch)) v.

(** The end of [CompileKeyword] when [full] is true: the statement must be
    followed by the end of the line. *)
Definition end_of_statement (fuel : nat) (kw : string) (stmt : option Stmt) : M compiled :=
  mbind readT (fun x =>
    let '(tk, _, _) := x in
    if negb (Token_eqb tk EndOfLine) then
      mbind (Error fuel ("basic: error: too many argument to keyword: " +:+ kw))
            (fun _ => mret failed)
    else mret (stmt, true)).

Definition is_upper (ch : rune) : bool := between "A" ch "Z".

Inductive atom : Type :=
| ALit (z : Z)
| AVar (letters : list rune) (suffix : rune).

Definition atom_ok (a : atom) : bool :=
  match a with
  | ALit z => (0 <=? z) && (z <=? Int.MaxInt)
  | AVar ls sfx => nonempty ls && forallb is_upper ls && is_suffix sfx
  end.

Definition atom_operand (a : atom) : operand :=
  match a with
  | ALit z => Num (list_ascii_of_string (fmt_d z))
  | AVar ls sfx => Name ls sfx
  end.

Definition atom_expr (a : atom) : Expr :=
  match a with
  | ALit z => ValueExpr (VInt z)
  | AVar ls sfx => VarExpr (string_of_list_ascii (ls ++ [sfx]))
  end.

Definition operands (rest : list (chain_op * atom)) : list (chain_op * operand) :=
  map (fun p => (fst p, atom_operand (snd p))) rest.

(** An expression at the top of a statement: a chain of operands, or one
    string literal. *)
Inductive texpr : Type :=
| TChain (first : atom) (rest : list (chain_op * atom))
| TStr (v : string).

Definition texpr_ok (e : texpr) : bool :=
  match e with
  | TChain first rest => atom_ok first && forallb (fun p => atom_ok (snd p)) rest
  | TStr v => no_quote (list_ascii_of_string v)
  end.

Definition texpr_expr (e : texpr) : Expr :=
  match e with
  | TChain first rest => right_nested (atom_operand first) (operands rest)
  | TStr v => ValueExpr (VStr v)
  end.

(** The fuel that compiling the expression takes. *)
Definition texpr_fuel (e : texpr) : nat :=
  match e with
  | TChain _ rest => S (length rest)
  | TStr _ => 1
  end.

(** A token that does not continue an expression. *)
Definition ends_expression (tk : tok) : bool :=
  match tk with
  | (OperatorToken, _, name) => negb (is_some (BinaryOps name))
  | _ => true
  end.

Inductive cstmt : Type :=
| CEnd
| CReturn
| CGoto (target : Z)
| CGoSub (target : Z)
| CAssign (letters : list rune) (suffix : rune) (e : texpr)
| CPrint (e : texpr) (es : list texpr)
| CIfGoto (first : atom) (rest : list (chain_op * atom)) (target : Z).

Definition number_ok (z : Z) : bool := (0 <=? z) && (z <=? Int.MaxInt).

Definition cstmt_ok (c : cstmt) : bool :=
  match c with
  | CEnd | CReturn => true
  | CGoto target | CGoSub target => number_ok target
  | CAssign ls sfx e => atom_ok (AVar ls sfx) && texpr_ok e
  | CPrint e es => texpr_ok e && forallb texpr_ok es
  | CIfGoto first rest target => texpr_ok (TChain first rest) && number_ok target
  end.

Definition cstmt_stmt (c : cstmt) : Stmt :=
  match c with
  | CEnd => EndStmt
  | CReturn => ReturnStmt
  | CGoto target => GotoStmt target
  | CGoSub target => GoSubStmt target
  | CAssign ls sfx e => AssignStmt (string_of_list_ascii (ls ++ [sfx])) (texpr_expr e)
  | CPrint e es => PrintStmt (map texpr_expr (e :: es))
  | CIfGoto first rest target => IfGotoStmt (texpr_expr (TChain first rest)) target
  end.

Fixpoint print_fuel (es : list texpr) : nat :=
  match es with
  | [] => 0
  | e :: rest => S (Nat.max (texpr_fuel e) (print_fuel rest))
  end.

(** The fuel that compiling the statement takes. *)
Definition cstmt_fuel (c : cstmt) : nat :=
  match c with
  | CEnd | CReturn | CGoto _ | CGoSub _ => 1
  | CAssign _ _ e => S (texpr_fuel e)
  | CPrint e es => S (print_fuel (e :: es))
  | CIfGoto _ rest _ => S (S (length rest))
  end.

(** The text of the items of PRINT after the first. *)
Fixpoint more_items (es : list texpr) : list rune :=
  match es with
  | [] => []
  | e :: rest =>
      (","%char :: " "%char :: list_ascii_of_string (Expr_Print (texpr_expr e)))
      ++ more_items rest
  end.

(** A program: the numbers and the statements of its lines. *)
Definition cprog_lines (prog : list (Z * cstmt)) : list Line :=
  map (fun p => mkLine (fst p) (Some (cstmt_stmt (snd p)))) prog.

Definition cprog_ok (fuel : nat) (prog : list (Z * cstmt)) : Prop :=
  sorted (cprog_lines prog)
  /\ (length prog < fuel)%nat
  /\ forall n c, In (n, c) prog ->
                 number_ok n = true /\ cstmt_ok c = true
                 /\ (length prog + cstmt_fuel c <= fuel)%nat.

(** The program of the tests. *)
Definition test_program : list (Z * cstmt) :=
  [(10, CAssign (list_ascii_of_string "ABC") "%" (TChain (ALit 123) []));
   (20, CAssign (list_ascii_of_string "ABC") "$" (TStr "def"));
   (25, CIfGoto (AVar (list_ascii_of_string "ABC") "%") [(Eq, ALit 123)] 50);
   (30, CPrint (TChain (AVar (list_ascii_of_string "ABC") "%") []) []);
   (40, CGoSub 50);
   (45, CEnd);
   (50, CPrint (TChain (AVar (list_ascii_of_string "ABC") "%") [])
               [TChain (AVar (list_ascii_of_string "ABC") "$") []; TStr "done"]);
   (55, CReturn)].

(** * Properties *)

(** ** The scanner and the two-character operators *)

Lemma scan_le (rest : list rune) :
  scan ("<" :: "=" :: rest)%char = Ok ((OperatorToken, 0, "<="), false, rest).
Proof. reflexivity. Qed.

Lemma scan_ne (rest : list rune) :
  scan ("<" :: ">" :: rest)%char = Ok ((OperatorToken, 0, "<>"), false, rest).
Proof. reflexivity. Qed.

(** After [>] the scanner reads nothing: whatever follows, the token is [>]
    and the input is where it was before the call. *)
Lemma scan_gt (rest : list rune) :
  scan (">" :: rest)%char = Ok ((OperatorToken, 0, ">"), false, (">" :: rest)%char).
Proof. reflexivity. Qed.

(** With [>] as the next character, [Basic.Error] never reaches the end of
    the line. *)
Lemma drain_gt (fuel : nat) (rest : list rune) (t0 : Token) (n0 : Z) (s0 : string) :
  drain fuel (mkTR (">" :: rest)%char false false t0 n0 s0) = OutOfFuel.
Proof.
  induction fuel as [|fuel IH]; [reflexivity|].
  cbn [drain AtEOL]. unfold ReadToken. cbn [peeked R]. rewrite scan_gt.
  cbn [rbind t n s]. exact IH.
Qed.

(** C2. The text [>=] is not read as the one token [>=]: [ReadToken]
    answers the operator [>] and leaves both characters in the input, so
    that every further call answers [>] again. *)
Theorem C2_ge_is_read_as_gt (rest : list rune) (fuel : nat) :
  let tr := mkTR (">" :: "=" :: rest)%char false false EndOfLine 0 "" in
  ReadToken tr = Ok ((OperatorToken, 0, ">"), tr)
  /\ drain fuel tr = OutOfFuel.
Proof.
  split; [reflexivity|]. apply drain_gt.
Qed.

(** ** Rendering and compiling again *)

(** C1. The statement [PRINT "abc" + "def"] is rendered without the
    quotes of its two literals; the rendering compiles to a statement
    over the variables ABC and DEF, which is another statement. *)
Theorem C1_string_operands_are_not_requoted :
  let S := PrintStmt [BinaryExpr "+" op_add (ValueExpr (VStr "abc"))
                                            (ValueExpr (VStr "def"))] in
  let S' := PrintStmt [BinaryExpr "+" op_add (VarExpr "ABC") (VarExpr "DEF")] in
  compile 10 ("print " +:+ quoted "abc" +:+ " + " +:+ quoted "def") = Ok (Some S, true)
  /\ Stmt_Print S = Ok "PRINT abc + def"
  /\ compile 10 "PRINT abc + def" = Ok (Some S', true)
  /\ S' <> S.
Proof.
  repeat split; try reflexivity.
  intros H; discriminate H.
Qed.

(** The same loss in the test of IF. *)
Lemma render_if_test_unquoted :
  let S := IfGotoStmt (BinaryExpr "=" op_eq (VarExpr "A$") (ValueExpr (VStr "x"))) 10 in
  compile 10 ("if a$ = " +:+ quoted "x" +:+ " goto 10") = Ok (Some S, true)
  /\ Stmt_Print S = Ok "IF A$ = x GOTO 10"
  /\ compile 10 "IF A$ = x GOTO 10"
     = Ok (Some (IfGotoStmt (BinaryExpr "=" op_eq (VarExpr "A$") (VarExpr "X")) 10), true).
Proof. repeat split; reflexivity. Qed.

(** A literal that is the whole expression keeps its quotes. *)
Lemma render_literal_quoted :
  Stmt_Print (AssignStmt "ABC$" (ValueExpr (VStr "def"))) = Ok ("ABC$ = " +:+ quoted "def")
  /\ compile 10 ("ABC$ = " +:+ quoted "def")
     = Ok (Some (AssignStmt "ABC$" (ValueExpr (VStr "def"))), true).
Proof. split; reflexivity. Qed.

(** ** Line numbers of the store *)

(** C4. A line entered with the number 0 is stored under 0; RUN then takes
    the line it fetches first for the absence of a line and runs
    nothing. *)
Theorem C4_line_zero_is_stored :
  rmap Code (session 10 ∅ ("0 end" +:+ nl)) = Ok [mkLine 0 (Some EndStmt)]
  /\ rmap (fun b => (Number <$> Code b, W b))
          (session 10 ∅ ("0 print 1" +:+ nl +:+ "10 print 2" +:+ nl +:+ "run" +:+ nl))
     = Ok ([0; 10], "").
Proof. split; reflexivity. Qed.

(** A file is loaded the same way. *)
Lemma Load_stores_line_zero :
  rmap (fun '(done, b) => (done, Code b))
       (Load 10 "f" (NewBasic {[ "f" := "0 end" +:+ nl ]}))
  = Ok (true, [mkLine 0 (Some EndStmt)]).
Proof. reflexivity. Qed.

(** ** Integer arithmetic *)

Lemma wrap_in_range (z : Z) : Int.in_range z -> Int.wrap z = z.
Proof.
  unfold Int.in_range, Int.wrap, Int.MinInt, Int.MaxInt. intros H.
  rewrite Z.mod_small by lia. lia.
Qed.

Lemma wrap_range (z : Z) : Int.in_range (Int.wrap z).
Proof.
  unfold Int.in_range, Int.wrap, Int.MinInt, Int.MaxInt.
  pose proof (Z.mod_pos_bound (z + 2 ^ 63) (2 ^ 64) ltac:(lia)). lia.
Qed.

(** The truncated quotient of two machine integers is a machine integer,
    but for the one pair whose quotient is [2 ^ 63]. *)
Lemma quot_in_range (x y : Z) :
  Int.in_range x -> Int.in_range y -> y <> 0 ->
  ~ (x = Int.MinInt /\ y = -1) ->
  Int.in_range (x ÷ y).
Proof.
  unfold Int.in_range, Int.MinInt, Int.MaxInt. intros Hx Hy Hy0 Hmin.
  destruct (Z.eq_dec y (-1)) as [->|Hy1].
  - assert (x <> - 2 ^ 63) by (intros ->; apply Hmin; split; reflexivity).
    replace (-1) with (- (1)) by reflexivity.
    rewrite Z.quot_opp_r, Z.quot_1_r by lia. lia.
  - destruct (Z.eq_dec y 1) as [->|Hy2]; [rewrite Z.quot_1_r; lia|].
    assert (H2 : 0 < 2 <= Z.abs y) by lia.
    assert (Z.abs (x ÷ y) <= 2 ^ 62); [|lia].
    rewrite <- Z.quot_abs by lia.
    transitivity (Z.abs x ÷ 2).
    + apply Z.quot_le_compat_l; lia.
    + apply Z.quot_le_upper_bound; lia.
Qed.

(** C9. The operator [/] on two integers gives the quotient truncated
    toward zero, as a machine integer; a zero divisor gives no value at
    all: the evaluation ends in the run-time panic of the division. *)
Theorem C9_division (b b1 b2 : Basic) (e1 e2 : Expr) (n1 n2 : Z) :
  Eval e1 b = Ok (Some (VInt n1), b1) ->
  Eval e2 b1 = Ok (Some (VInt n2), b2) ->
  BinaryOps "/" = Some op_div
  /\ (n2 <> 0 ->
      Eval (BinaryExpr "/" op_div e1 e2) b = Ok (Some (VInt (Int.wrap (n1 ÷ n2))), b2))
  /\ (n2 <> 0 -> Int.in_range n1 -> Int.in_range n2 ->
      ~ (n1 = Int.MinInt /\ n2 = -1) ->
      Eval (BinaryExpr "/" op_div e1 e2) b = Ok (Some (VInt (n1 ÷ n2)), b2))
  /\ (n2 = 0 -> Eval (BinaryExpr "/" op_div e1 e2) b = Panic).
Proof.
  intros H1 H2.
  assert (Hq : n2 <> 0 ->
               Eval (BinaryExpr "/" op_div e1 e2) b
               = Ok (Some (VInt (Int.wrap (n1 ÷ n2))), b2)).
  { intros Hn. cbn [Eval]. rewrite H1. cbn [rbind]. rewrite H2. cbn.
    unfold Int.div. destruct (n2 =? 0) eqn:E; [lia|reflexivity]. }
  repeat split.
  - exact Hq.
  - intros Hn R1 R2 Hmin. rewrite (Hq Hn).
    rewrite wrap_in_range by (apply quot_in_range; assumption). reflexivity.
  - intros ->. cbn [Eval]. rewrite H1. cbn [rbind]. rewrite H2. reflexivity.
Qed.

Lemma C9_division_witness :
  Eval (BinaryExpr "/" op_div (NegateExpr (ValueExpr (VInt 7))) (ValueExpr (VInt 2)))
       (NewBasic ∅)
  = Ok (Some (VInt (-3)), NewBasic ∅)
  /\ Eval (BinaryExpr "/" op_div (ValueExpr (VInt 1234)) (ValueExpr (VInt 0)))
          (NewBasic ∅)
     = Panic.
Proof.
  split.
  - apply (C9_division (NewBasic ∅) (NewBasic ∅) (NewBasic ∅)
                       (NegateExpr (ValueExpr (VInt 7))) (ValueExpr (VInt 2))
                       (-7) 2 eq_refl eq_refl).
    + lia.
    + unfold Int.in_range, Int.MinInt, Int.MaxInt. lia.
    + unfold Int.in_range, Int.MinInt, Int.MaxInt. lia.
    + lia.
  - apply (C9_division (NewBasic ∅) (NewBasic ∅) (NewBasic ∅)
                       (ValueExpr (VInt 1234)) (ValueExpr (VInt 0))
                       1234 0 eq_refl eq_refl).
    reflexivity.
Defined.

(** The one quotient that is not a machine integer wraps around. *)
Lemma division_overflow :
  Int.div Int.MinInt (-1) = Ok Int.MinInt.
Proof. reflexivity. Qed.

(** ** RETURN *)

Lemma unwind_skip (frames rest : list Ctx) :
  no_gosub frames -> unwind (frames ++ rest) = unwind rest.
Proof.
  induction 1 as [|c frames Hc _ IH]; [reflexivity|].
  cbn [app unwind]. destruct (Ctx_Type c =? GoSubCtx) eqn:E; [lia|exact IH].
Qed.

Lemma no_gosub_rev (frames : list Ctx) : no_gosub frames -> no_gosub (rev frames).
Proof. apply List.Forall_rev. Qed.

(** C8. RETURN drops the frames above the nearest GOSUB frame and that
    frame, and continues at the line after the one the frame records;
    without a GOSUB frame it empties the stack, reports the error and
    answers -1.  It returns in both cases. *)
Theorem C8_return (b : Basic) (line : Z) (stk : list Ctx) :
  (forall below above origin,
      stk = below ++ mkCtx GoSubCtx origin :: above ->
      no_gosub above ->
      Execute ReturnStmt b line stk = Ok (Int.add origin 1, below, b)
      /\ (Int.MinInt <= origin < Int.MaxInt -> Int.add origin 1 = origin + 1))
  /\ (no_gosub stk ->
      Execute ReturnStmt b line stk
      = Ok (-1, [], err (ln "basic: error: RETURN without a GOSUB") b)).
Proof.
  split.
  - intros below above origin -> Habove. split.
    + cbn [Execute]. rewrite rev_app_distr. cbn [rev]. rewrite <- app_assoc.
      rewrite unwind_skip by (apply no_gosub_rev, Habove).
      cbn. rewrite rev_involutive. reflexivity.
    + intros Hr. apply wrap_in_range.
      unfold Int.in_range, Int.MinInt, Int.MaxInt in *. lia.
  - intros Hstk. cbn [Execute].
    replace (rev stk) with (rev stk ++ []) by apply app_nil_r.
    rewrite unwind_skip by (apply no_gosub_rev, Hstk). reflexivity.
Qed.

Lemma C8_return_witness :
  Execute ReturnStmt (NewBasic ∅) 55
          [mkCtx GoSubCtx 25; mkCtx ForCtx 30; mkCtx GoSubCtx 40; mkCtx WhileCtx 50]
  = Ok (41, [mkCtx GoSubCtx 25; mkCtx ForCtx 30], NewBasic ∅)
  /\ Execute ReturnStmt (NewBasic ∅) 0 []
     = Ok (-1, [], err (ln "basic: error: RETURN without a GOSUB") (NewBasic ∅)).
Proof.
  split.
  - apply (proj1 (C8_return (NewBasic ∅) 55 _)
                 [mkCtx GoSubCtx 25; mkCtx ForCtx 30] [mkCtx WhileCtx 50] 40 eq_refl).
    repeat constructor. cbn. discriminate.
  - apply (proj2 (C8_return (NewBasic ∅) 0 [])). constructor.
Defined.

(** ** What compiling and executing leave alone *)

Lemma same_store_refl (b : Basic) : same_store b b.
Proof. repeat split. Qed.

Lemma same_store_trans (b1 b2 b3 : Basic) :
  same_store b1 b2 -> same_store b2 b3 -> same_store b1 b3.
Proof. unfold same_store. intros (?&?&?&?) (?&?&?&?). repeat split; congruence. Qed.

Lemma same_store_err (msg : string) (b : Basic) : same_store b (err msg b).
Proof. repeat split. Qed.

Lemma frame_mret {A} (a : A) : frame (mret a).
Proof. intros b tr a' b' tr' [= _ <- _]. apply same_store_refl. Qed.

Lemma frame_mbind {A B} (m : M A) (k : A -> M B) :
  frame m -> (forall a, frame (k a)) -> frame (mbind m k).
Proof.
  intros Hm Hk b tr x b' tr'. unfold mbind.
  destruct (m b tr) as [[[a b1] tr1]| | |] eqn:E; try discriminate.
  intros H. eapply same_store_trans; [eapply Hm, E|eapply Hk, H].
Qed.

Lemma frame_no_fuel {A} : frame (@no_fuel A).
Proof. intros b tr a b' tr'. discriminate. Qed.

Lemma frame_readT : frame readT.
Proof.
  intros b tr a b' tr'. unfold readT.
  destruct (ReadToken tr) as [[tk tr1]| | |]; try discriminate.
  intros [= _ <- _]. apply same_store_refl.
Qed.

Lemma frame_peekT : frame peekT.
Proof.
  intros b tr a b' tr'. unfold peekT.
  destruct (PeekToken tr) as [[tk tr1]| | |]; try discriminate.
  intros [= _ <- _]. apply same_store_refl.
Qed.

Lemma frame_readRem : frame readRem.
Proof.
  intros b tr a b' tr'. unfold readRem.
  destruct (read_rem "" (R tr)) as [[text rest]| | |]; try discriminate.
  intros [= _ <- _]. apply same_store_refl.
Qed.

Lemma frame_Error (fuel : nat) (msg : string) : frame (Error fuel msg).
Proof.
  intros b tr a b' tr'. unfold Error.
  destruct (drain fuel tr) as [tr1| | |]; try discriminate.
  intros [= _ <- _]. apply same_store_err.
Qed.

Lemma frame_panic {A} : frame (fun _ _ => @Panic (A * Basic * TokenReader)).
Proof. intros b tr a b' tr'. discriminate. Qed.

Create HintDb frame.
#[local] Hint Resolve frame_mret frame_no_fuel frame_readT frame_peekT
  frame_readRem frame_Error frame_panic : frame.

(** One step through a computation built from the pieces above. *)
Ltac frame_step :=
  cbv beta;
  match goal with
  | |- frame (mbind _ _) => apply frame_mbind; [|intros ?]
  | |- frame (match ?x with _ => _ end) => destruct x
  | |- frame _ => solve [auto with frame]
  end.

Lemma CompileExpr_frame (fuel : nat) : frame (CompileExpr fuel).
Proof.
  induction fuel as [|fuel IH]; [apply frame_no_fuel|].
  cbn [CompileExpr]. repeat frame_step; exact IH.
Qed.

Lemma CompilePrint_frame (fuel : nat) (acc : list Expr) : frame (CompilePrint fuel acc).
Proof.
  revert acc. induction fuel as [|fuel IH]; intros acc; [apply frame_no_fuel|].
  cbn [CompilePrint]. pose proof (CompileExpr_frame fuel).
  repeat frame_step; auto.
Qed.

Lemma line_number_for_frame (fuel : nat) (what : string) (mk : Z -> Stmt) :
  frame (line_number_for fuel what mk).
Proof. unfold line_number_for. repeat frame_step. Qed.

Lemma CompileStatement_with_frame (ck : string -> bool -> M compiled) (fuel : nat) (full : bool) :
  (forall kw full', frame (ck kw full')) -> frame (CompileStatement_with ck fuel full).
Proof. intros H. unfold CompileStatement_with. repeat frame_step; auto. Qed.

Lemma CompileKeyword_frame (fuel : nat) (kw : string) (full : bool) :
  frame (CompileKeyword fuel kw full).
Proof.
  revert kw full. induction fuel as [|fuel IH]; intros kw full; [apply frame_no_fuel|].
  cbn [CompileKeyword].
  pose proof (CompileExpr_frame fuel).
  pose proof (fun acc => CompilePrint_frame fuel acc).
  pose proof (fun what mk => line_number_for_frame fuel what mk).
  pose proof (fun full' => CompileStatement_with_frame _ fuel full' IH).
  repeat frame_step; auto.
Qed.

Lemma CompileStatement_frame (fuel : nat) (full : bool) :
  frame (CompileStatement fuel full).
Proof. apply CompileStatement_with_frame, CompileKeyword_frame. Qed.

(** ** LOAD *)

Lemma Load_loop_store (fuel : nat) (b : Basic) (tr : TokenReader) (done : bool) (b' : Basic) :
  Load_loop fuel b tr = Ok (done, b') ->
  Vars b' = Vars b /\ W b' = W b /\ Files b' = Files b.
Proof.
  revert b tr. induction fuel as [|fuel IH]; intros b tr; [discriminate|].
  cbn [Load_loop].
  destruct (skip_blank (R tr)) as [l|]; [|intros [= _ <-]; repeat split].
  destruct (ReadToken (set_R l tr)) as [[[[tk v] text] tr1]| | |]; try discriminate.
  destruct (Token_eqb tk IntegerToken).
  - destruct (CompileStatement fuel true b tr1) as [[[[stmt ok] b2] tr2]| | |] eqn:E;
      try discriminate.
    apply CompileStatement_frame in E. destruct E as (Hv & _ & Hw & Hf).
    destruct ok.
    + intros H. apply IH in H. cbn in H. intuition congruence.
    + intros [= _ <-]. auto.
  - destruct (Error fuel _ b tr1) as [[[u b2] tr2]| | |] eqn:E; try discriminate.
    apply frame_Error in E. destruct E as (Hv & _ & Hw & Hf).
    intros [= _ <-]. auto.
Qed.

(** A LOAD that returns [false] leaves the stored lines and the variables
    as they were before it, whatever it had read of the file. *)
Lemma Load_failure_restores (fuel : nat) (fn : string) (b b' : Basic) :
  Load fuel fn b = Ok (false, b') ->
  Code b' = Code b /\ Vars b' = Vars b.
Proof.
  unfold Load. destruct (Files b !! fn) as [content|].
  - destruct (Load_loop fuel (New b) (reader content)) as [[done b1]| | |];
      try discriminate.
    cbn [rbind]. destruct done; [discriminate|].
    intros [= <-]. split; reflexivity.
  - intros [= <-]. split; reflexivity.
Qed.

Lemma Load_failure_restores_witness :
  Load 10 "bad" loaded_state
  = Ok (false, err (ln "basic: error: unknown keyword: FOO") loaded_state)
  /\ Code (err (ln "basic: error: unknown keyword: FOO") loaded_state) = Code loaded_state
  /\ Vars (err (ln "basic: error: unknown keyword: FOO") loaded_state) = Vars loaded_state.
Proof.
  split; [reflexivity|].
  apply (Load_failure_restores 10 "bad" loaded_state). reflexivity.
Defined.

(** *** A line that does not compile and holds [>] *)

Ltac switch_on_keyword :=
  cbn [CompileKeyword];
  repeat match goal with
         | |- context [String.eqb ?a ?b] =>
             let v := eval vm_compute in (String.eqb a b) in
             change (String.eqb a b) with v
         end;
  cbv iota.

(** A blank before [>] changes nothing: [Basic.Error] does not reach the
    end of the line. *)
Lemma drain_blank_gt (fuel : nat) (rest : list rune) (t0 : Token) (n0 : Z) (s0 : string) :
  drain fuel (mkTR (" " :: ">" :: rest)%char false false t0 n0 s0) = OutOfFuel.
Proof.
  destruct fuel as [|fuel]; [reflexivity|].
  cbn [drain AtEOL]. unfold ReadToken. cbn [peeked R].
  change (scan (" " :: ">" :: rest)%char) with (scan (">" :: rest)%char).
  rewrite scan_gt. cbn [rbind t n s]. apply drain_gt.
Qed.

(** The statement [FOO > ...] does not compile, and the report of the
    error does not come back. *)
Lemma CompileStatement_hangs (fuel : nat) (b : Basic) (rest : list rune) :
  CompileStatement fuel true b
    (mkTR (" " :: "F" :: "O" :: "O" :: " " :: ">" :: rest)%char false false EndOfLine 0 "")
  = OutOfFuel.
Proof.
  unfold CompileStatement, CompileStatement_with, mbind at 1, readT.
  change (ReadToken _) with
    (Ok ((KeywordToken, 0, "FOO"),
         mkTR (" " :: ">" :: rest)%char false false EndOfLine 0 "")).
  cbn [rbind Token_eqb negb].
  destruct fuel as [|fuel]; [reflexivity|].
  switch_on_keyword.
  change (last_rune "FOO") with (Some "O"%char). cbv beta iota.
  change (is_rune "$" "O" || is_rune "%" "O") with false. cbv iota.
  unfold mbind, Error. rewrite drain_blank_gt. reflexivity.
Qed.

(** Whatever has been loaded so far, the loop of [Load] does not come back
    from the line [20 FOO > ...]. *)
Lemma Load_loop_hangs (fuel : nat) (b : Basic) (eol : bool) (rest : list rune) :
  Load_loop fuel b
    (mkTR ("2" :: "0" :: " " :: "F" :: "O" :: "O" :: " " :: ">" :: rest)%char
          eol false EndOfLine 0 "")
  = OutOfFuel.
Proof.
  destruct fuel as [|fuel]; [reflexivity|].
  cbn [Load_loop R].
  change (skip_blank _) with
    (Some ("2" :: "0" :: " " :: "F" :: "O" :: "O" :: " " :: ">" :: rest)%char).
  cbv iota.
  change (ReadToken _) with
    (Ok ((IntegerToken, 20, ""),
         mkTR (" " :: "F" :: "O" :: "O" :: " " :: ">" :: rest)%char false false EndOfLine 0 "")).
  cbn [Token_eqb]. cbv iota. rewrite CompileStatement_hangs. reflexivity.
Qed.

(** C6. LOAD is not all-or-nothing on every file.  When the file holds
    the line [10 END] and then a line that does not compile with [>] after
    the place of the error, LOAD never returns, whatever the state before
    it and whatever follows in the file: the report of the error reads
    [>] for ever.  The loop is then at the second line with the variables
    gone and line 10 of the file as the stored lines, and the statements
    that put the lines and the variables of before back are not reached. *)
Theorem C6_load_never_returns (fuel : nat) (fn : string) (b : Basic) (rest : string) :
  let content := "10 END" +:+ nl +:+ "20 FOO >" +:+ rest in
  let b0 := set_Files (<[fn := content]> (Files b)) b in
  Load fuel fn b0 = OutOfFuel
  /\ Load_loop fuel (New b0) (reader content)
     = match fuel with
       | S (S fuel') =>
           Load_loop (S fuel') (set_Code [mkLine 10 (Some EndStmt)] (New b0))
             (reader ("20 FOO >" +:+ rest))
       | _ => OutOfFuel
       end.
Proof.
  intros content b0.
  assert (Load_loop fuel (New b0) (reader content)
          = match fuel with
            | S (S fuel') =>
                Load_loop (S fuel') (set_Code [mkLine 10 (Some EndStmt)] (New b0))
                  (reader ("20 FOO >" +:+ rest))
            | _ => OutOfFuel
            end) as Hstep.
  { destruct fuel as [|[|fuel]]; reflexivity. }
  split; [|exact Hstep].
  unfold Load. unfold b0 at 1. cbn [Files set_Files]. rewrite lookup_insert_eq.
  fold b0. cbv zeta. fold content. rewrite Hstep.
  destruct fuel as [|[|fuel]]; [reflexivity|reflexivity|].
  unfold reader.
  change (list_ascii_of_string ("20 FOO >" +:+ rest))
    with ("2" :: "0" :: " " :: "F" :: "O" :: "O" :: " " :: ">"
          :: list_ascii_of_string rest)%char.
  rewrite Load_loop_hangs. reflexivity.
Qed.

(** C5, as the claim has it, fails: LOAD of the file [good] succeeds and
    the variable A% is gone. *)
Lemma C5_load_keeps_variables_counterexample :
  ~ (forall fuel fn b b', Load fuel fn b = Ok (true, b') -> Vars b' = Vars b).
Proof.
  intros H.
  specialize (H 10%nat "good" loaded_state (mkBasic ∅ [mkLine 10 (Some EndStmt)] "" "" (Files loaded_state)) eq_refl).
  apply (f_equal (fun m => m !! "A%")) in H. vm_compute in H. discriminate H.
Qed.

(** C5, amended. A LOAD that succeeds leaves no variable, and leaves the
    state that the same LOAD leaves after NEW: neither the lines nor the
    variables of before are kept. *)
Theorem C5_load_resets (fuel : nat) (fn : string) (b b' : Basic) :
  Load fuel fn b = Ok (true, b') ->
  Vars b' = ∅ /\ Load fuel fn (New b) = Ok (true, b').
Proof.
  unfold Load. cbn [Files New].
  destruct (Files b !! fn) as [content|]; [|discriminate].
  change (New (New b)) with (New b).
  destruct (Load_loop fuel (New b) (reader content)) as [[done b1]| | |] eqn:E;
    try discriminate.
  cbn [rbind]. destruct done; [|discriminate].
  intros [= <-]. split; [|reflexivity].
  apply Load_loop_store in E. apply E.
Qed.

Lemma C5_load_resets_witness :
  Vars (mkBasic ∅ [mkLine 10 (Some EndStmt)] "" "" (Files loaded_state)) = ∅
  /\ Load 10 "good" (New loaded_state)
     = Ok (true, mkBasic ∅ [mkLine 10 (Some EndStmt)] "" "" (Files loaded_state)).
Proof.
  apply (C5_load_resets 10 "good" loaded_state). reflexivity.
Defined.

(** ** What executing a statement can change *)

Lemma Eval_store (e : Expr) (b : Basic) (v : option Value) (b' : Basic) :
  Eval e b = Ok (v, b') -> same_store b b'.
Proof.
  revert b v b'.
  induction e as [val|name|e1 IH1|name op l IHl r IHr]; intros b v b'; cbn [Eval].
  - intros [= _ <-]. apply same_store_refl.
  - destruct (Vars b !! name); intros [= _ <-];
      [apply same_store_refl|apply same_store_err].
  - destruct (Eval e1 b) as [[val b1]| | |] eqn:E; try discriminate.
    apply IH1 in E. cbn [rbind].
    destruct val as [[z|str|bo]|]; intros [= _ <-]; auto;
      (eapply same_store_trans; [exact E|apply same_store_err]).
  - destruct (Eval l b) as [[val1 b1]| | |] eqn:E1; try discriminate.
    apply IHl in E1. cbn [rbind].
    destruct val1 as [v1|]; [|intros [= _ <-]; exact E1].
    destruct (Eval r b1) as [[val2 b2]| | |] eqn:E2; try discriminate.
    apply IHr in E2. cbn [rbind].
    assert (H12 : same_store b b2) by (eapply same_store_trans; eassumption).
    assert (Herr : forall msg, same_store b (err msg b2))
      by (intros msg; eapply same_store_trans; [exact H12|apply same_store_err]).
    destruct val2 as [v2|]; [|intros [= _ <-]; exact H12].
    destruct v1 as [n1|s1|b0].
    + destruct (IntegerFunc op) as [f|]; [|intros [= _ <-]; apply Herr].
      destruct v2 as [n2|s2|b0]; try (intros [= _ <-]; apply Herr).
      destruct (f n1 n2); try discriminate. intros [= _ <-]. exact H12.
    + destruct (StringFunc op) as [f|]; [|intros [= _ <-]; apply Herr].
      destruct v2 as [n2|s2|b0]; try (intros [= _ <-]; apply Herr).
      destruct (f s1 s2); try discriminate. intros [= _ <-]. exact H12.
    + intros [= _ <-]. apply Herr.
Qed.

Lemma same_store_program (b b' : Basic) : same_store b b' -> same_program b b'.
Proof. unfold same_store, same_program. tauto. Qed.

Lemma same_program_trans (b1 b2 b3 : Basic) :
  same_program b1 b2 -> same_program b2 b3 -> same_program b1 b3.
Proof. unfold same_program. intros [? ?] [? ?]. split; congruence. Qed.

Lemma Eval_test_store (test : Expr) (b : Basic) (v : option bool) (b' : Basic) :
  Eval_test test b = Ok (v, b') -> same_store b b'.
Proof.
  unfold Eval_test. destruct (Eval test b) as [[val b1]| | |] eqn:E; try discriminate.
  apply Eval_store in E. cbn [rbind].
  destruct val as [[z|str|bo]|]; intros [= _ <-]; auto;
    (eapply same_store_trans; [exact E|apply same_store_err]).
Qed.

Lemma PrintStmt_loop_program (exprs : list Expr) (i : nat) (b : Basic) (ok : bool) (b' : Basic) :
  PrintStmt_loop i exprs b = Ok (ok, b') -> same_program b b'.
Proof.
  revert i b. induction exprs as [|e rest IH]; intros i b; cbn [PrintStmt_loop].
  - intros [= _ <-]. split; reflexivity.
  - destruct (Eval e _) as [[val b1]| | |] eqn:E; try discriminate.
    apply Eval_store, same_store_program in E. cbn [rbind].
    assert (H1 : same_program b b1).
    { destruct (0 <? i)%nat; exact E. }
    destruct val as [v|]; [|intros [= _ <-]; exact H1].
    intros H. apply IH in H. eapply same_program_trans; [exact H1|exact H].
Qed.

Lemma Execute_program (st : Stmt) (b : Basic) (line : Z) (stk : list Ctx)
      (next : Z) (stk' : list Ctx) (b' : Basic) :
  Execute st b line stk = Ok (next, stk', b') -> same_program b b'.
Proof.
  revert b.
  induction st as [|target| |target|text|var e|exprs|test thn els IHthn IHels|test number]
    using Stmt_induction; intros b; cbn [Execute].
  - intros [= _ _ <-]. split; reflexivity.
  - intros [= _ _ <-]. split; reflexivity.
  - destruct (unwind (rev stk)) as [[nx|] below]; intros [= _ _ <-]; split; reflexivity.
  - intros [= _ _ <-]. split; reflexivity.
  - intros [= _ _ <-]. split; reflexivity.
  - destruct (Eval e b) as [[val b1]| | |] eqn:E; try discriminate.
    apply Eval_store, same_store_program in E. cbn [rbind].
    destruct val as [v|]; [|intros [= _ _ <-]; exact E].
    destruct (last_rune var) as [c|]; [|discriminate].
    destruct (is_rune "$" c); [|destruct (is_rune "%" c); [|discriminate]];
      destruct v; intros [= _ _ <-]; exact E.
  - destruct (PrintStmt_loop 0 exprs b) as [[ok b1]| | |] eqn:E; try discriminate.
    apply PrintStmt_loop_program in E. cbn [rbind].
    destruct ok; intros [= _ _ <-]; exact E.
  - destruct (Eval_test test b) as [[val b1]| | |] eqn:E; try discriminate.
    apply Eval_test_store, same_store_program in E. cbn [rbind].
    destruct val as [[|]|]; [| |intros [= _ _ <-]; exact E].
    + destruct thn as [th|]; [|discriminate].
      intros H. apply IHthn in H. eapply same_program_trans; eassumption.
    + destruct els as [el|]; [|intros [= _ _ <-]; exact E].
      intros H. apply IHels in H. eapply same_program_trans; eassumption.
  - destruct (Eval_test test b) as [[val b1]| | |] eqn:E; try discriminate.
    apply Eval_test_store, same_store_program in E. cbn [rbind].
    destruct val as [[|]|]; intros [= _ _ <-]; exact E.
Qed.

(** ** Immediate mode *)

(** C10. A line that is a statement is executed at line 0 with an empty
    stack, and the next line and the stack it returns are dropped: the
    command loop goes on with the state the statement left, in which the
    stored lines and the files are those of before; after GOTO and GOSUB
    it is the very state of before the execution, nothing of the stored
    program having run and no frame being kept. *)
Theorem C10_immediate_mode (fuel : nat) (b b1 b2 : Basic) (tr tr0 tr1 : TokenReader)
        (v : Z) (kw : string) (st : Stmt) (next : Z) (stk : list Ctx) :
  ReadToken tr = Ok ((KeywordToken, v, kw), tr0) ->
  ~ In kw commands ->
  CompileKeyword fuel kw true b tr0 = Ok ((Some st, true), b1, tr1) ->
  Execute st b1 0 [] = Ok (next, stk, b2) ->
  Program_line fuel b tr = Ok (false, b2, tr1)
  /\ Code b2 = Code b /\ Files b2 = Files b
  /\ (forall target, st = GotoStmt target \/ st = GoSubStmt target -> b2 = b1).
Proof.
  intros Hread Hkw Hcompile Hexec. split; [|split; [|split]].
  - unfold Program_line, mbind, readT. rewrite Hread. cbn [rbind Token_eqb].
    unfold commands in Hkw. cbn [In] in Hkw.
    repeat match goal with
           | |- context [String.eqb kw ?c] =>
               destruct (String.eqb_spec kw c) as [->|_]; [exfalso; apply Hkw; tauto|]
           end.
    unfold immediate, mbind. rewrite Hcompile. unfold lift.
    cbn [Execute_iface]. rewrite Hexec. reflexivity.
  - apply CompileKeyword_frame in Hcompile. apply Execute_program in Hexec.
    destruct Hcompile as (_ & Hc & _), Hexec as [Hc' _]. congruence.
  - apply CompileKeyword_frame in Hcompile. apply Execute_program in Hexec.
    destruct Hcompile as (_ & _ & _ & Hf), Hexec as [_ Hf']. congruence.
  - intros target [-> | ->]; cbn [Execute] in Hexec; congruence.
Qed.

Lemma C10_immediate_mode_witness :
  Program_line 10 printing_state (reader ("goto 10" +:+ nl))
  = Ok (false, printing_state, mkTR [] true false EndOfLine 0 "")
  /\ Code printing_state = Code printing_state
  /\ Files printing_state = Files printing_state
  /\ (forall target,
         GotoStmt 10 = GotoStmt target \/ GotoStmt 10 = GoSubStmt target ->
         printing_state = printing_state).
Proof.
  apply (C10_immediate_mode 10 printing_state printing_state printing_state
           (reader ("goto 10" +:+ nl))
           (mkTR (list_ascii_of_string (" 10" +:+ nl)) false false EndOfLine 0 "")
           (mkTR [] true false EndOfLine 0 "")
           0 "GOTO" (GotoStmt 10) 10 []).
  - reflexivity.
  - unfold commands. cbn [In]. intros H.
    repeat (destruct H as [H|H]; [discriminate H|]). exact H.
  - reflexivity.
  - reflexivity.
Defined.

(** In a session: the immediate GOTO and GOSUB print nothing although line
    10 would, and the immediate RETURN that follows finds no frame. *)
Lemma immediate_session :
  rmap (fun b => (W b, ErrW b))
       (session 10 ∅ ("10 print 1" +:+ nl +:+ "goto 10" +:+ nl +:+ "gosub 10" +:+ nl
                      +:+ "return" +:+ nl +:+ "x% = 5" +:+ nl +:+ "print x%" +:+ nl))
  = Ok (ln "5", ln "basic: error: RETURN without a GOSUB").
Proof. reflexivity. Qed.

(** ** The store is ordered *)

Lemma sorted_inv (x : Line) (c : list Line) :
  sorted (x :: c) -> sorted c /\ forall l, In l c -> Number x < Number l.
Proof.
  intros H. apply StronglySorted_inv in H. destruct H as [Hs Hall].
  split; [exact Hs|]. intros l Hl.
  rewrite List.Forall_forall in Hall. apply Hall, Hl.
Qed.

Lemma sorted_cons (x : Line) (c : list Line) :
  sorted c -> (forall l, In l c -> Number x < Number l) -> sorted (x :: c).
Proof.
  intros Hs Hall. constructor; [exact Hs|].
  apply List.Forall_forall. exact Hall.
Qed.

Lemma ReplaceOrInsert_In (item : Line) (c : list Line) (l : Line) :
  In l (ReplaceOrInsert item c) -> l = item \/ In l c.
Proof.
  induction c as [|x rest IH]; cbn [ReplaceOrInsert].
  - intros [<-|[]]. left; reflexivity.
  - destruct (Less item x); [|destruct (Less x item)]; cbn [In]; intuition.
Qed.

Lemma ReplaceOrInsert_sorted (item : Line) (c : list Line) :
  sorted c -> sorted (ReplaceOrInsert item c).
Proof.
  induction c as [|x rest IH]; cbn [ReplaceOrInsert]; intros Hs.
  - apply sorted_cons; [exact Hs|]. intros l [].
  - apply sorted_inv in Hs as Hx. destruct Hx as [Hrest Hlt]. unfold Less.
    destruct (Number item <? Number x) eqn:E1; [|destruct (Number x <? Number item) eqn:E2].
    + apply sorted_cons; [exact Hs|]. intros l [<-|Hl]; [lia|].
      specialize (Hlt l Hl). lia.
    + apply sorted_cons; [apply IH, Hrest|]. intros l Hl.
      apply ReplaceOrInsert_In in Hl. destruct Hl as [->|Hl]; [lia|apply Hlt, Hl].
    + apply sorted_cons; [exact Hrest|]. intros l Hl. specialize (Hlt l Hl). lia.
Qed.

Lemma Delete_In (item : Line) (c : list Line) (l : Line) :
  In l (Delete item c) -> In l c.
Proof.
  induction c as [|x rest IH]; cbn [Delete]; [tauto|].
  destruct (Less x item); [|destruct (Less item x)]; cbn [In]; intuition.
Qed.

Lemma Delete_sorted (item : Line) (c : list Line) :
  sorted c -> sorted (Delete item c).
Proof.
  induction c as [|x rest IH]; cbn [Delete]; intros Hs; [exact Hs|].
  apply sorted_inv in Hs as Hx. destruct Hx as [Hrest Hlt].
  destruct (Less x item); [|destruct (Less item x)]; auto.
  apply sorted_cons; [apply IH, Hrest|]. intros l Hl. apply Delete_In in Hl. apply Hlt, Hl.
Qed.

(** The fetch of [Run] finds the first line at or after the number. *)
Lemma fetch_first (c : list Line) (N : Z) (l : Line) :
  sorted c -> first_at_or_after c N l -> fetch c N = l.
Proof.
  unfold fetch, AscendGreaterOrEqual.
  induction c as [|x rest IH]; intros Hs (Hin & Hge & Hmin); [destruct Hin|].
  apply sorted_inv in Hs. destruct Hs as [Hrest Hlt].
  cbn [from_pivot]. unfold Less at 1. cbn [Number].
  destruct (Number x <? N) eqn:E.
  - apply IH; [exact Hrest|]. destruct Hin as [->|Hin]; [lia|].
    repeat split; [exact Hin|exact Hge|].
    intros l' Hl'. apply Hmin. right. exact Hl'.
  - cbn [walk]. destruct Hin as [->|Hin]; [reflexivity|].
    specialize (Hlt l Hin). specialize (Hmin x (or_introl eq_refl)). lia.
Qed.

Lemma fetch_none (c : list Line) (N : Z) :
  (forall l, In l c -> Number l < N) -> fetch c N = mkLine 0 None.
Proof.
  unfold fetch, AscendGreaterOrEqual.
  induction c as [|x rest IH]; intros H; [reflexivity|].
  cbn [from_pivot]. unfold Less at 1. cbn [Number].
  specialize (H x (or_introl eq_refl)) as Hx.
  destruct (Number x <? N) eqn:E; [|lia].
  apply IH. intros l Hl. apply H. right. exact Hl.
Qed.

(** ** The executor *)

Lemma GotoStmt_Execute (target : Z) (b : Basic) (line : Z) (stk : list Ctx) :
  Execute (GotoStmt target) b line stk = Ok (target, stk, b).
Proof. reflexivity. Qed.

(** C7. When the statement of the line being run returns the next line
    [N]: for [N <= 0] the run ends; for [N > 0] the run goes on with the
    first stored line whose number is at least [N], executed under its own
    number, and ends if there is no such line.  The stored lines are the
    same after the statement. *)
Theorem C7_next_line (fuel : nat) (b b' : Basic) (line : Z) (stk stk' : list Ctx)
        (l0 : Line) (N : Z) :
  sorted (Code b) ->
  fetch (Code b) line = l0 ->
  Number l0 <> 0 ->
  Execute_iface (Stmt_ l0) b (Number l0) stk = Ok (N, stk', b') ->
  Code b' = Code b
  /\ (N <= 0 -> Run_loop (S fuel) line stk b = Ok b')
  /\ (0 < N ->
      (forall l, first_at_or_after (Code b') N l ->
                 Run_loop (S (S fuel)) line stk b = run_line fuel l stk' b')
      /\ ((forall l, In l (Code b') -> Number l < N) ->
          Run_loop (S (S fuel)) line stk b = Ok b')).
Proof.
  intros Hs Hfetch Hnum Hexec.
  assert (Hcode : Code b' = Code b).
  { destruct (Stmt_ l0) as [st|]; [|discriminate]. cbn [Execute_iface] in Hexec.
    apply Execute_program in Hexec. apply Hexec. }
  assert (Hstep : forall k, Run_loop (S k) line stk b
                            = if N <=? 0 then Ok b' else Run_loop k N stk' b').
  { intros k. cbn [Run_loop]. rewrite Hfetch.
    destruct (Number l0 =? 0) eqn:E; [lia|]. rewrite Hexec. reflexivity. }
  split; [exact Hcode|]. split.
  - intros HN. rewrite Hstep. destruct (N <=? 0) eqn:E; [reflexivity|lia].
  - intros HN. split.
    + intros l Hl. rewrite Hstep. destruct (N <=? 0) eqn:E; [lia|].
      cbn [Run_loop]. rewrite (fetch_first _ _ l) by first [assumption|rewrite Hcode; assumption].
      destruct Hl as (_ & Hge & _).
      destruct (Number l =? 0) eqn:E0; [lia|]. reflexivity.
    + intros Hnone. rewrite Hstep. destruct (N <=? 0) eqn:E; [lia|].
      cbn [Run_loop]. rewrite fetch_none by exact Hnone. reflexivity.
Qed.

Lemma goto_state_sorted : sorted (Code goto_state).
Proof.
  unfold sorted, goto_state. cbn [Code].
  repeat (constructor; cbn [Number]; try lia).
Qed.

Lemma C7_next_line_witness :
  Run_loop 5 0 [] goto_state
  = run_line 3 (mkLine 30 (Some (PrintStmt [ValueExpr (VInt 2)]))) [] goto_state
  /\ rmap W (Run 5 goto_state) = Ok (ln "2").
Proof.
  split; [|reflexivity].
  refine (proj1 (proj2 (proj2
    (C7_next_line 3 goto_state goto_state 0 [] [] (mkLine 10 (Some (GotoStmt 25))) 25
                  goto_state_sorted eq_refl _ eq_refl)) _) _ _).
  - cbn [Number]. lia.
  - lia.
  - split; [|split].
    + cbn. tauto.
    + cbn [Number]. lia.
    + intros l' Hl' Hge. cbn in Hl'.
      destruct Hl' as [<-|[<-|[<-|[]]]]; cbn [Number] in *; lia.
Defined.

(** ** Operator chains *)

(** One call of [CompileExpr] takes one operand, at most one operator, and
    leaves all that follows the operator to one recursive call. *)
Lemma CompileExpr_simple (fuel : nat) (b : Basic) (tr tr1 : TokenReader) (tk : tok) (e : Expr) :
  ReadToken tr = Ok (tk, tr1) ->
  simple_primary tk = Some e ->
  CompileExpr (S fuel) b tr = after_primary fuel e b tr1.
Proof.
  intros Hread Hprim. cbn [CompileExpr]. unfold mbind at 1. unfold readT at 1.
  rewrite Hread. cbn [rbind]. destruct tk as [[tk v] text].
  unfold after_primary.
  assert (Hpeek : forall b0, peekT b0 tr1 = rbind (PeekToken tr1) (fun '(tk, tr') => Ok (tk, b0, tr')))
    by reflexivity.
  destruct tk; try discriminate; injection Hprim as <-;
    cbn [Token_eqb]; unfold mbind, mret; rewrite Hpeek;
    destruct (PeekToken tr1) as [[[[tk3 v3] text3] tr2]| | |]; cbn [rbind]; try reflexivity;
    destruct (Token_eqb tk3 OperatorToken); try reflexivity;
    destruct (BinaryOps text3) as [op|]; try reflexivity;
    unfold readT; destruct (ReadToken tr2) as [[tk4 tr3]| | |]; cbn [rbind]; try reflexivity;
    destruct (CompileExpr fuel b tr3) as [[[[e2|] b'] tr']| | |]; reflexivity.
Qed.

(** The classes of characters do not overlap. *)
Lemma digit_class (ch : rune) :
  is_digit ch = true ->
  is_rune " " ch = false /\ is_rune newline ch = false /\ is_rune squote ch = false
  /\ is_letter ch = false.
Proof.
  destruct ch as [[] [] [] [] [] [] [] []]; vm_compute; intros H;
    first [discriminate H | repeat split].
Qed.

Lemma letter_class (ch : rune) :
  is_letter ch = true ->
  is_rune " " ch = false /\ is_rune newline ch = false /\ is_rune squote ch = false.
Proof.
  destruct ch as [[] [] [] [] [] [] [] []]; vm_compute; intros H;
    first [discriminate H | repeat split].
Qed.

Lemma suffix_class (ch : rune) :
  is_suffix ch = true -> is_letter ch = false.
Proof.
  destruct ch as [[] [] [] [] [] [] [] []]; vm_compute; intros H;
    first [discriminate H | reflexivity].
Qed.

Lemma append_assoc (a b c : string) : (a +:+ b) +:+ c = a +:+ (b +:+ c).
Proof.
  induction a as [|ch a IH]; [reflexivity|].
  change (String ch ((a +:+ b) +:+ c) = String ch (a +:+ (b +:+ c))).
  rewrite IH. reflexivity.
Qed.

Lemma read_integer_digits (ds : list rune) (acc : Z) (c : rune) (more : list rune) :
  forallb is_digit ds = true ->
  is_digit c = false ->
  read_integer acc (ds ++ c :: more)
  = Ok (fold_left (fun a ch => Int.add (Int.mul a 10) (Int.sub (code ch) (code "0"))) ds acc,
        c :: more).
Proof.
  revert acc. induction ds as [|d ds IH]; intros acc Hds Hc.
  - cbn [app fold_left read_integer]. rewrite Hc. reflexivity.
  - cbn [forallb] in Hds. apply andb_prop in Hds. destruct Hds as [Hd Hds].
    cbn [app fold_left read_integer]. rewrite Hd. apply IH; assumption.
Qed.

Lemma read_keyword_letters (ls : list rune) (kw : string) (sfx : rune) (more : list rune) :
  forallb is_letter ls = true ->
  is_suffix sfx = true ->
  read_keyword kw (ls ++ sfx :: more)
  = Ok (kw +:+ string_of_list_ascii (ls ++ [sfx]), more).
Proof.
  revert kw. induction ls as [|l ls IH]; intros kw Hls Hsfx.
  - cbn [app read_keyword]. rewrite (suffix_class _ Hsfx).
    unfold is_suffix in Hsfx. rewrite Hsfx. reflexivity.
  - cbn [forallb] in Hls. apply andb_prop in Hls. destruct Hls as [Hl Hls].
    cbn [app read_keyword]. rewrite Hl. rewrite IH by assumption.
    unfold snoc. rewrite append_assoc. reflexivity.
Qed.

(** An operand followed by a blank or by the end of the line is one token. *)
Lemma scan_operand (o : operand) (c : rune) (more : list rune) :
  operand_ok o = true ->
  c = " "%char \/ c = newline ->
  scan (operand_text o ++ c :: more) = Ok (operand_tok o, false, c :: more).
Proof.
  intros Hok Hc. destruct o as [ds|ls sfx]; cbn [operand_ok operand_text operand_tok] in *.
  - destruct ds as [|d ds]; [discriminate Hok|]. cbn [nonempty andb] in Hok.
    assert (Hd : is_digit d = true) by (cbn [forallb] in Hok; apply andb_prop in Hok; tauto).
    destruct (digit_class d Hd) as (H1 & H2 & H3 & H4).
    change ((d :: ds) ++ c :: more) with (d :: (ds ++ c :: more)).
    cbn [scan]. rewrite H1, H2, H3, H4, Hd.
    change (d :: (ds ++ c :: more)) with ((d :: ds) ++ c :: more).
    rewrite read_integer_digits; [reflexivity|exact Hok|].
    destruct Hc as [-> | ->]; reflexivity.
  - destruct ls as [|l ls]; [discriminate Hok|]. cbn [nonempty andb] in Hok.
    apply andb_prop in Hok. destruct Hok as [Hls Hsfx].
    cbn [forallb] in Hls. apply andb_prop in Hls. destruct Hls as [Hl Hls].
    destruct (letter_class l Hl) as (H1 & H2 & H3).
    rewrite <- app_assoc. cbn [app]. cbn [scan]. rewrite H1, H2, H3, Hl.
    rewrite read_keyword_letters by assumption. reflexivity.
Qed.

(** An operator between two blanks is one token; the second blank stays. *)
Lemma scan_operator (o : chain_op) (more : list rune) :
  scan (" "%char :: list_ascii_of_string (op_name o) ++ " "%char :: more)
  = Ok ((OperatorToken, 0, op_name o), false, " "%char :: more).
Proof. destruct o; reflexivity. Qed.

Lemma BinaryOps_entry (o : chain_op) : BinaryOps (op_name o) = Some (op_entry o).
Proof. destruct o; reflexivity. Qed.

Lemma operand_primary (o : operand) : simple_primary (operand_tok o) = Some (operand_expr o).
Proof. destruct o; reflexivity. Qed.

(** A blank before an expression is skipped by the first [ReadToken]. *)
Lemma CompileExpr_blank (fuel : nat) (b : Basic) (l : list rune)
      (eol : bool) (t0 : Token) (n0 : Z) (s0 : string) :
  CompileExpr fuel b (mkTR (" "%char :: l) eol false t0 n0 s0)
  = CompileExpr fuel b (mkTR l eol false t0 n0 s0).
Proof. destruct fuel; reflexivity. Qed.

(** A chain compiles to the right-nested tree, and the reader is left with
    the end of the line as its pending token. *)
Lemma CompileExpr_chain (rest : list (chain_op * operand)) :
  forall (first : operand) (tail : list rune) (b : Basic) (fuel : nat)
         (eol : bool) (t0 : Token) (n0 : Z) (s0 : string),
    operand_ok first = true ->
    forallb (fun p => operand_ok (snd p)) rest = true ->
    (length rest < fuel)%nat ->
    CompileExpr fuel b (mkTR (chain_text first rest ++ newline :: tail) eol false t0 n0 s0)
    = Ok (Some (right_nested first rest), b, mkTR tail true true EndOfLine 0 "").
Proof.
  induction rest as [|[o next] rest IH];
    intros first tail b fuel eol t0 n0 s0 Hfirst Hrest Hfuel;
    (destruct fuel as [|fuel]; [cbn [length] in Hfuel; lia|]).
  - cbn [chain_text right_nested].
    rewrite (CompileExpr_simple fuel b _ (mkTR (newline :: tail) false false t0 n0 s0)
                                (operand_tok first) (operand_expr first)).
    + reflexivity.
    + unfold ReadToken. cbn [peeked R].
      rewrite scan_operand by (auto || exact Hfirst). reflexivity.
    + apply operand_primary.
  - cbn [forallb snd] in Hrest. apply andb_prop in Hrest. destruct Hrest as [Hnext Hrest].
    cbn [length] in Hfuel.
    cbn [chain_text right_nested]. rewrite <- !app_assoc. cbn [app].
    rewrite (CompileExpr_simple fuel b _
               (mkTR (" "%char :: list_ascii_of_string (op_name o)
                        ++ " "%char :: chain_text next rest ++ newline :: tail)
                     false false t0 n0 s0)
               (operand_tok first) (operand_expr first)).
    + unfold after_primary, PeekToken, ReadToken. cbn [peeked R AtEOL rbind].
      rewrite scan_operator. cbn [rbind R AtEOL peeked Token_eqb t n s].
      rewrite BinaryOps_entry. rewrite CompileExpr_blank.
      rewrite IH by (assumption || lia). reflexivity.
    + unfold ReadToken. cbn [peeked R].
      rewrite scan_operand by (auto || exact Hfirst). reflexivity.
    + apply operand_primary.
Qed.

(** C3. A chain of operands and operators compiles, with enough fuel, to
    the tree in which each operator has the whole rest of the chain as its
    right operand, whatever the operators are; so [12 + 34 * 56] is
    [12 + (34 * 56)], and the two programs print 1916 and 2576. *)
Theorem C3_right_associative (first : operand) (rest : list (chain_op * operand))
        (tail : list rune) (b : Basic) (fuel : nat) :
  operand_ok first = true ->
  forallb (fun p => operand_ok (snd p)) rest = true ->
  (length rest < fuel)%nat ->
  CompileExpr fuel b (mkTR (chain_text first rest ++ newline :: tail) false false EndOfLine 0 "")
  = Ok (Some (right_nested first rest), b, mkTR tail true true EndOfLine 0 "")
  /\ rmap W (session 10 ∅ ("PRINT 12 + 34 * 56" +:+ nl)) = Ok (ln "1916")
  /\ rmap W (session 10 ∅ ("PRINT (12 + 34) * 56" +:+ nl)) = Ok (ln "2576").
Proof.
  intros Hfirst Hrest Hfuel. split; [|split; reflexivity].
  apply CompileExpr_chain; assumption.
Qed.

Lemma C3_right_associative_witness :
  CompileExpr 3 (NewBasic ∅) (reader ("a% + b% + c%" +:+ nl))
  = Ok (Some (BinaryExpr "+" op_add (VarExpr "A%")
                         (BinaryExpr "+" op_add (VarExpr "B%") (VarExpr "C%"))),
        NewBasic ∅, mkTR [] true true EndOfLine 0 "")
  /\ rmap W (session 10 ∅ ("PRINT 12 + 34 * 56" +:+ nl)) = Ok (ln "1916")
  /\ rmap W (session 10 ∅ ("PRINT (12 + 34) * 56" +:+ nl)) = Ok (ln "2576").
Proof.
  apply (C3_right_associative
           (Name ["a"%char] "%")
           [(Add, Name ["b"%char] "%"); (Add, Name ["c"%char] "%")]
           [] (NewBasic ∅) 3).
  - reflexivity.
  - reflexivity.
  - cbn [length]. lia.
Defined.

(** The same tree for the chain of the claim with numbers. *)
Lemma chain_12_34_56 :
  right_nested (Num ["1"; "2"]%char) [(Add, Num ["3"; "4"]%char); (Mul, Num ["5"; "6"]%char)]
  = BinaryExpr "+" op_add (ValueExpr (VInt 12))
               (BinaryExpr "*" op_mul (ValueExpr (VInt 34)) (ValueExpr (VInt 56))).
Proof. reflexivity. Qed.

(** A chain through [>] does not compile at all: the scanner delivers
    [>] for ever. *)
Lemma CompileExpr_gt_diverges (fuel : nat) (b : Basic) :
  CompileExpr fuel b (reader ("1 > 2" +:+ nl)) = OutOfFuel.
Proof.
  destruct fuel as [|[|fuel]]; try reflexivity.
  rewrite (CompileExpr_simple _ b (reader ("1 > 2" +:+ nl))
             (mkTR (list_ascii_of_string (" > 2" +:+ nl)) false false EndOfLine 0 "")
             (IntegerToken, 1, "") (ValueExpr (VInt 1)) eq_refl eq_refl).
  unfold after_primary.
  change (PeekToken _) with
    (Ok ((OperatorToken, 0, ">"),
         mkTR (list_ascii_of_string ("> 2" +:+ nl)) false true OperatorToken 0 ">")).
  cbn [Token_eqb].
  change (BinaryOps ">") with (Some op_gt). cbv iota.
  change (ReadToken _) with
    (Ok ((OperatorToken, 0, ">"),
         mkTR (list_ascii_of_string ("> 2" +:+ nl)) false false OperatorToken 0 ">")).
  cbv iota.
  cbn [CompileExpr]. unfold mbind at 1. unfold readT at 1.
  change (ReadToken _) with
    (Ok ((OperatorToken, 0, ">"),
         mkTR (list_ascii_of_string ("> 2" +:+ nl)) false false OperatorToken 0 ">")).
  cbn [rbind Token_eqb]. unfold mbind at 1.
  change (is_op OperatorToken ">" "-") with false.
  change (is_op OperatorToken ">" "(") with false. cbv iota.
  unfold mbind at 1. unfold Error.
  change (list_ascii_of_string ("> 2" +:+ nl)) with (">" :: list_ascii_of_string (" 2" +:+ nl))%char.
  rewrite drain_gt. reflexivity.
Qed.

(** * Further properties *)

(** ** Peeking *)

(** X1. A peeked token is the token that the next read gives, and peeking
    twice gives it twice: after a peek, reading from the reader that was
    peeked at and reading from the one that the peek gave back answer that
    token and leave the same input. *)
Theorem PeekToken_coherent (tr tr1 : TokenReader) (tk : tok) :
  PeekToken tr = Ok (tk, tr1) ->
  PeekToken tr1 = Ok (tk, tr1)
  /\ exists tr2 tr2',
      ReadToken tr1 = Ok (tk, tr2) /\ ReadToken tr = Ok (tk, tr2')
      /\ R tr2 = R tr2' /\ AtEOL tr2 = AtEOL tr2'
      /\ peeked tr2 = false /\ peeked tr2' = false.
Proof.
  unfold PeekToken. destruct (peeked tr) eqn:Hp.
  - intros [= <- <-]. rewrite Hp. split; [reflexivity|].
    unfold ReadToken. rewrite Hp. eexists _, _. repeat split.
  - unfold ReadToken. rewrite Hp.
    destruct (scan (R tr)) as [[[[[tk0 v] text] eol] rest]| | |]; try discriminate.
    cbn [rbind]. intros [= <- <-]. cbn [peeked]. split; [reflexivity|].
    eexists _, _. repeat split.
Qed.

Lemma PeekToken_coherent_witness :
  PeekToken (mkTR (list_ascii_of_string " 12 + 3") false true KeywordToken 0 "PRINT")
  = Ok ((KeywordToken, 0, "PRINT"),
        mkTR (list_ascii_of_string " 12 + 3") false true KeywordToken 0 "PRINT")
  /\ exists tr2 tr2',
      ReadToken (mkTR (list_ascii_of_string " 12 + 3") false true KeywordToken 0 "PRINT")
      = Ok ((KeywordToken, 0, "PRINT"), tr2)
      /\ ReadToken (reader "print 12 + 3") = Ok ((KeywordToken, 0, "PRINT"), tr2')
      /\ R tr2 = R tr2' /\ AtEOL tr2 = AtEOL tr2'
      /\ peeked tr2 = false /\ peeked tr2' = false.
Proof.
  apply (PeekToken_coherent (reader "print 12 + 3")). reflexivity.
Defined.

(** ** Literals and keywords *)

Lemma list_ascii_of_append (a b : string) :
  list_ascii_of_string (a +:+ b) = list_ascii_of_string a ++ list_ascii_of_string b.
Proof.
  induction a as [|ch a IH]; [reflexivity|].
  change (ch :: list_ascii_of_string (a +:+ b) = ch :: (list_ascii_of_string a ++ list_ascii_of_string b)).
  rewrite IH. reflexivity.
Qed.

Lemma string_of_app (a b : list rune) :
  string_of_list_ascii (a ++ b) = string_of_list_ascii a +:+ string_of_list_ascii b.
Proof.
  induction a as [|ch a IH]; [reflexivity|].
  change (String ch (string_of_list_ascii (a ++ b))
          = String ch (string_of_list_ascii a +:+ string_of_list_ascii b)).
  rewrite IH. reflexivity.
Qed.

Lemma append_empty_r (a : string) : a +:+ "" = a.
Proof.
  induction a as [|ch a IH]; [reflexivity|].
  change (String ch (a +:+ "") = String ch a). rewrite IH. reflexivity.
Qed.

Lemma read_string_text (v : list rune) (acc : string) (more : list rune) :
  no_quote v = true ->
  read_string acc (v ++ dquote :: more) = Ok (acc +:+ string_of_list_ascii v, more).
Proof.
  revert acc. induction v as [|ch v IH]; intros acc Hv.
  - cbn [app read_string]. change (is_rune dquote dquote) with true. cbv iota.
    cbn [string_of_list_ascii]. rewrite append_empty_r. reflexivity.
  - cbn [no_quote forallb] in Hv. apply andb_prop in Hv. destruct Hv as [Hch Hv].
    apply negb_true_iff in Hch.
    cbn [app read_string]. rewrite Hch. rewrite IH by exact Hv.
    unfold snoc. rewrite append_assoc. reflexivity.
Qed.

(** A text between double quotes is one string token, whatever the text
    holds but a double quote: blanks, digits, operators and line ends
    included. *)
Lemma scan_string_literal (v more : list rune) :
  no_quote v = true ->
  scan (dquote :: v ++ dquote :: more)
  = Ok ((StringToken, 0, string_of_list_ascii v), false, more).
Proof.
  intros Hv. cbn [scan].
  change (is_rune " " dquote) with false. change (is_rune newline dquote) with false.
  change (is_rune squote dquote) with false. change (is_letter dquote) with false.
  change (is_digit dquote) with false. change (is_single_operator dquote) with false.
  change (is_rune "<" dquote) with false. change (is_rune ">" dquote) with false.
  change (is_rune dquote dquote) with true. cbv iota.
  rewrite read_string_text by exact Hv. reflexivity.
Qed.

(** X2. A string literal is printed between quotes and read back as it was. *)
Theorem string_literal_round_trip (v : string) (tail : list rune) (b : Basic) (fuel : nat) :
  no_quote (list_ascii_of_string v) = true ->
  CompileExpr (S fuel) b
              (mkTR (list_ascii_of_string (Expr_Print (ValueExpr (VStr v))) ++ newline :: tail)
                    false false EndOfLine 0 "")
  = Ok (Some (ValueExpr (VStr v)), b, mkTR tail true true EndOfLine 0 "").
Proof.
  intros Hv.
  rewrite (CompileExpr_simple fuel b _ (mkTR (newline :: tail) false false EndOfLine 0 "")
                              (StringToken, 0, v) (ValueExpr (VStr v))).
  - reflexivity.
  - unfold ReadToken. cbn [peeked R Expr_Print].
    rewrite !list_ascii_of_append, <- !app_assoc.
    change (list_ascii_of_string dq) with [dquote]. cbn [app].
    rewrite scan_string_literal by exact Hv.
    rewrite string_of_list_ascii_of_string. reflexivity.
  - reflexivity.
Qed.

Lemma string_literal_round_trip_witness :
  CompileExpr 1 (NewBasic ∅)
              (mkTR (list_ascii_of_string (Expr_Print (ValueExpr (VStr "a + 1, b"))) ++ [newline])
                    false false EndOfLine 0 "")
  = Ok (Some (ValueExpr (VStr "a + 1, b")), NewBasic ∅, mkTR [] true true EndOfLine 0 "").
Proof.
  apply (string_literal_round_trip "a + 1, b" [] (NewBasic ∅) 0). reflexivity.
Defined.

(** *** Numbers *)

Lemma uint_value_ge (d : Decimal.uint) (acc : Z) : 0 <= acc -> acc <= uint_value d acc.
Proof.
  revert acc. induction d as [|d IH|d IH|d IH|d IH|d IH|d IH|d IH|d IH|d IH|d IH];
    intros acc Hacc; cbn [uint_value]; [lia|..];
    (etransitivity; [|apply IH; lia]); lia.
Qed.

Lemma uint_value_acc (d : Decimal.uint) (acc : positive) :
  uint_value d (Z.pos acc) = Z.pos (Pos.of_uint_acc d acc).
Proof.
  revert acc. induction d as [|d IH|d IH|d IH|d IH|d IH|d IH|d IH|d IH|d IH|d IH];
    intros acc; cbn [uint_value Pos.of_uint_acc]; [reflexivity|..];
    rewrite <- IH; f_equal; lia.
Qed.

Lemma uint_value_of_uint (d : Decimal.uint) : uint_value d 0 = Z.of_N (Pos.of_uint d).
Proof.
  induction d as [|d IH|d IH|d IH|d IH|d IH|d IH|d IH|d IH|d IH|d IH];
    cbn [uint_value Pos.of_uint]; [reflexivity|exact IH|..];
    cbn [Z.of_N]; rewrite <- uint_value_acc; reflexivity.
Qed.

Lemma step_no_wrap (acc k : Z) :
  0 <= acc -> 0 <= k <= 9 -> acc * 10 + k <= Int.MaxInt ->
  Int.add (Int.mul acc 10) (Int.sub (48 + k) 48) = acc * 10 + k.
Proof.
  unfold Int.add, Int.mul, Int.sub, Int.MaxInt. intros H0 Hk Hmax.
  replace (48 + k - 48) with k by lia.
  rewrite (wrap_in_range k) by (unfold Int.in_range, Int.MinInt, Int.MaxInt; lia).
  rewrite (wrap_in_range (acc * 10)) by (unfold Int.in_range, Int.MinInt, Int.MaxInt; lia).
  apply wrap_in_range. unfold Int.in_range, Int.MinInt, Int.MaxInt. lia.
Qed.

Lemma read_integer_uint (d : Decimal.uint) (acc : Z) (c : rune) (more : list rune) :
  0 <= acc -> uint_value d acc <= Int.MaxInt -> is_digit c = false ->
  read_integer acc (list_ascii_of_string (NilEmpty.string_of_uint d) ++ c :: more)
  = Ok (uint_value d acc, c :: more).
Proof.
  revert acc. induction d as [|d IH|d IH|d IH|d IH|d IH|d IH|d IH|d IH|d IH|d IH];
    intros acc Hacc Hmax Hc; cbn [uint_value NilEmpty.string_of_uint list_ascii_of_string app];
    [cbn [read_integer]; rewrite Hc; reflexivity|..];
    cbn [uint_value] in Hmax;
    match goal with
    | |- read_integer _ (?ch :: _) = Ok (uint_value _ (_ + ?k), _) =>
        cbn [read_integer]; change (is_digit ch) with true; cbv iota;
        change (code ch) with (48 + k); change (code "0") with 48;
        pose proof (uint_value_ge d (acc * 10 + k) ltac:(lia));
        rewrite step_no_wrap by lia; apply IH; [lia|exact Hmax|exact Hc]
    end.
Qed.

Lemma to_uint_nonnil (p : positive) : Pos.to_uint p <> Decimal.Nil.
Proof.
  intros H. pose proof (DecimalPos.Unsigned.of_to p) as E. rewrite H in E. discriminate E.
Qed.

(** X3. What [%d] prints for an int that is not negative is read back as
    that int. *)
Theorem scan_fmt_d (z : Z) (c : rune) (more : list rune) :
  0 <= z <= Int.MaxInt -> is_digit c = false ->
  scan (list_ascii_of_string (fmt_d z) ++ c :: more)
  = Ok ((IntegerToken, z, ""), false, c :: more).
Proof.
  intros Hz Hc.
  assert (Hd : exists d, fmt_d z = NilEmpty.string_of_uint d /\ d <> Decimal.Nil
                         /\ uint_value d 0 = z).
  { unfold fmt_d. destruct z as [|p|p]; [| |lia].
    - exists (Decimal.D0 Decimal.Nil). repeat split. discriminate.
    - exists (Pos.to_uint p). cbn [Z.to_int NilZero.string_of_int].
      pose proof (to_uint_nonnil p) as Hnil. split; [|split; [exact Hnil|]].
      + unfold NilZero.string_of_uint. destruct (Pos.to_uint p); [contradiction|..]; reflexivity.
      + rewrite uint_value_of_uint, DecimalPos.Unsigned.of_to. reflexivity. }
  destruct Hd as (d & -> & Hnil & Hval).
  assert (Hread : read_integer 0 (list_ascii_of_string (NilEmpty.string_of_uint d) ++ c :: more)
                  = Ok (z, c :: more)).
  { rewrite read_integer_uint; [rewrite Hval; reflexivity|lia|lia|exact Hc]. }
  destruct d; [contradiction|..];
    cbn [NilEmpty.string_of_uint list_ascii_of_string app] in *;
    cbn [scan];
    match goal with
    | |- context [is_digit ?ch] =>
        change (is_rune " " ch) with false; change (is_rune newline ch) with false;
        change (is_rune squote ch) with false; change (is_letter ch) with false;
        change (is_digit ch) with true; cbv iota
    end;
    rewrite Hread; reflexivity.
Qed.

Lemma scan_fmt_d_witness :
  scan (list_ascii_of_string (fmt_d 9223372036854775807) ++ [newline])
  = Ok ((IntegerToken, 9223372036854775807, ""), false, [newline]).
Proof.
  apply (scan_fmt_d 9223372036854775807 newline []).
  - unfold Int.MaxInt. lia.
  - reflexivity.
Defined.

(** *** Keywords *)

Lemma upper_letter (ch : rune) : is_letter ch = true -> is_letter (upper ch) = true.
Proof.
  destruct ch as [[] [] [] [] [] [] [] []]; vm_compute; intros H;
    first [discriminate H | reflexivity].
Qed.

Lemma upper_upper (ch : rune) : upper (upper ch) = upper ch.
Proof. destruct ch as [[] [] [] [] [] [] [] []]; reflexivity. Qed.

Lemma ToUpper_map (l : list rune) :
  ToUpper (string_of_list_ascii (map upper l)) = ToUpper (string_of_list_ascii l).
Proof.
  induction l as [|ch l IH]; [reflexivity|].
  cbn [map string_of_list_ascii ToUpper]. rewrite upper_upper, IH. reflexivity.
Qed.

Lemma forallb_letter_upper (l : list rune) :
  forallb is_letter l = true -> forallb is_letter (map upper l) = true.
Proof.
  induction l as [|ch l IH]; [reflexivity|]. cbn [forallb map].
  intros H. apply andb_prop in H. destruct H as [H1 H2].
  rewrite upper_letter, IH by assumption. reflexivity.
Qed.

Lemma read_keyword_word (ls : list rune) (kw : string) (c : rune) (more : list rune) :
  forallb is_letter ls = true -> is_letter c = false -> is_suffix c = false ->
  read_keyword kw (ls ++ c :: more) = Ok (kw +:+ string_of_list_ascii ls, c :: more).
Proof.
  revert kw. induction ls as [|l ls IH]; intros kw Hls Hc Hs.
  - cbn [app read_keyword]. rewrite Hc. unfold is_suffix in Hs. rewrite Hs.
    cbn [string_of_list_ascii]. rewrite append_empty_r. reflexivity.
  - cbn [forallb] in Hls. apply andb_prop in Hls. destruct Hls as [Hl Hls].
    cbn [app read_keyword]. rewrite Hl. rewrite IH by assumption.
    unfold snoc. rewrite append_assoc. reflexivity.
Qed.

(** X4. A word of letters is one keyword token, in upper case; writing the
    word in upper case, or in any mix of cases, gives the same token. *)
Theorem scan_keyword_case (ls : list rune) (c : rune) (more : list rune) :
  nonempty ls = true -> forallb is_letter ls = true ->
  is_letter c = false -> is_suffix c = false ->
  scan (ls ++ c :: more)
  = Ok ((KeywordToken, 0, ToUpper (string_of_list_ascii ls)), false, c :: more)
  /\ scan (map upper ls ++ c :: more) = scan (ls ++ c :: more).
Proof.
  intros Hne Hls Hc Hs.
  assert (Hscan : forall l, nonempty l = true -> forallb is_letter l = true ->
                            scan (l ++ c :: more)
                            = Ok ((KeywordToken, 0, ToUpper (string_of_list_ascii l)), false, c :: more)).
  { intros l Hn Hl. destruct l as [|l0 l]; [discriminate Hn|].
    cbn [forallb] in Hl. apply andb_prop in Hl. destruct Hl as [Hl0 Hl].
    destruct (letter_class l0 Hl0) as (H1 & H2 & H3).
    cbn [app scan]. rewrite H1, H2, H3, Hl0.
    rewrite read_keyword_word by assumption. reflexivity. }
  split; [apply Hscan; assumption|].
  rewrite (Hscan ls Hne Hls).
  rewrite Hscan.
  - rewrite ToUpper_map. reflexivity.
  - destruct ls; [discriminate Hne|reflexivity].
  - apply forallb_letter_upper, Hls.
Qed.

Lemma scan_keyword_case_witness :
  scan (list_ascii_of_string "GoSub 10")
  = Ok ((KeywordToken, 0, "GOSUB"), false, list_ascii_of_string " 10")
  /\ scan (list_ascii_of_string "GOSUB 10") = scan (list_ascii_of_string "GoSub 10").
Proof.
  apply (scan_keyword_case (list_ascii_of_string "GoSub") " " (list_ascii_of_string "10"));
    reflexivity.
Defined.

(** ** The store as a map from numbers to statements *)

Lemma ReplaceOrInsert_mem (item : Line) (c : list Line) (l : Line) :
  sorted c ->
  In l (ReplaceOrInsert item c) <-> l = item \/ (In l c /\ Number l <> Number item).
Proof.
  induction c as [|x rest IH]; intros Hs; cbn [ReplaceOrInsert].
  - cbn [In]. intuition.
  - apply sorted_inv in Hs as Hx. destruct Hx as [Hrest Hlt]. unfold Less.
    destruct (Number item <? Number x) eqn:E1; [|destruct (Number x <? Number item) eqn:E2].
    + cbn [In]. split; [|intuition].
      intros [<-|[<-|Hl]]; [left; reflexivity|right; split; [left; reflexivity|lia]|].
      right. split; [right; exact Hl|]. specialize (Hlt l Hl). lia.
    + cbn [In]. rewrite (IH Hrest). split.
      * intros [<-|[->|[Hl Hn]]]; [right; split; [left; reflexivity|lia]|left; reflexivity|].
        right. split; [right; exact Hl|exact Hn].
      * intros [->|[[<-|Hl] Hn]]; [right; left; reflexivity|left; reflexivity|].
        right. right. split; assumption.
    + assert (Heq : Number x = Number item) by lia.
      cbn [In]. split.
      * intros [<-|Hl]; [left; reflexivity|].
        right. split; [right; exact Hl|]. specialize (Hlt l Hl). lia.
      * intros [->|[[<-|Hl] Hn]]; [left; reflexivity|contradiction|right; exact Hl].
Qed.

(** The store after a line is entered: it is ordered, it holds the line
    and the lines of before under other numbers, and nothing else; the
    executor positioned at the number of the line fetches the line. *)
Theorem ReplaceOrInsert_spec (item : Line) (c : list Line) :
  sorted c ->
  sorted (ReplaceOrInsert item c)
  /\ (forall l, In l (ReplaceOrInsert item c)
                <-> l = item \/ (In l c /\ Number l <> Number item))
  /\ fetch (ReplaceOrInsert item c) (Number item) = item.
Proof.
  intros Hs. split; [apply ReplaceOrInsert_sorted, Hs|]. split.
  - intros l. apply ReplaceOrInsert_mem, Hs.
  - apply fetch_first; [apply ReplaceOrInsert_sorted, Hs|].
    split; [apply ReplaceOrInsert_mem; [exact Hs|left; reflexivity]|].
    split; [lia|]. intros l' Hl' Hge. exact Hge.
Qed.

Lemma ReplaceOrInsert_spec_witness :
  sorted (ReplaceOrInsert (mkLine 20 (Some EndStmt)) (Code goto_state))
  /\ (forall l, In l (ReplaceOrInsert (mkLine 20 (Some EndStmt)) (Code goto_state))
                <-> l = mkLine 20 (Some EndStmt)
                    \/ (In l (Code goto_state) /\ Number l <> Number (mkLine 20 (Some EndStmt))))
  /\ fetch (ReplaceOrInsert (mkLine 20 (Some EndStmt)) (Code goto_state))
           (Number (mkLine 20 (Some EndStmt)))
     = mkLine 20 (Some EndStmt).
Proof.
  apply (ReplaceOrInsert_spec (mkLine 20 (Some EndStmt)) (Code goto_state)).
  apply goto_state_sorted.
Defined.

Lemma Delete_mem (item : Line) (c : list Line) (l : Line) :
  sorted c ->
  In l (Delete item c) <-> In l c /\ Number l <> Number item.
Proof.
  induction c as [|x rest IH]; intros Hs; cbn [Delete].
  - cbn [In]. tauto.
  - apply sorted_inv in Hs as Hx. destruct Hx as [Hrest Hlt]. unfold Less.
    destruct (Number x <? Number item) eqn:E1; [|destruct (Number item <? Number x) eqn:E2].
    + cbn [In]. rewrite (IH Hrest). split.
      * intros [<-|[Hl Hn]]; [split; [left; reflexivity|lia]|].
        split; [right; exact Hl|exact Hn].
      * intros [[<-|Hl] Hn]; [left; reflexivity|right; split; assumption].
    + split; [|tauto]. intros Hl. split; [exact Hl|].
      destruct Hl as [<-|Hl]; [lia|]. specialize (Hlt l Hl). lia.
    + assert (Heq : Number x = Number item) by lia. cbn [In]. split.
      * intros Hl. split; [right; exact Hl|]. specialize (Hlt l Hl). lia.
      * intros [[<-|Hl] Hn]; [contradiction|exact Hl].
Qed.

Lemma Delete_absent (item : Line) (c : list Line) :
  (forall l, In l c -> Number l <> Number item) -> Delete item c = c.
Proof.
  induction c as [|x rest IH]; intros H; [reflexivity|].
  cbn [Delete]. unfold Less.
  specialize (H x (or_introl eq_refl)) as Hx.
  destruct (Number x <? Number item) eqn:E1; [|destruct (Number item <? Number x) eqn:E2].
  - rewrite IH; [reflexivity|]. intros l Hl. apply H. right. exact Hl.
  - reflexivity.
  - lia.
Qed.

(** The store after the line of a number is deleted: it is ordered and
    holds the other lines of before, all of them; when no line has the
    number the store is the same. *)
Theorem Delete_spec (item : Line) (c : list Line) :
  sorted c ->
  sorted (Delete item c)
  /\ (forall l, In l (Delete item c) <-> In l c /\ Number l <> Number item)
  /\ ((forall l, In l c -> Number l <> Number item) -> Delete item c = c).
Proof.
  intros Hs. split; [apply Delete_sorted, Hs|]. split.
  - intros l. apply Delete_mem, Hs.
  - apply Delete_absent.
Qed.

Lemma Delete_spec_witness :
  sorted (Delete (mkLine 25 None) (Code goto_state))
  /\ (forall l, In l (Delete (mkLine 25 None) (Code goto_state))
                <-> In l (Code goto_state) /\ Number l <> Number (mkLine 25 None))
  /\ ((forall l, In l (Code goto_state) -> Number l <> Number (mkLine 25 None)) ->
      Delete (mkLine 25 None) (Code goto_state) = Code goto_state).
Proof.
  apply (Delete_spec (mkLine 25 None) (Code goto_state)). apply goto_state_sorted.
Defined.

(** *** DELETE and LIST over a range *)

Lemma filter_none (f : Line -> bool) (c : list Line) :
  (forall l, In l c -> f l = false) -> List.filter f c = [].
Proof.
  induction c as [|x rest IH]; intros H; [reflexivity|].
  cbn [List.filter]. rewrite (H x (or_introl eq_refl)).
  apply IH. intros l Hl. apply H. right. exact Hl.
Qed.

Lemma filter_all (f : Line -> bool) (c : list Line) :
  (forall l, In l c -> f l = true) -> List.filter f c = c.
Proof.
  induction c as [|x rest IH]; intros H; [reflexivity|].
  cbn [List.filter]. rewrite (H x (or_introl eq_refl)).
  rewrite IH; [reflexivity|]. intros l Hl. apply H. right. exact Hl.
Qed.

Lemma from_pivot_filter (strt : Z) (c : list Line) :
  sorted c ->
  from_pivot (mkLine strt None) c = List.filter (fun l => strt <=? Number l) c.
Proof.
  induction c as [|x rest IH]; intros Hs; [reflexivity|].
  apply sorted_inv in Hs as Hx. destruct Hx as [Hrest Hlt].
  cbn [from_pivot List.filter]. unfold Less. cbn [Number].
  destruct (Number x <? strt) eqn:E.
  - replace (strt <=? Number x) with false by lia. apply IH, Hrest.
  - replace (strt <=? Number x) with true by lia.
    rewrite filter_all; [reflexivity|]. intros l Hl. specialize (Hlt l Hl). lia.
Qed.

Lemma walk_gather (end_ : Z) (c acc : list Line) :
  sorted c ->
  walk (gather end_) c acc = acc ++ List.filter (fun l => Number l <=? end_) c.
Proof.
  revert acc. induction c as [|x rest IH]; intros acc Hs.
  - cbn. rewrite app_nil_r. reflexivity.
  - apply sorted_inv in Hs as Hx. destruct Hx as [Hrest Hlt].
    cbn [walk List.filter]. unfold gather at 1.
    destruct (end_ <? Number x) eqn:E.
    + replace (Number x <=? end_) with false by lia.
      rewrite filter_none; [rewrite app_nil_r; reflexivity|].
      intros l Hl. specialize (Hlt l Hl). lia.
    + replace (Number x <=? end_) with true by lia.
      rewrite IH by exact Hrest. rewrite <- app_assoc. reflexivity.
Qed.

Lemma filter_sorted (f : Line -> bool) (c : list Line) :
  sorted c -> sorted (List.filter f c).
Proof.
  induction c as [|x rest IH]; intros Hs; [exact Hs|].
  apply sorted_inv in Hs as Hx. destruct Hx as [Hrest Hlt].
  cbn [List.filter]. destruct (f x); [|apply IH, Hrest].
  apply sorted_cons; [apply IH, Hrest|].
  intros l Hl. apply List.filter_In in Hl. apply Hlt, Hl.
Qed.

Lemma filter_within (strt end_ : Z) (c : list Line) :
  List.filter (fun l => Number l <=? end_) (List.filter (fun l => strt <=? Number l) c)
  = List.filter (within strt end_) c.
Proof.
  induction c as [|x rest IH]; [reflexivity|].
  cbn [List.filter]. unfold within at 1.
  destruct (strt <=? Number x); cbn [andb List.filter]; [|exact IH].
  destruct (Number x <=? end_); rewrite IH; reflexivity.
Qed.

(** The lines that the closures of DELETE and LIST see. *)
Lemma range_lines (strt end_ : Z) (c : list Line) :
  sorted c ->
  AscendGreaterOrEqual (mkLine strt None) (gather end_) c []
  = List.filter (within strt end_) c.
Proof.
  intros Hs. unfold AscendGreaterOrEqual.
  rewrite from_pivot_filter by exact Hs.
  rewrite walk_gather by (apply filter_sorted, Hs). cbn [app].
  apply filter_within.
Qed.

Lemma fold_Delete (lines c : list Line) :
  sorted c ->
  sorted (fold_left (fun c line => Delete line c) lines c)
  /\ forall l, In l (fold_left (fun c line => Delete line c) lines c)
               <-> In l c /\ forall d, In d lines -> Number l <> Number d.
Proof.
  revert c. induction lines as [|d0 lines IH]; intros c Hs; cbn [fold_left].
  - split; [exact Hs|]. intros l. cbn [In]. intuition.
  - destruct (IH (Delete d0 c) (Delete_sorted d0 c Hs)) as [Hsorted Hmem].
    split; [exact Hsorted|]. intros l. rewrite Hmem, (Delete_mem d0 c l Hs).
    cbn [In]. split.
    + intros [[Hl Hn] Hall]. split; [exact Hl|]. intros d [<-|Hd]; auto.
    + intros [Hl Hall]. repeat split; auto.
Qed.

(** DELETE with two numbers removes the lines whose number lies between
    them, both included, and no other line. *)
Theorem delete_range_spec (strt end_ : Z) (c : list Line) :
  sorted c ->
  sorted (delete_range strt end_ c)
  /\ forall l, In l (delete_range strt end_ c)
               <-> In l c /\ ~ (strt <= Number l <= end_).
Proof.
  intros Hs. unfold delete_range. rewrite range_lines by exact Hs.
  destruct (fold_Delete (List.filter (within strt end_) c) c Hs) as [Hsorted Hmem].
  split; [exact Hsorted|]. intros l. rewrite Hmem. split.
  - intros [Hl Hall]. split; [exact Hl|]. intros Hin.
    apply (Hall l); [|reflexivity]. apply List.filter_In. split; [exact Hl|].
    unfold within. apply andb_true_intro. split; lia.
  - intros [Hl Hout]. split; [exact Hl|]. intros d Hd Heq.
    apply List.filter_In in Hd. destruct Hd as [_ Hd]. unfold within in Hd.
    apply andb_prop in Hd. apply Hout. lia.
Qed.

Lemma delete_range_spec_witness :
  sorted (delete_range 15 25 (Code goto_state))
  /\ forall l, In l (delete_range 15 25 (Code goto_state))
               <-> In l (Code goto_state) /\ ~ (15 <= Number l <= 25).
Proof.
  apply (delete_range_spec 15 25 (Code goto_state)). apply goto_state_sorted.
Defined.

(** X5. DELETE with a range takes the lines of the range out of the store and
    leaves the others; with one number it takes that line out.  The store
    stays in ascending order and nothing is written. *)
Theorem DELETE_command (fuel : nat) (b : Basic) (tr tr0 tr1 : TokenReader)
        (v strt end_ : Z) :
  ReadToken tr = Ok ((KeywordToken, v, "DELETE"), tr0) ->
  readRange false tr0 = Ok (strt, end_, true, tr1) ->
  sorted (Code b) ->
  let c' := if end_ =? Int.MaxInt32
            then Delete (mkLine strt None) (Code b)
            else delete_range strt end_ (Code b) in
  Program_line fuel b tr = Ok (false, set_Code c' b, tr1)
  /\ sorted c'
  /\ forall l, In l c'
               <-> In l (Code b)
                   /\ ~ (if end_ =? Int.MaxInt32 then Number l = strt
                         else strt <= Number l <= end_).
Proof.
  intros Hread Hrange Hs c'. split; [|split].
  - unfold Program_line, mbind, readT. rewrite Hread. cbn [rbind Token_eqb].
    change (String.eqb "DELETE" "DELETE") with true. cbv iota.
    unfold readRangeM. rewrite Hrange. cbn [rbind negb].
    unfold c'. destruct (end_ =? Int.MaxInt32); reflexivity.
  - unfold c'. destruct (end_ =? Int.MaxInt32);
      [apply Delete_sorted, Hs|apply delete_range_spec, Hs].
  - intros l. unfold c'. destruct (end_ =? Int.MaxInt32).
    + rewrite (Delete_mem _ _ l Hs). cbn [Number]. tauto.
    + apply delete_range_spec, Hs.
Qed.

Lemma DELETE_command_witness :
  let c' := if 25 =? Int.MaxInt32
            then Delete (mkLine 15 None) (Code goto_state)
            else delete_range 15 25 (Code goto_state) in
  Program_line 10 goto_state (reader ("delete 15 - 25" +:+ nl))
  = Ok (false, set_Code c' goto_state, mkTR [] true false EndOfLine 0 "")
  /\ sorted c'
  /\ forall l, In l c'
               <-> In l (Code goto_state)
                   /\ ~ (if 25 =? Int.MaxInt32 then Number l = 15 else 15 <= Number l <= 25).
Proof.
  apply (DELETE_command 10 goto_state (reader ("delete 15 - 25" +:+ nl))
           (mkTR (list_ascii_of_string (" 15 - 25" +:+ nl)) false false EndOfLine 0 "")
           (mkTR [] true false EndOfLine 0 "") 0 15 25).
  - reflexivity.
  - reflexivity.
  - apply goto_state_sorted.
Defined.

Lemma Stmt_Print_cases (st : Stmt) : Stmt_Print st = Panic \/ exists p, Stmt_Print st = Ok p.
Proof.
  induction st as [|target| |target|text|var e|exprs|test thn els IHthn IHels|test number]
    using Stmt_induction; cbn [Stmt_Print]; try (right; eexists; reflexivity).
  destruct thn as [th|]; [|left; reflexivity]. cbn [opt_all] in IHthn.
  destruct IHthn as [->|[p1 ->]]; [left; reflexivity|]. cbn [rbind].
  destruct els as [el|]; [|right; eexists; reflexivity]. cbn [opt_all] in IHels.
  destruct IHels as [->|[p2 ->]]; [left; reflexivity|right; eexists; reflexivity].
Qed.

Lemma print_line_printable (l : Line) (text : string) :
  printable l -> print_line l (Ok text) = (true, Ok (text +:+ rendered l)).
Proof.
  unfold printable, print_line, rendered, Print_iface.
  destruct (Stmt_ l) as [st|]; [|contradiction].
  destruct (Stmt_Print_cases st) as [->|[p ->]]; [contradiction|].
  intros _. reflexivity.
Qed.

Lemma print_line_renders (l : Line) (text : string) :
  print_line l (Ok text)
  = if renders l then (true, Ok (text +:+ rendered l)) else (false, Panic).
Proof.
  unfold print_line, renders, rendered.
  destruct (Print_iface (Stmt_ l)); reflexivity.
Qed.

Lemma walk_list_line_all (end_ : Z) (c : list Line) (text : string) :
  sorted c ->
  walk (list_line end_) c (Ok text)
  = if forallb renders (List.filter (fun l => Number l <=? end_) c)
    then Ok (text +:+ listing (List.filter (fun l => Number l <=? end_) c))
    else Panic.
Proof.
  revert text. induction c as [|x rest IH]; intros text Hs.
  - cbn. rewrite append_empty_r. reflexivity.
  - apply sorted_inv in Hs as Hx. destruct Hx as [Hrest Hlt].
    cbn [walk List.filter]. unfold list_line at 1.
    destruct (end_ <? Number x) eqn:E.
    + replace (Number x <=? end_) with false by lia.
      rewrite filter_none; [cbn [listing forallb]; rewrite append_empty_r; reflexivity|].
      intros l Hl. specialize (Hlt l Hl). lia.
    + assert (Hx : (Number x <=? end_) = true) by lia. rewrite Hx.
      rewrite print_line_renders. cbn [forallb listing].
      destruct (renders x); cbn [andb]; [|reflexivity].
      rewrite IH by exact Hrest. rewrite append_assoc. reflexivity.
Qed.

(** The state [for_state] is the one that entering its four lines gives. *)
Lemma for_state_entered :
  session 10 ∅ ("10 goto 25" +:+ nl +:+ "20 print 1" +:+ nl +:+ "30 print 2" +:+ nl
                +:+ "40 for" +:+ nl)
  = Ok for_state.
Proof. reflexivity. Qed.

(** X6. The case LIST of the command loop, on an ordered store.  When
    every line of the range holds a statement that [Print] renders, the
    lines of the range are written to [W] in ascending order, each as its
    number, a blank, its statement and a line end; nothing else is written
    and nothing else changes.  When a line of the range holds no such
    statement, as the line that [10 FOR] stores, LIST panics. *)
Theorem LIST_command (fuel : nat) (b : Basic) (tr tr0 tr1 : TokenReader)
        (v strt end_ : Z) :
  ReadToken tr = Ok ((KeywordToken, v, "LIST"), tr0) ->
  readRange true tr0 = Ok (strt, end_, true, tr1) ->
  sorted (Code b) ->
  Program_line fuel b tr
  = if forallb renders (List.filter (within strt end_) (Code b))
    then Ok (false, out (listing (List.filter (within strt end_) (Code b))) b, tr1)
    else Panic.
Proof.
  intros Hread Hrange Hs.
  unfold Program_line, mbind, readT. rewrite Hread. cbn [rbind Token_eqb].
  change (String.eqb "LIST" "DELETE") with false.
  change (String.eqb "LIST" "EXIT") with false.
  change (String.eqb "LIST" "HELP") with false.
  change (String.eqb "LIST" "LIST") with true. cbv iota.
  unfold readRangeM. rewrite Hrange. cbn [rbind negb]. unfold lift.
  unfold AscendGreaterOrEqual. rewrite from_pivot_filter by exact Hs.
  rewrite walk_list_line_all by (apply filter_sorted, Hs).
  rewrite filter_within.
  destruct (forallb renders (List.filter (within strt end_) (Code b))); reflexivity.
Qed.

Lemma LIST_command_witness :
  Program_line 10 for_state (reader ("list 15 - 30" +:+ nl))
  = (if forallb renders (List.filter (within 15 30) (Code for_state))
     then Ok (false,
              out (listing (List.filter (within 15 30) (Code for_state))) for_state,
              mkTR [] true false EndOfLine 0 "")
     else Panic)
  /\ listing (List.filter (within 15 30) (Code for_state))
     = "20 PRINT 1" +:+ nl +:+ "30 PRINT 2" +:+ nl
  /\ Program_line 10 for_state (reader ("list 15" +:+ nl)) = Panic.
Proof.
  split; [|split; reflexivity].
  apply (LIST_command 10 for_state (reader ("list 15 - 30" +:+ nl))
           (mkTR (list_ascii_of_string (" 15 - 30" +:+ nl)) false false EndOfLine 0 "")
           (mkTR [] true false EndOfLine 0 "") 0 15 30).
  - reflexivity.
  - reflexivity.
  - unfold sorted, for_state. cbn [Code].
    repeat (constructor; cbn [Number]; try lia).
Defined.

(** ** Evaluation and execution *)

(** An evaluation that gives a value leaves the state as it was. *)
Lemma Eval_value (e : Expr) (b : Basic) (v : Value) (b' : Basic) :
  Eval e b = Ok (Some v, b') -> b' = b.
Proof.
  revert b v b'.
  induction e as [val|name|e1 IH1|name op l IHl r0 IHr]; intros b v b'; cbn [Eval].
  - intros [= _ <-]. reflexivity.
  - destruct (Vars b !! name); intros [= _ <-]; reflexivity.
  - destruct (Eval e1 b) as [[val b1]| | |] eqn:E; try discriminate. cbn [rbind].
    destruct val as [[z|str|bo]|]; intros [= _ <-]. apply (IH1 _ _ _ E).
  - destruct (Eval l b) as [[val1 b1]| | |] eqn:E1; try discriminate. cbn [rbind].
    destruct val1 as [v1|]; [|discriminate].
    assert (b1 = b) as -> by apply (IHl _ _ _ E1).
    destruct (Eval r0 b) as [[val2 b2]| | |] eqn:E2; try discriminate. cbn [rbind].
    destruct val2 as [v2|]; [|discriminate].
    assert (b2 = b) as -> by apply (IHr _ _ _ E2).
    destruct v1 as [n1|s1|b0]; [| |discriminate].
    + destruct (IntegerFunc op) as [f|]; [|discriminate].
      destruct v2 as [n2|s2|b0]; try discriminate.
      destruct (f n1 n2); try discriminate. intros [= _ <-]. reflexivity.
    + destruct (StringFunc op) as [f|]; [|discriminate].
      destruct v2 as [n2|s2|b0]; try discriminate.
      destruct (f s1 s2); try discriminate. intros [= _ <-]. reflexivity.
Qed.

(** X7. An evaluation that gives a value changes nothing; one that fails
    changes the error stream only. *)
Theorem Eval_effect (e : Expr) (b : Basic) (r : option Value) (b' : Basic) :
  Eval e b = Ok (r, b') ->
  same_store b b' /\ (r <> None -> b' = b).
Proof.
  intros H. split; [eapply Eval_store, H|].
  destruct r as [v|]; [|contradiction]. intros _. eapply Eval_value, H.
Qed.

Lemma Eval_effect_witness :
  same_store loaded_state loaded_state
  /\ (Some (VInt 3) <> None -> loaded_state = loaded_state).
Proof.
  apply (Eval_effect (BinaryExpr "+" op_add (VarExpr "A%") (ValueExpr (VInt 2)))
                     loaded_state (Some (VInt 3)) loaded_state).
  reflexivity.
Defined.

(** *** The tag of a variable *)

Lemma PrintStmt_loop_vars (exprs : list Expr) (i : nat) (b : Basic) (ok : bool) (b' : Basic) :
  PrintStmt_loop i exprs b = Ok (ok, b') -> Vars b' = Vars b.
Proof.
  revert i b. induction exprs as [|e rest IH]; intros i b; cbn [PrintStmt_loop].
  - intros [= _ <-]. reflexivity.
  - destruct (Eval e _) as [[val b1]| | |] eqn:E; try discriminate.
    apply Eval_store in E. destruct E as [Hv _]. cbn [rbind].
    assert (H1 : Vars b1 = Vars b) by (destruct (0 <? i)%nat; exact Hv).
    destruct val as [v|]; [|intros [= _ <-]; exact H1].
    intros H. apply IH in H. cbn [Vars out] in H. congruence.
Qed.

Lemma Execute_keeps_tags (st : Stmt) (b : Basic) (line : Z) (stk : list Ctx)
        (next : Z) (stk' : list Ctx) (b' : Basic) :
  typed (Vars b) ->
  Execute st b line stk = Ok (next, stk', b') ->
  typed (Vars b').
Proof.
  revert b.
  induction st as [|target| |target|text|var e|exprs|test thn els IHthn IHels|test number]
    using Stmt_induction; intros b Ht; cbn [Execute].
  - intros [= _ _ <-]. exact Ht.
  - intros [= _ _ <-]. exact Ht.
  - destruct (unwind (rev stk)) as [[nx|] below]; intros [= _ _ <-]; exact Ht.
  - intros [= _ _ <-]. exact Ht.
  - intros [= _ _ <-]. exact Ht.
  - destruct (Eval e b) as [[val b1]| | |] eqn:E; try discriminate.
    apply Eval_store in E. destruct E as [Hv _]. cbn [rbind].
    assert (Ht1 : typed (Vars b1)) by (rewrite Hv; exact Ht).
    destruct val as [v|]; [|intros [= _ _ <-]; exact Ht1].
    destruct (last_rune var) as [c|] eqn:Hc; [|discriminate].
    destruct (is_rune "$" c) eqn:H1; [|destruct (is_rune "%" c) eqn:H2; [|discriminate]];
      destruct v; intros [= _ _ <-]; try exact Ht1;
      cbn [Vars set_Vars]; apply map_Forall_insert_2; try exact Ht1;
      unfold tag_ok; rewrite Hc, ?H1, ?H2; reflexivity.
  - destruct (PrintStmt_loop 0 exprs b) as [[ok b1]| | |] eqn:E; try discriminate.
    apply PrintStmt_loop_vars in E. cbn [rbind].
    destruct ok; intros [= _ _ <-]; cbn [Vars out]; rewrite E; exact Ht.
  - destruct (Eval_test test b) as [[val b1]| | |] eqn:E; try discriminate.
    apply Eval_test_store in E. destruct E as [Hv _]. cbn [rbind].
    assert (Ht1 : typed (Vars b1)) by (rewrite Hv; exact Ht).
    destruct val as [[|]|]; [| |intros [= _ _ <-]; exact Ht1].
    + destruct thn as [th|]; [|discriminate]. apply IHthn, Ht1.
    + destruct els as [el|]; [|intros [= _ _ <-]; exact Ht1]. apply IHels, Ht1.
  - destruct (Eval_test test b) as [[val b1]| | |] eqn:E; try discriminate.
    apply Eval_test_store in E. destruct E as [Hv _]. cbn [rbind].
    destruct val as [[|]|]; intros [= _ _ <-]; rewrite Hv; exact Ht.
Qed.

(** X8. Executing a statement keeps every variable under the tag of its name:
    a name in [$] holds a string and a name in [%] an integer, and there
    is no other variable. *)
Theorem Execute_typed (st : Stmt) (b : Basic) (line : Z) (stk : list Ctx)
        (next : Z) (stk' : list Ctx) (b' : Basic) :
  typed (Vars b) ->
  Execute st b line stk = Ok (next, stk', b') ->
  typed (Vars b').
Proof. apply Execute_keeps_tags. Qed.

Lemma Execute_typed_witness :
  typed (Vars (set_Vars (<["N%" := VInt 7]> (Vars loaded_state)) loaded_state)).
Proof.
  apply (Execute_typed (AssignStmt "N%" (ValueExpr (VInt 7))) loaded_state 10 []
                       11 [] _).
  - unfold typed, loaded_state. cbn [Vars].
    apply map_Forall_singleton. reflexivity.
  - reflexivity.
Defined.

(** *** The run *)

Lemma Run_loop_frame (fuel : nat) (line : Z) (stk : list Ctx) (b b' : Basic) :
  Run_loop fuel line stk b = Ok b' ->
  Code b' = Code b /\ Files b' = Files b /\ (typed (Vars b) -> typed (Vars b')).
Proof.
  revert line stk b. induction fuel as [|fuel IH]; intros line stk b; [discriminate|].
  cbn [Run_loop]. destruct (Number (fetch (Code b) line) =? 0).
  - intros [= <-]. repeat split. tauto.
  - destruct (Stmt_ (fetch (Code b) line)) as [st|]; [|discriminate].
    cbn [Execute_iface].
    destruct (Execute st b _ stk) as [[[next stk1] b1]| | |] eqn:E; try discriminate.
    cbn [rbind]. pose proof (Execute_program _ _ _ _ _ _ _ E) as [Hc Hf].
    pose proof (fun Ht => Execute_keeps_tags _ _ _ _ _ _ _ Ht E) as Ht1.
    destruct (next <=? 0).
    + intros [= <-]. repeat split; assumption.
    + intros H. apply IH in H. destruct H as (Hc' & Hf' & Ht').
      repeat split; [congruence|congruence|auto].
Qed.

(** X9. A run changes neither the stored lines nor the files, and keeps the
    variables under their tags. *)
Theorem Run_loop_keeps (fuel : nat) (line : Z) (stk : list Ctx) (b b' : Basic) :
  Run_loop fuel line stk b = Ok b' ->
  Code b' = Code b /\ Files b' = Files b /\ (typed (Vars b) -> typed (Vars b')).
Proof. apply Run_loop_frame. Qed.

Lemma Run_loop_keeps_witness :
  Code (out (ln "2") goto_state) = Code goto_state
  /\ Files (out (ln "2") goto_state) = Files goto_state
  /\ (typed (Vars goto_state) -> typed (Vars (out (ln "2") goto_state))).
Proof.
  apply (Run_loop_keeps 5 0 [] goto_state). reflexivity.
Defined.

(** *** GOSUB and RETURN *)

(** X11. GOSUB followed by RETURN: the stack is the one of before the GOSUB
    and the next line is the one after the line of the GOSUB. *)
Theorem GoSub_Return (b b' : Basic) (line line' target : Z) (stk : list Ctx) :
  Execute (GoSubStmt target) b line stk = Ok (target, stk ++ [mkCtx GoSubCtx line], b)
  /\ Execute ReturnStmt b' line' (stk ++ [mkCtx GoSubCtx line])
     = Ok (Int.add line 1, stk, b').
Proof.
  split; [reflexivity|].
  cbn [Execute]. rewrite rev_app_distr. cbn [rev app unwind Ctx_Type Ctx_Number].
  change (GoSubCtx =? GoSubCtx) with true. cbv iota.
  rewrite rev_involutive. reflexivity.
Qed.

(** *** PRINT *)

Lemma out_out (a c : string) (b : Basic) : out c (out a b) = out (a +:+ c) b.
Proof. unfold out. cbn. rewrite append_assoc. reflexivity. Qed.

Lemma Eval_out (e : Expr) (text : string) (b : Basic) :
  Eval e (out text b) = rmap (fun '(r, b') => (r, out text b')) (Eval e b).
Proof.
  revert b. induction e as [val|name|e1 IH1|name op l IHl r IHr]; intros b; cbn [Eval].
  - reflexivity.
  - cbn [Vars out]. destruct (Vars b !! name); reflexivity.
  - rewrite IH1. destruct (Eval e1 b) as [[val b1]| | |]; try reflexivity.
    destruct val as [[z|str|bo]|]; reflexivity.
  - rewrite IHl. destruct (Eval l b) as [[val1 b1]| | |]; try reflexivity.
    cbn [rmap rbind]. destruct val1 as [v1|]; [|reflexivity].
    rewrite IHr. destruct (Eval r b1) as [[val2 b2]| | |]; try reflexivity.
    cbn [rmap rbind]. destruct val2 as [v2|]; [|reflexivity].
    destruct v1 as [n1|s1|b0]; [| |reflexivity].
    + destruct (IntegerFunc op) as [f|]; [|reflexivity].
      destruct v2; try reflexivity. destruct (f n1 v); reflexivity.
    + destruct (StringFunc op) as [f|]; [|reflexivity].
      destruct v2; try reflexivity. destruct (f s1 v); reflexivity.
Qed.

Lemma PrintStmt_loop_values (exprs : list Expr) (vals : list Value) (b : Basic)
      (i : nat) (text : string) :
  Forall2 (fun e v => Eval e b = Ok (Some v, b)) exprs vals ->
  PrintStmt_loop i exprs (out text b)
  = Ok (true, out (text +:+ (if (0 <? i)%nat then
                              match vals with [] => "" | _ => ", " end
                            else "") +:+ joined vals) b).
Proof.
  intros H. revert i text. induction H as [|e v exprs vals He Hrest IH]; intros i text.
  - cbn [PrintStmt_loop joined]. destruct (0 <? i)%nat; rewrite !append_empty_r; reflexivity.
  - cbn [PrintStmt_loop].
    assert (Hstep : forall t, Eval e (out t b) = Ok (Some v, out t b))
      by (intros t; rewrite Eval_out, He; reflexivity).
    destruct (0 <? i)%nat eqn:Hi.
    + rewrite out_out, Hstep. cbn [rbind]. rewrite out_out, IH.
      change (0 <? S i)%nat with true. cbv iota.
      destruct vals as [|v2 vals]; cbn [joined];
        rewrite ?append_empty_r, ?append_assoc; reflexivity.
    + rewrite Hstep. cbn [rbind]. rewrite out_out, IH.
      change (0 <? S i)%nat with true. cbv iota.
      destruct vals as [|v2 vals]; cbn [joined];
        rewrite ?append_empty_r, ?append_assoc; reflexivity.
Qed.

(** X12. PRINT of expressions that have values writes the values in order,
    with a comma and a blank between two of them, and ends the line; the
    next line is the one after. *)
Theorem PrintStmt_output (exprs : list Expr) (vals : list Value) (b : Basic)
        (line : Z) (stk : list Ctx) :
  Forall2 (fun e v => Eval e b = Ok (Some v, b)) exprs vals ->
  Execute (PrintStmt exprs) b line stk
  = Ok (Int.add line 1, stk, out (joined vals +:+ nl) b).
Proof.
  intros H. cbn [Execute].
  assert (Hb : b = out "" b)
    by (destruct b; unfold out; cbn; rewrite append_empty_r; reflexivity).
  rewrite Hb at 1. rewrite (PrintStmt_loop_values exprs vals b 0 "" H).
  cbn [rbind]. rewrite out_out. reflexivity.
Qed.

Lemma PrintStmt_output_witness :
  Execute (PrintStmt [VarExpr "A%"; ValueExpr (VStr "x"); ValueExpr (VInt 3)])
          loaded_state 30 []
  = Ok (Int.add 30 1, [],
        out (joined [VInt 1; VStr "x"; VInt 3] +:+ nl) loaded_state).
Proof.
  apply (PrintStmt_output [VarExpr "A%"; ValueExpr (VStr "x"); ValueExpr (VInt 3)]
                          [VInt 1; VStr "x"; VInt 3] loaded_state 30 []).
  repeat constructor.
Defined.

(** ** What every reachable state satisfies *)

Lemma inv_same_store (b b' : Basic) : same_store b b' -> inv b -> inv b'.
Proof. intros (Hv & Hc & _) [Hs Ht]. unfold inv. rewrite Hv, Hc. split; assumption. Qed.

Lemma keeps_frame {A} (m : M A) : frame m -> keeps m.
Proof. intros Hf b tr a b' tr' H. eapply inv_same_store, Hf, H. Qed.

Lemma keeps_mret {A} (a : A) : keeps (mret a).
Proof. apply keeps_frame, frame_mret. Qed.

Lemma keeps_mbind {A B} (m : M A) (k : A -> M B) :
  keeps m -> (forall a, keeps (k a)) -> keeps (mbind m k).
Proof.
  intros Hm Hk b tr x b' tr'. unfold mbind.
  destruct (m b tr) as [[[a b1] tr1]| | |] eqn:E; try discriminate.
  intros H Hi. eapply Hk; [exact H|]. eapply Hm; [exact E|exact Hi].
Qed.

Lemma keeps_update (f : Basic -> Basic) :
  (forall b, inv b -> inv (f b)) -> keeps (update f).
Proof. intros Hf b tr a b' tr' [= _ <- _]. apply Hf. Qed.

Lemma keeps_lift (f : Basic -> res Basic) :
  (forall b b', f b = Ok b' -> inv b -> inv b') -> keeps (lift f).
Proof.
  intros Hf b tr a b' tr'. unfold lift.
  destruct (f b) as [b1| | |] eqn:E; try discriminate.
  intros [= _ <- _]. eapply Hf, E.
Qed.

Lemma frame_readRangeM (opt : bool) : frame (readRangeM opt).
Proof.
  intros b tr a b' tr'. unfold readRangeM.
  destruct (readRange opt tr) as [[[[strt end_] ok] tr1]| | |]; try discriminate.
  intros [= _ <- _]. apply same_store_refl.
Qed.

Lemma inv_out (text : string) (b : Basic) : inv b -> inv (out text b).
Proof. intros [Hs Ht]. split; assumption. Qed.

Lemma inv_New (b : Basic) : inv (New b).
Proof. split; [constructor|apply map_Forall_empty]. Qed.

Lemma inv_ReplaceOrInsert (item : Line) (b : Basic) :
  inv b -> inv (set_Code (ReplaceOrInsert item (Code b)) b).
Proof. intros [Hs Ht]. split; [apply ReplaceOrInsert_sorted, Hs|exact Ht]. Qed.

Lemma inv_Delete (item : Line) (b : Basic) :
  inv b -> inv (set_Code (Delete item (Code b)) b).
Proof. intros [Hs Ht]. split; [apply Delete_sorted, Hs|exact Ht]. Qed.

Lemma inv_delete_lines (lines : list Line) (b : Basic) :
  inv b -> inv (set_Code (fold_left (fun c line => Delete line c) lines (Code b)) b).
Proof. intros [Hs Ht]. split; [apply fold_Delete, Hs|exact Ht]. Qed.

Lemma Load_loop_inv (fuel : nat) (b : Basic) (tr : TokenReader) (done : bool) (b' : Basic) :
  Load_loop fuel b tr = Ok (done, b') -> inv b -> inv b'.
Proof.
  revert b tr. induction fuel as [|fuel IH]; intros b tr; [discriminate|].
  cbn [Load_loop].
  destruct (skip_blank (R tr)) as [l|]; [|intros [= _ <-]; tauto].
  destruct (ReadToken (set_R l tr)) as [[[[tk v] text] tr1]| | |]; try discriminate.
  destruct (Token_eqb tk IntegerToken).
  - destruct (CompileStatement fuel true b tr1) as [[[[stmt ok] b2] tr2]| | |] eqn:E;
      try discriminate.
    apply CompileStatement_frame in E. destruct ok.
    + intros H Hi. eapply IH; [exact H|].
      apply inv_ReplaceOrInsert. eapply inv_same_store; eassumption.
    + intros [= _ <-]. apply inv_same_store, E.
  - destruct (Error fuel _ b tr1) as [[[u b2] tr2]| | |] eqn:E; try discriminate.
    apply frame_Error in E. intros [= _ <-]. apply inv_same_store, E.
Qed.

Lemma Load_inv (fuel : nat) (fn : string) (b : Basic) (done : bool) (b' : Basic) :
  Load fuel fn b = Ok (done, b') -> inv b -> inv b'.
Proof.
  unfold Load. destruct (Files b !! fn) as [content|].
  - destruct (Load_loop fuel (New b) (reader content)) as [[d b1]| | |] eqn:E;
      try discriminate.
    cbn [rbind]. destruct d; intros [= _ <-] Hi.
    + eapply Load_loop_inv; [exact E|apply inv_New].
    + exact Hi.
  - intros [= _ <-]. apply inv_same_store, same_store_err.
Qed.

Lemma Save_inv (fn : string) (b b' : Basic) : Save fn b = Ok b' -> inv b -> inv b'.
Proof.
  unfold Save. destruct (String.eqb fn "").
  - intros [= <-]. apply inv_same_store, same_store_err.
  - destruct (Ascend print_line (Code b) (Ok "")); try discriminate.
    intros [= <-]. tauto.
Qed.

Lemma Run_inv (fuel : nat) (b b' : Basic) : Run fuel b = Ok b' -> inv b -> inv b'.
Proof.
  intros H [Hs Ht]. apply Run_loop_frame in H. destruct H as (Hc & _ & Ht').
  split; [rewrite Hc; exact Hs|apply Ht', Ht].
Qed.

Lemma immediate_inv (st : option Stmt) (b b' : Basic) :
  rbind (Execute_iface st b 0 []) (fun '(_, _, b') => Ok b') = Ok b' -> inv b -> inv b'.
Proof.
  destruct st as [st|]; [|discriminate]. cbn [Execute_iface].
  destruct (Execute st b 0 []) as [[[next stk] b1]| | |] eqn:E; try discriminate.
  intros [= <-] [Hs Ht]. split.
  - apply Execute_program in E. destruct E as [Hc _]. rewrite Hc. exact Hs.
  - eapply Execute_keeps_tags; eassumption.
Qed.

Ltac keeps_step :=
  cbv beta;
  match goal with
  | |- keeps (mbind _ _) => apply keeps_mbind; [|intros ?]
  | |- keeps (mret _) => apply keeps_mret
  | |- keeps (match ?x with _ => _ end) => destruct x
  | |- keeps (Error _ _) => apply keeps_frame, frame_Error
  | |- keeps readT => apply keeps_frame, frame_readT
  | |- keeps (readRangeM _) => apply keeps_frame, frame_readRangeM
  | |- keeps (CompileStatement _ _) => apply keeps_frame, CompileStatement_frame
  | |- keeps (CompileKeyword _ _ _) => apply keeps_frame, CompileKeyword_frame
  end.

Lemma Program_line_keeps (fuel : nat) : keeps (Program_line fuel).
Proof.
  unfold Program_line, no_arguments, one_string, immediate.
  repeat keeps_step.
  - apply keeps_update. intros st0. apply inv_ReplaceOrInsert.
  - apply keeps_update. intros st0. apply inv_Delete.
  - apply keeps_update. intros st0. apply inv_delete_lines.
  - apply keeps_update. intros st0. apply inv_out.
  - apply keeps_lift. intros st0 st1.
    destruct (AscendGreaterOrEqual _ _ _ _); try discriminate.
    intros [= <-]. apply inv_out.
  - apply keeps_lift. intros st0 st1.
    destruct (Load fuel _ st0) as [[d b1]| | |] eqn:E; try discriminate.
    intros [= <-]. eapply Load_inv, E.
  - apply keeps_update. intros st0 _. apply inv_New.
  - apply keeps_lift. apply Run_inv.
  - apply keeps_lift. apply Save_inv.
  - apply keeps_lift. apply immediate_inv.
Qed.

Lemma Program_keeps (fuel : nat) (b b' : Basic) (tr : TokenReader) :
  Program fuel b tr = Ok b' -> inv b -> inv b'.
Proof.
  revert b tr. induction fuel as [|fuel IH]; intros b tr; [discriminate|].
  cbn [Program]. destruct (skip_blank (R tr)) as [l|]; [|intros [= <-]; tauto].
  destruct (Program_line fuel b (set_R l tr)) as [[[[|] b1] tr1]| | |] eqn:E;
    try discriminate.
  - intros [= <-]. eapply Program_line_keeps, E.
  - intros H Hi. eapply IH; [exact H|]. eapply Program_line_keeps; eassumption.
Qed.

(** X10. Whatever is typed at the command loop, the stored lines stay in
    ascending order without a number twice, and every variable keeps the
    tag of its name: so it is in every state that a session reaches. *)
Theorem Program_invariant (fuel : nat) (b b' : Basic) (tr : TokenReader) :
  Program fuel b tr = Ok b' -> inv b -> inv b'.
Proof. apply Program_keeps. Qed.

Lemma Program_invariant_witness :
  inv (mkBasic {[ "A%" := VInt 1 ]}
               [mkLine 10 (Some (GotoStmt 10)); mkLine 15 (Some ReturnStmt)]
               "" ""
               (Files loaded_state)).
Proof.
  apply (Program_invariant 10 loaded_state _
           (reader ("20 end" +:+ nl +:+ "15 return" +:+ nl +:+ "delete 20" +:+ nl))).
  - reflexivity.
  - split.
    + unfold sorted, loaded_state. cbn [Code].
      repeat (constructor; cbn [Number]; try lia).
    + unfold typed, loaded_state. cbn [Vars]. apply map_Forall_singleton. reflexivity.
Defined.

(** A session starts from a state that satisfies the invariant. *)
Lemma session_invariant (fuel : nat) (fs : gmap string string) (input : string) (b : Basic) :
  session fuel fs input = Ok b -> inv b.
Proof.
  intros H. eapply Program_keeps; [exact H|].
  split; [constructor|apply map_Forall_empty].
Qed.

(** ** Compile errors *)

Lemma drain_AtEOL (fuel : nat) (tr tr' : TokenReader) :
  drain fuel tr = Ok tr' -> AtEOL tr' = true.
Proof.
  revert tr. induction fuel as [|fuel IH]; intros tr; cbn [drain];
    destruct (AtEOL tr) eqn:E; try discriminate; try (intros [= <-]; exact E).
  destruct (ReadToken tr) as [[tk tr1]| | |]; try discriminate. cbn [rbind]. apply IH.
Qed.

Lemma tidy_mret {A} (ok : A -> bool) (a : A) : ok a = true -> tidy ok (mret a).
Proof. intros H b tr a' b' tr' [= <- <- _]. rewrite H. reflexivity. Qed.

Lemma tidy_never {A} (ok : A -> bool) (m : M A) :
  (forall b tr a b' tr', m b tr <> Ok (a, b', tr')) -> tidy ok m.
Proof. intros H b tr a b' tr' E. destruct (H _ _ _ _ _ E). Qed.

Lemma tidy_fail {A} (ok : A -> bool) (fuel : nat) (msg : string) (x : A) :
  ok x = false -> tidy ok (mbind (Error fuel msg) (fun _ => mret x)).
Proof.
  intros H b tr a b' tr'. unfold mbind, Error.
  destruct (drain fuel tr) as [tr1| | |] eqn:E; try discriminate.
  cbn [rbind]. intros [= <- <- <-]. rewrite H.
  split; [eapply drain_AtEOL, E|eexists; reflexivity].
Qed.

Lemma tidy_bind {A B} (okA : A -> bool) (okB : B -> bool) (m : M A) (k : A -> M B) :
  tidy okA m ->
  (forall a, okA a = true -> tidy okB (k a)) ->
  (forall a, okA a = false -> exists x, okB x = false /\ k a = mret x) ->
  tidy okB (mbind m k).
Proof.
  intros Hm Hok Hfail b tr y b' tr'. unfold mbind.
  destruct (m b tr) as [[[a b1] tr1]| | |] eqn:E; try discriminate.
  specialize (Hm _ _ _ _ _ E). destruct (okA a) eqn:Ha.
  - subst b1. apply Hok, Ha.
  - destruct (Hfail a Ha) as (x & Hx & ->). intros [= <- <- <-]. rewrite Hx. exact Hm.
Qed.

Lemma tidy_readT : tidy always readT.
Proof.
  intros b tr a b' tr'. unfold readT.
  destruct (ReadToken tr) as [[tk tr1]| | |]; try discriminate.
  intros [= _ <- _]. reflexivity.
Qed.

Lemma tidy_peekT : tidy always peekT.
Proof.
  intros b tr a b' tr'. unfold peekT.
  destruct (PeekToken tr) as [[tk tr1]| | |]; try discriminate.
  intros [= _ <- _]. reflexivity.
Qed.

Lemma tidy_readRem : tidy always readRem.
Proof.
  intros b tr a b' tr'. unfold readRem.
  destruct (read_rem "" (R tr)) as [[text rest]| | |]; try discriminate.
  intros [= _ <- _]. reflexivity.
Qed.

(** A step that cannot fail, followed by the rest. *)
Lemma tidy_then {A B} (okB : B -> bool) (m : M A) (k : A -> M B) :
  tidy always m -> (forall a, tidy okB (k a)) -> tidy okB (mbind m k).
Proof.
  intros Hm Hk. apply (tidy_bind always okB); [exact Hm|intros a _; apply Hk|].
  intros a Ha. discriminate Ha.
Qed.

Ltac tidy_fails :=
  let a := fresh "a" in
  let Ha := fresh "Ha" in
  intros a Ha;
  repeat match goal with
         | x : option _ |- _ => destruct x
         | x : (_ * _)%type |- _ => destruct x
         | x : bool |- _ => destruct x
         end;
  try discriminate Ha; eexists; (split; [|cbv beta iota; reflexivity]); reflexivity.

Ltac tidy_step :=
  cbv beta;
  match goal with
  | |- tidy _ (mbind (Error _ _) _) => apply tidy_fail; reflexivity
  | |- tidy _ (mbind readT _) => apply (tidy_then _ _ _ tidy_readT); intros ?
  | |- tidy _ (mbind peekT _) => apply (tidy_then _ _ _ tidy_peekT); intros ?
  | |- tidy _ (mbind readRem _) => apply (tidy_then _ _ _ tidy_readRem); intros ?
  | |- tidy _ (mret _) => apply tidy_mret; reflexivity
  | |- tidy _ no_fuel => apply tidy_never; discriminate
  | |- tidy _ (fun _ _ => Panic) => apply tidy_never; discriminate
  | |- tidy _ (match ?x with _ => _ end) => destruct x
  end.

Lemma CompileExpr_tidy (fuel : nat) : tidy is_some (CompileExpr fuel).
Proof.
  induction fuel as [|fuel IH]; [apply tidy_never; discriminate|].
  cbn [CompileExpr]. tidy_step. repeat tidy_step.
  apply (tidy_bind is_some is_some); [| |tidy_fails].
  - repeat tidy_step;
      (apply (tidy_bind is_some is_some); [exact IH| |tidy_fails]);
      intros [e|] He; try discriminate He; repeat tidy_step.
  - intros [e|] He; [|discriminate He]. repeat tidy_step.
    apply (tidy_bind is_some is_some); [exact IH| |tidy_fails].
    intros [e2|] He2; [|discriminate He2]. repeat tidy_step.
Qed.

Lemma CompilePrint_tidy (fuel : nat) (acc : list Expr) : tidy is_some (CompilePrint fuel acc).
Proof.
  revert acc. induction fuel as [|fuel IH]; intros acc; [apply tidy_never; discriminate|].
  cbn [CompilePrint].
  apply (tidy_bind is_some is_some); [apply CompileExpr_tidy| |tidy_fails].
  intros [e|] He; [|discriminate He]. repeat tidy_step. apply IH.
Qed.

Lemma line_number_for_tidy (fuel : nat) (what : string) (mk : Z -> Stmt) :
  tidy is_some (line_number_for fuel what mk).
Proof. unfold line_number_for. repeat tidy_step. Qed.

Lemma CompileStatement_with_tidy (ck : string -> bool -> M compiled) (fuel : nat) (full : bool) :
  (forall kw full', tidy snd (ck kw full')) -> tidy snd (CompileStatement_with ck fuel full).
Proof. intros H. unfold CompileStatement_with. repeat tidy_step. apply H. Qed.

Lemma CompileKeyword_tidy (fuel : nat) (kw : string) (full : bool) :
  tidy snd (CompileKeyword fuel kw full).
Proof.
  revert kw full. induction fuel as [|fuel IH]; intros kw full;
    [apply tidy_never; discriminate|].
  cbn [CompileKeyword].
  pose proof (fun full' => CompileStatement_with_tidy _ fuel full' IH) as Hst.
  apply (tidy_bind is_some snd); [| |tidy_fails].
  - repeat tidy_step; try apply line_number_for_tidy.
    + apply (tidy_bind is_some is_some); [apply CompileExpr_tidy| |tidy_fails].
      intros [e|] He; [|discriminate He]. repeat tidy_step.
      * apply (tidy_bind snd is_some); [apply Hst| |tidy_fails].
        intros [thn []] Hok; [|discriminate Hok]. cbn [negb]. repeat tidy_step.
        apply (tidy_bind snd is_some); [apply Hst| |tidy_fails].
        intros [els []] Hok2; [|discriminate Hok2]. cbn [negb]. repeat tidy_step.
      * apply line_number_for_tidy.
    + apply (tidy_bind is_some is_some); [apply CompilePrint_tidy| |tidy_fails].
      intros [exprs|] He; [|discriminate He]. repeat tidy_step.
    + apply (tidy_bind is_some is_some); [apply CompileExpr_tidy| |tidy_fails].
      intros [e|] He; [|discriminate He]. repeat tidy_step.
  - intros [stmt|] Hs; [|discriminate Hs]. repeat tidy_step.
Qed.

(** X13. A statement that compiles leaves the state as it was; one that does
    not compile adds one message to [ErrW] and nothing else, and leaves
    the reader at the end of its line, so that the next line is read from
    its start. *)
Theorem CompileStatement_tidy (fuel : nat) (full : bool) (b b' : Basic)
        (tr tr' : TokenReader) (st : option Stmt) (ok : bool) :
  CompileStatement fuel full b tr = Ok ((st, ok), b', tr') ->
  if ok then b' = b
  else AtEOL tr' = true /\ exists msg, b' = err (ln msg) b.
Proof.
  intros H.
  apply (CompileStatement_with_tidy _ fuel full (CompileKeyword_tidy fuel) b tr (st, ok) b' tr' H).
Qed.

Lemma CompileStatement_tidy_witness :
  AtEOL (mkTR (list_ascii_of_string ("20 end" +:+ nl)) true false EndOfLine 0 "") = true
  /\ exists msg,
      err (ln "basic: error: too many argument to keyword: GOTO") (NewBasic ∅)
      = err (ln msg) (NewBasic ∅).
Proof.
  apply (CompileStatement_tidy 10 true (NewBasic ∅) _
           (reader ("goto 10 + 1 2" +:+ nl +:+ "20 end" +:+ nl)) _ None false).
  reflexivity.
Defined.

(** ** Programs without jumps *)

Lemma sequential_next (st : option Stmt) (b : Basic) (line : Z) (stk : list Ctx)
      (next : Z) (stk' : list Ctx) (b' : Basic) :
  sequential st = true ->
  Execute_iface st b line stk = Ok (next, stk', b') ->
  stk' = stk /\ (next = Int.add line 1 \/ next = -1).
Proof.
  destruct st as [[|target| |target|text|var e|exprs|test thn els|test number]|];
    try discriminate; intros _; cbn [Execute_iface Execute].
  - intros [= <- <- _]. auto.
  - destruct (Eval e b) as [[val b1]| | |]; try discriminate. cbn [rbind].
    destruct val as [v|]; [|intros [= <- <- _]; auto].
    destruct (last_rune var) as [c|]; [|discriminate].
    destruct (is_rune "$" c); [|destruct (is_rune "%" c); [|discriminate]];
      destruct v; intros [= <- <- _]; auto.
  - destruct (PrintStmt_loop 0 exprs b) as [[ok b1]| | |]; try discriminate. cbn [rbind].
    destruct ok; intros [= <- <- _]; auto.
Qed.

Lemma fetch_head (x : Line) (rest : list Line) (line : Z) :
  line <= Number x -> fetch (x :: rest) line = x.
Proof.
  intros H. unfold fetch, AscendGreaterOrEqual. cbn [from_pivot]. unfold Less. cbn [Number].
  replace (Number x <? line) with false by lia. reflexivity.
Qed.

Lemma fetch_skip (x : Line) (rest : list Line) (line : Z) :
  Number x < line -> fetch (x :: rest) line = fetch rest line.
Proof.
  intros H. unfold fetch, AscendGreaterOrEqual. cbn [from_pivot]. unfold Less. cbn [Number].
  replace (Number x <? line) with true by lia. reflexivity.
Qed.

(** The loop of [Run] over the lines [lines] that are still ahead, the
    store holding lines before them as well. *)
Lemma Run_loop_in_order (lines : list Line) :
  forall (before : list Line) (fuel : nat) (line : Z) (b : Basic),
    Code b = before ++ lines ->
    (forall l, In l before -> Number l < line) ->
    sorted lines ->
    (forall l, In l lines ->
               line <= Number l /\ 0 < Number l < Int.MaxInt /\ sequential (Stmt_ l) = true) ->
    (length lines < fuel)%nat ->
    Run_loop fuel line [] b = in_order lines b.
Proof.
  induction lines as [|x rest IH]; intros before fuel line b Hcode Hbefore Hs Hall Hfuel;
    (destruct fuel as [|fuel]; [cbn [length] in Hfuel; lia|]).
  - cbn [Run_loop in_order]. rewrite Hcode, app_nil_r.
    rewrite fetch_none by exact Hbefore. reflexivity.
  - cbn [length] in Hfuel. apply sorted_inv in Hs. destruct Hs as [Hrest Hlt].
    destruct (Hall x (or_introl eq_refl)) as (Hge & Hrange & Hseq).
    assert (Hfetch : fetch (Code b) line = x).
    { rewrite Hcode. clear Hcode. induction before as [|y before IHb].
      - apply fetch_head, Hge.
      - cbn [app]. rewrite fetch_skip by (apply Hbefore; left; reflexivity).
        apply IHb. intros l Hl. apply Hbefore. right. exact Hl. }
    cbn [Run_loop in_order]. rewrite Hfetch.
    replace (Number x =? 0) with false by lia.
    destruct (Execute_iface (Stmt_ x) b (Number x) []) as [[[next stk1] b1]| | |] eqn:E;
      try reflexivity.
    cbn [rbind].
    destruct (sequential_next _ _ _ _ _ _ _ Hseq E) as [-> [-> | ->]]; [|reflexivity].
    assert (Hnext : Int.add (Number x) 1 = Number x + 1).
    { apply wrap_in_range. unfold Int.in_range, Int.MinInt, Int.MaxInt in *. lia. }
    rewrite Hnext. replace (Number x + 1 <=? 0) with false by lia.
    apply (IH (before ++ [x])).
    + destruct (Stmt_ x) as [st|]; [|discriminate Hseq]. cbn [Execute_iface] in E.
      apply Execute_program in E. destruct E as [Hc _].
      rewrite Hc, Hcode, <- app_assoc. reflexivity.
    + intros l Hl. apply in_app_or in Hl. destruct Hl as [Hl|[<-|[]]]; [|lia].
      specialize (Hbefore l Hl). lia.
    + exact Hrest.
    + intros l Hl. destruct (Hall l (or_intror Hl)) as (_ & Hr & Hq).
      specialize (Hlt l Hl). repeat split; try assumption; lia.
    + lia.
Qed.

(** X14. RUN of a program of remarks, assignments and PRINTs, with line numbers
    between 1 and the largest int but one, executes the lines once each in
    ascending order of their numbers, up to the first line that fails, and
    then ends. *)
Theorem Run_in_order (fuel : nat) (b : Basic) :
  sorted (Code b) ->
  (forall l, In l (Code b) ->
             0 < Number l < Int.MaxInt /\ sequential (Stmt_ l) = true) ->
  (length (Code b) < fuel)%nat ->
  Run fuel b = in_order (Code b) b.
Proof.
  intros Hs Hall Hfuel. unfold Run.
  apply (Run_loop_in_order (Code b) []); try assumption.
  - reflexivity.
  - intros l [].
  - intros l Hl. destruct (Hall l Hl) as [Hr Hq]. repeat split; try assumption; lia.
Qed.

Lemma Run_in_order_witness :
  Run 5 counting_state = in_order (Code counting_state) counting_state
  /\ rmap (fun b => (W b, ErrW b)) (Run 5 counting_state)
     = Ok (ln "1", ln "basic: error: variable not found: M%").
Proof.
  split; [|reflexivity].
  apply (Run_in_order 5 counting_state).
  - unfold sorted, counting_state. cbn [Code].
    repeat (constructor; cbn [Number]; try lia).
  - intros l Hl. cbn in Hl.
    destruct Hl as [<-|[<-|[<-|[<-|[]]]]]; cbn [Number Stmt_ sequential];
      unfold Int.MaxInt; split; (lia || reflexivity).
  - cbn. lia.
Defined.

(** ** Remarks *)

Lemma read_rem_text (v : list rune) (acc : string) (more : list rune) :
  no_newline v = true ->
  read_rem acc (v ++ newline :: more)
  = Ok (acc +:+ string_of_list_ascii v, newline :: more).
Proof.
  revert acc. induction v as [|ch v IH]; intros acc Hv.
  - cbn [app read_rem]. change (is_rune newline newline) with true. cbv iota.
    cbn [string_of_list_ascii]. rewrite append_empty_r. reflexivity.
  - cbn [no_newline forallb] in Hv. apply andb_prop in Hv. destruct Hv as [Hch Hv].
    apply negb_true_iff in Hch.
    cbn [app read_rem]. rewrite Hch. rewrite IH by exact Hv.
    unfold snoc. rewrite append_assoc. reflexivity.
Qed.

Lemma CompileStatement_keyword (fuel : nat) (full : bool) (b : Basic) (l rest : list rune)
      (eol eol' : bool) (t0 : Token) (n0 : Z) (s0 kw : string) :
  scan l = Ok ((KeywordToken, 0, kw), eol', rest) ->
  CompileStatement fuel full b (mkTR l eol false t0 n0 s0)
  = CompileKeyword fuel kw full b (mkTR rest eol' false t0 n0 s0).
Proof.
  intros H. unfold CompileStatement, CompileStatement_with, mbind, readT, ReadToken.
  cbn [peeked R]. rewrite H. reflexivity.
Qed.

Lemma end_of_statement_newline (fuel : nat) (kw : string) (stmt : option Stmt) (b : Basic)
      (rest : list rune) (eol : bool) (t0 : Token) (n0 : Z) (s0 : string) :
  end_of_statement fuel kw stmt b (mkTR (newline :: rest) eol false t0 n0 s0)
  = Ok ((stmt, true), b, mkTR rest true false t0 n0 s0).
Proof. reflexivity. Qed.

Lemma end_of_statement_peeked (fuel : nat) (kw : string) (stmt : option Stmt) (b : Basic)
      (rest : list rune) :
  end_of_statement fuel kw stmt b (mkTR rest true true EndOfLine 0 "")
  = Ok ((stmt, true), b, mkTR rest true false EndOfLine 0 "").
Proof. reflexivity. Qed.

(** The comparisons of [kw] with the keywords, for a known [kw]. *)
Lemma CompileKeyword_REM (fuel : nat) (b : Basic) (tr : TokenReader) :
  CompileKeyword (S fuel) "REM" true b tr
  = mbind readRem (fun text => end_of_statement fuel "REM" (Some (RemStmt text))) b tr.
Proof.
  switch_on_keyword. unfold mbind, readRem, end_of_statement.
  destruct (read_rem "" (R tr)) as [[text rest]| | |]; reflexivity.
Qed.

(** X15. A remark is rendered with a blank after REM, and the remark compiled
    from the rendering holds that blank too: each rendering and compiling
    puts one more blank before the text. *)
Theorem RemStmt_gains_blank (text : string) (fuel : nat) :
  no_newline (list_ascii_of_string text) = true ->
  rbind (Stmt_Print (RemStmt text)) (fun p => compile (S (S fuel)) p)
  = Ok (Some (RemStmt (" " +:+ text)), true).
Proof.
  intros Hv. cbn [Stmt_Print rbind]. unfold compile, reader.
  rewrite !list_ascii_of_append.
  rewrite (CompileStatement_keyword _ _ _ _
             ((" "%char :: list_ascii_of_string text) ++ newline :: []) _ false _ _ _ "REM")
    by reflexivity.
  rewrite CompileKeyword_REM. unfold mbind, readRem. cbn [R].
  rewrite read_rem_text by exact Hv. cbn [rbind AtEOL peeked t n s].
  rewrite end_of_statement_newline. cbn [rbind].
  cbn [string_of_list_ascii]. rewrite string_of_list_ascii_of_string. reflexivity.
Qed.

Lemma RemStmt_gains_blank_witness :
  rbind (Stmt_Print (RemStmt " this is a comment")) (fun p => compile 2 p)
  = Ok (Some (RemStmt ("  this is a comment")), true).
Proof.
  apply (RemStmt_gains_blank " this is a comment" 0). reflexivity.
Defined.

(** ** Statements that are rendered and compiled back *)

(** *** Numbers as they are printed *)

Lemma uint_digits (d : Decimal.uint) :
  forallb is_digit (list_ascii_of_string (NilEmpty.string_of_uint d)) = true.
Proof.
  induction d as [|d IH|d IH|d IH|d IH|d IH|d IH|d IH|d IH|d IH|d IH];
    cbn [NilEmpty.string_of_uint list_ascii_of_string forallb]; [reflexivity|..];
    rewrite IH; reflexivity.
Qed.

Lemma fmt_d_uint (z : Z) :
  0 <= z ->
  exists d, fmt_d z = NilEmpty.string_of_uint d /\ d <> Decimal.Nil /\ uint_value d 0 = z.
Proof.
  intros Hz. unfold fmt_d. destruct z as [|p|p]; [| |lia].
  - exists (Decimal.D0 Decimal.Nil). repeat split. discriminate.
  - exists (Pos.to_uint p). cbn [Z.to_int NilZero.string_of_int].
    pose proof (to_uint_nonnil p) as Hnil. split; [|split; [exact Hnil|]].
    + unfold NilZero.string_of_uint. destruct (Pos.to_uint p); [contradiction|..]; reflexivity.
    + rewrite uint_value_of_uint, DecimalPos.Unsigned.of_to. reflexivity.
Qed.

Lemma fmt_d_digits (z : Z) :
  0 <= z ->
  nonempty (list_ascii_of_string (fmt_d z)) = true
  /\ forallb is_digit (list_ascii_of_string (fmt_d z)) = true.
Proof.
  intros Hz. destruct (fmt_d_uint z Hz) as (d & -> & Hnil & _).
  split; [|apply uint_digits]. destruct d; [contradiction|..]; reflexivity.
Qed.

(** *** Operands, chains and expressions in the form they are printed in *)

Lemma upper_is_letter (ch : rune) : is_upper ch = true -> is_letter ch = true.
Proof. unfold is_letter, is_upper. intros ->. reflexivity. Qed.

Lemma upper_fixed (ch : rune) : is_upper ch = true -> upper ch = ch.
Proof.
  destruct ch as [[] [] [] [] [] [] [] []]; vm_compute; intros H;
    first [discriminate H | reflexivity].
Qed.

Lemma suffix_fixed (ch : rune) : is_suffix ch = true -> upper ch = ch.
Proof.
  destruct ch as [[] [] [] [] [] [] [] []]; vm_compute; intros H;
    first [discriminate H | reflexivity].
Qed.

Lemma forallb_upper_letter (ls : list rune) :
  forallb is_upper ls = true -> forallb is_letter ls = true.
Proof.
  induction ls as [|l ls IH]; [reflexivity|]. cbn [forallb]. intros H.
  apply andb_prop in H. destruct H as [H1 H2].
  rewrite (upper_is_letter _ H1), IH by exact H2. reflexivity.
Qed.

Lemma ToUpper_upper (ls : list rune) (sfx : rune) :
  forallb is_upper ls = true -> is_suffix sfx = true ->
  ToUpper (string_of_list_ascii (ls ++ [sfx])) = string_of_list_ascii (ls ++ [sfx]).
Proof.
  intros Hls Hs. induction ls as [|l ls IH].
  - cbn. rewrite (suffix_fixed _ Hs). reflexivity.
  - cbn [forallb] in Hls. apply andb_prop in Hls. destruct Hls as [H1 H2].
    cbn [app string_of_list_ascii ToUpper]. rewrite (upper_fixed _ H1), IH by exact H2.
    reflexivity.
Qed.

Lemma atom_operand_ok (a : atom) : atom_ok a = true -> operand_ok (atom_operand a) = true.
Proof.
  destruct a as [z|ls sfx]; cbn [atom_ok atom_operand operand_ok]; intros H.
  - apply andb_prop in H. destruct H as [H0 _].
    destruct (fmt_d_digits z ltac:(lia)) as [-> ->]. reflexivity.
  - apply andb_prop in H. destruct H as [H Hs]. apply andb_prop in H. destruct H as [Hn Hu].
    rewrite Hn, (forallb_upper_letter _ Hu), Hs. reflexivity.
Qed.

Lemma digits_value_fmt_d (z : Z) :
  0 <= z <= Int.MaxInt -> digits_value (list_ascii_of_string (fmt_d z)) = z.
Proof.
  intros Hz. destruct (fmt_d_uint z ltac:(lia)) as (d & Hd & Hnil & Hval).
  pose proof (read_integer_digits (list_ascii_of_string (fmt_d z)) 0 newline []
                (proj2 (fmt_d_digits z ltac:(lia))) eq_refl) as H1.
  pose proof (read_integer_uint d 0 newline [] ltac:(lia) ltac:(rewrite Hval; lia) eq_refl) as H2.
  rewrite <- Hd in H2. rewrite H1 in H2. injection H2 as H2.
  unfold digits_value. rewrite H2. exact Hval.
Qed.

Lemma atom_operand_expr (a : atom) :
  atom_ok a = true -> operand_expr (atom_operand a) = atom_expr a.
Proof.
  destruct a as [z|ls sfx]; cbn [atom_ok atom_operand operand_expr atom_expr]; intros H.
  - apply andb_prop in H. rewrite digits_value_fmt_d by lia. reflexivity.
  - apply andb_prop in H. destruct H as [H Hs]. apply andb_prop in H. destruct H as [Hn Hu].
    rewrite ToUpper_upper by assumption. reflexivity.
Qed.

Lemma operands_ok (rest : list (chain_op * atom)) :
  forallb (fun p => atom_ok (snd p)) rest = true ->
  forallb (fun p => operand_ok (snd p)) (operands rest) = true.
Proof.
  induction rest as [|[o a] rest IH]; [reflexivity|]. cbn [forallb operands map fst snd].
  intros H. apply andb_prop in H. destruct H as [H1 H2].
  rewrite (atom_operand_ok _ H1). apply IH, H2.
Qed.

(** The rendering of a chain is its text. *)
Lemma chain_rendering (rest : list (chain_op * atom)) :
  forall first,
    atom_ok first = true ->
    forallb (fun p => atom_ok (snd p)) rest = true ->
    list_ascii_of_string (Expr_String (right_nested (atom_operand first) (operands rest)))
    = chain_text (atom_operand first) (operands rest).
Proof.
  assert (Hatom : forall a, atom_ok a = true ->
                            list_ascii_of_string (Expr_String (operand_expr (atom_operand a)))
                            = operand_text (atom_operand a)).
  { intros a Ha. rewrite atom_operand_expr by exact Ha.
    destruct a as [z|ls sfx]; cbn [atom_expr Expr_String Value_String atom_operand operand_text].
    - reflexivity.
    - apply list_ascii_of_string_of_list_ascii. }
  induction rest as [|[o a] rest IH]; intros first Hfirst Hrest.
  - cbn [operands map right_nested chain_text]. apply Hatom, Hfirst.
  - cbn [forallb snd] in Hrest. apply andb_prop in Hrest. destruct Hrest as [Ha Hrest].
    cbn [operands map right_nested chain_text fst snd Expr_String].
    rewrite !list_ascii_of_append. rewrite Hatom by exact Hfirst.
    fold (operands rest). rewrite IH by assumption. reflexivity.
Qed.

(** *** Compiling an expression that something else follows *)

Lemma after_primary_end (fuel : nat) (e : Expr) (b : Basic) (l rest : list rune)
      (eol eol' : bool) (t0 : Token) (n0 : Z) (s0 : string) (tk : Token) (v : Z) (text : string) :
  scan l = Ok ((tk, v, text), eol', rest) ->
  ends_expression (tk, v, text) = true ->
  after_primary fuel e b (mkTR l eol false t0 n0 s0)
  = Ok (Some e, b, mkTR rest eol' true tk v text).
Proof.
  intros Hscan Hend. unfold after_primary, PeekToken, ReadToken. cbn [peeked R].
  rewrite Hscan. cbn [rbind R AtEOL].
  destruct tk; try reflexivity. cbn [Token_eqb ends_expression] in *.
  destruct (BinaryOps text); [discriminate Hend|reflexivity].
Qed.

Lemma scan_operand_before (o : operand) (c : rune) (more : list rune) :
  operand_ok o = true ->
  is_digit c = false ->
  scan (operand_text o ++ c :: more) = Ok (operand_tok o, false, c :: more).
Proof.
  intros Hok Hc. destruct o as [ds|ls sfx]; cbn [operand_ok operand_text operand_tok] in *.
  - destruct ds as [|d ds]; [discriminate Hok|]. cbn [nonempty andb] in Hok.
    assert (Hd : is_digit d = true) by (cbn [forallb] in Hok; apply andb_prop in Hok; tauto).
    destruct (digit_class d Hd) as (H1 & H2 & H3 & H4).
    change ((d :: ds) ++ c :: more) with (d :: (ds ++ c :: more)).
    cbn [scan]. rewrite H1, H2, H3, H4, Hd.
    change (d :: (ds ++ c :: more)) with ((d :: ds) ++ c :: more).
    rewrite read_integer_digits; [reflexivity|exact Hok|exact Hc].
  - destruct ls as [|l ls]; [discriminate Hok|]. cbn [nonempty andb] in Hok.
    apply andb_prop in Hok. destruct Hok as [Hls Hsfx].
    cbn [forallb] in Hls. apply andb_prop in Hls. destruct Hls as [Hl Hls].
    destruct (letter_class l Hl) as (H1 & H2 & H3).
    rewrite <- app_assoc. cbn [app]. cbn [scan]. rewrite H1, H2, H3, Hl.
    rewrite read_keyword_letters by assumption. reflexivity.
Qed.

(** A chain followed by a token that does not continue it: the tree of
    the chain, and the token is pending in the reader. *)
Lemma CompileExpr_chain_before (rest : list (chain_op * operand)) :
  forall (first : operand) (c : rune) (more after : list rune) (b : Basic) (fuel : nat)
         (eol eol' : bool) (t0 : Token) (n0 : Z) (s0 : string)
         (tk : Token) (v : Z) (text : string),
    operand_ok first = true ->
    forallb (fun p => operand_ok (snd p)) rest = true ->
    (length rest < fuel)%nat ->
    is_digit c = false ->
    scan (c :: more) = Ok ((tk, v, text), eol', after) ->
    ends_expression (tk, v, text) = true ->
    CompileExpr fuel b (mkTR (chain_text first rest ++ c :: more) eol false t0 n0 s0)
    = Ok (Some (right_nested first rest), b, mkTR after eol' true tk v text).
Proof.
  induction rest as [|[o next] rest IH];
    intros first c more after b fuel eol eol' t0 n0 s0 tk v text
           Hfirst Hrest Hfuel Hc Hscan Hend;
    (destruct fuel as [|fuel]; [cbn [length] in Hfuel; lia|]).
  - cbn [chain_text right_nested].
    rewrite (CompileExpr_simple fuel b _ (mkTR (c :: more) false false t0 n0 s0)
                                (operand_tok first) (operand_expr first)).
    + eapply after_primary_end; eassumption.
    + unfold ReadToken. cbn [peeked R].
      rewrite scan_operand_before by assumption. reflexivity.
    + apply operand_primary.
  - cbn [forallb snd] in Hrest. apply andb_prop in Hrest. destruct Hrest as [Hnext Hrest].
    cbn [length] in Hfuel.
    cbn [chain_text right_nested]. rewrite <- !app_assoc. cbn [app].
    rewrite (CompileExpr_simple fuel b _
               (mkTR (" "%char :: list_ascii_of_string (op_name o)
                        ++ " "%char :: chain_text next rest ++ c :: more)
                     false false t0 n0 s0)
               (operand_tok first) (operand_expr first)).
    + unfold after_primary, PeekToken, ReadToken. cbn [peeked R AtEOL rbind].
      rewrite scan_operator. cbn [rbind R AtEOL peeked Token_eqb t n s].
      rewrite BinaryOps_entry. rewrite CompileExpr_blank.
      rewrite (IH next c more after b fuel false eol' OperatorToken 0 (op_name o) tk v text)
        by (assumption || lia).
      reflexivity.
    + unfold ReadToken. cbn [peeked R].
      rewrite scan_operand_before by (assumption || reflexivity). reflexivity.
    + apply operand_primary.
Qed.

(** The same for every expression in printed form. *)
Lemma CompileExpr_texpr (e : texpr) (c : rune) (more after : list rune) (b : Basic) (fuel : nat)
      (eol eol' : bool) (t0 : Token) (n0 : Z) (s0 : string)
      (tk : Token) (v : Z) (text : string) :
  texpr_ok e = true ->
  (texpr_fuel e <= fuel)%nat ->
  is_digit c = false ->
  scan (c :: more) = Ok ((tk, v, text), eol', after) ->
  ends_expression (tk, v, text) = true ->
  CompileExpr fuel b
              (mkTR (list_ascii_of_string (Expr_Print (texpr_expr e)) ++ c :: more)
                    eol false t0 n0 s0)
  = Ok (Some (texpr_expr e), b, mkTR after eol' true tk v text).
Proof.
  intros Hok Hfuel Hc Hscan Hend. destruct e as [first rest|str];
    cbn [texpr_ok texpr_expr texpr_fuel] in *.
  - apply andb_prop in Hok. destruct Hok as [Hfirst Hrest].
    assert (Hprint : Expr_Print (right_nested (atom_operand first) (operands rest))
                     = Expr_String (right_nested (atom_operand first) (operands rest))).
    { destruct rest as [|[o a] rest]; [|reflexivity].
      cbn [operands map right_nested]. rewrite atom_operand_expr by exact Hfirst.
      destruct first; reflexivity. }
    rewrite Hprint, chain_rendering by assumption.
    apply CompileExpr_chain_before; try assumption.
    + apply atom_operand_ok, Hfirst.
    + apply operands_ok, Hrest.
    + unfold operands. rewrite length_map. lia.
  - destruct fuel as [|fuel]; [lia|].
    rewrite (CompileExpr_simple fuel b _ (mkTR (c :: more) false false t0 n0 s0)
                                (StringToken, 0, str) (ValueExpr (VStr str))).
    + eapply after_primary_end; eassumption.
    + unfold ReadToken. cbn [peeked R Expr_Print].
      rewrite !list_ascii_of_append, <- !app_assoc.
      change (list_ascii_of_string dq) with [dquote]. cbn [app].
      rewrite scan_string_literal by exact Hok.
      rewrite string_of_list_ascii_of_string. reflexivity.
    + reflexivity.
Qed.

(** *** Statements in printed form *)

Lemma Print_exprs_more (es : list texpr) (i : nat) :
  list_ascii_of_string (Print_exprs (S i) (map texpr_expr es)) = more_items es.
Proof.
  revert i. induction es as [|e es IH]; intros i; [reflexivity|].
  cbn [map Print_exprs more_items]. change (0 <? S i)%nat with true. cbv iota.
  rewrite !list_ascii_of_append, IH. reflexivity.
Qed.

Lemma scan_number (z : Z) (c : rune) (more : list rune) :
  0 <= z <= Int.MaxInt -> is_digit c = false ->
  scan (list_ascii_of_string (fmt_d z) ++ c :: more)
  = Ok ((IntegerToken, z, ""), false, c :: more).
Proof.
  intros Hz Hc.
  assert (Hok : operand_ok (Num (list_ascii_of_string (fmt_d z))) = true).
  { cbn [operand_ok]. destruct (fmt_d_digits z ltac:(lia)) as [-> ->]. reflexivity. }
  pose proof (scan_operand_before _ c more Hok Hc) as H.
  cbn [operand_text operand_tok] in H. rewrite H.
  rewrite digits_value_fmt_d by exact Hz. reflexivity.
Qed.

Lemma number_ok_range (z : Z) : number_ok z = true -> 0 <= z <= Int.MaxInt.
Proof. unfold number_ok. intros H. apply andb_prop in H. lia. Qed.

(** The fixed keywords do not end in [$] or [%]. *)
Lemma variable_not_keyword (ls : list rune) (sfx : rune) (k : string) :
  is_suffix sfx = true ->
  match last_rune k with Some c => is_suffix c | None => false end = false ->
  String.eqb (string_of_list_ascii (ls ++ [sfx])) k = false.
Proof.
  intros Hs Hk. destruct (String.eqb_spec (string_of_list_ascii (ls ++ [sfx])) k) as [E|]; [|reflexivity].
  subst k. unfold last_rune in Hk. rewrite list_ascii_of_string_of_list_ascii in Hk.
  rewrite last_snoc in Hk. congruence.
Qed.

Lemma CompileStatement_blank (fuel : nat) (full : bool) (b : Basic) (l : list rune)
      (eol : bool) (t0 : Token) (n0 : Z) (s0 : string) :
  CompileStatement fuel full b (mkTR (" "%char :: l) eol false t0 n0 s0)
  = CompileStatement fuel full b (mkTR l eol false t0 n0 s0).
Proof. reflexivity. Qed.

(** One step through the monad and the reader. *)
Ltac step_reader :=
  cbv beta iota delta [mbind mret peekT readT PeekToken ReadToken rbind
                       peeked R AtEOL t n s].

(** The loop of PRINT over items in printed form. *)
Lemma CompilePrint_items (es : list texpr) :
  forall (e : texpr) (acc : list Expr) (after : list rune) (b : Basic) (fuel : nat)
         (eol : bool) (t0 : Token) (n0 : Z) (s0 : string),
    texpr_ok e = true -> forallb texpr_ok es = true ->
    (print_fuel (e :: es) <= fuel)%nat ->
    CompilePrint fuel acc b
                 (mkTR (" "%char :: list_ascii_of_string (Expr_Print (texpr_expr e))
                          ++ more_items es ++ newline :: after)
                       eol false t0 n0 s0)
    = Ok (Some (acc ++ map texpr_expr (e :: es)), b, mkTR after true true EndOfLine 0 "").
Proof.
  induction es as [|e2 es IH]; intros e acc after b fuel eol t0 n0 s0 He Hes Hfuel;
    (destruct fuel as [|fuel]; [cbn [print_fuel] in Hfuel; lia|]);
    cbn [print_fuel] in Hfuel; cbn [CompilePrint]; unfold mbind at 1;
    rewrite CompileExpr_blank.
  - cbn [more_items app].
    rewrite (CompileExpr_texpr e newline after after b fuel eol true t0 n0 s0 EndOfLine 0 "")
      by (assumption || reflexivity || lia).
    reflexivity.
  - cbn [forallb] in Hes. apply andb_prop in Hes. destruct Hes as [He2 Hes].
    cbn [more_items]. rewrite <- !app_assoc. cbn [app].
    rewrite (CompileExpr_texpr e "," _ _ b fuel eol false t0 n0 s0 OperatorToken 0 ",")
      by (assumption || reflexivity || lia).
    step_reader.
    change (negb (is_op OperatorToken "," ",")) with false. step_reader.
    rewrite (IH e2 (acc ++ [texpr_expr e]) after b fuel false OperatorToken 0 ",")
      by (assumption || (cbn [print_fuel]; lia)).
    cbn [map]. rewrite <- app_assoc. reflexivity.
Qed.

Lemma scan_blank (l : list rune) : scan (" "%char :: l) = scan l.
Proof. reflexivity. Qed.

Lemma scan_newline (l : list rune) : scan (newline :: l) = Ok ((EndOfLine, 0, ""), true, l).
Proof. reflexivity. Qed.

Lemma last_rune_snoc (ls : list rune) (sfx : rune) :
  last_rune (string_of_list_ascii (ls ++ [sfx])) = Some sfx.
Proof. unfold last_rune. rewrite list_ascii_of_string_of_list_ascii. apply last_snoc. Qed.

Ltac run_reader :=
  repeat (step_reader; rewrite ?scan_blank, ?scan_newline;
          cbn [Token_eqb negb is_op is_kw andb]).

(** A statement in printed form, read from the text that [Print] gives
    for it and followed by the end of the line, compiles to itself; the
    reader is then at the start of the next line. *)
Lemma CompileStatement_printed (c : cstmt) (p : string) (after : list rune) (b : Basic)
      (fuel : nat) (eol : bool) (t0 : Token) (n0 : Z) (s0 : string) :
  cstmt_ok c = true ->
  (cstmt_fuel c <= fuel)%nat ->
  Stmt_Print (cstmt_stmt c) = Ok p ->
  exists t1 n1 s1,
    CompileStatement fuel true b (mkTR (list_ascii_of_string p ++ newline :: after) eol false t0 n0 s0)
    = Ok ((Some (cstmt_stmt c), true), b, mkTR after true false t1 n1 s1).
Proof.
  intros Hok Hfuel Hp.
  destruct c as [| |target|target|ls sfx e|e es|first rest target];
    cbn [cstmt_ok cstmt_stmt cstmt_fuel Stmt_Print] in *;
    injection Hp as <-; (destruct fuel as [|fuel]; [lia|]).
  - exists t0, n0, s0.
    rewrite (CompileStatement_keyword _ _ _ _ (newline :: after) _ false _ _ _ "END")
      by reflexivity.
    switch_on_keyword. run_reader. reflexivity.
  - exists t0, n0, s0.
    rewrite (CompileStatement_keyword _ _ _ _ (newline :: after) _ false _ _ _ "RETURN")
      by reflexivity.
    switch_on_keyword. run_reader. reflexivity.
  - exists t0, n0, s0. apply number_ok_range in Hok.
    rewrite list_ascii_of_append, <- app_assoc.
    rewrite (CompileStatement_keyword _ _ _ _
               (" "%char :: list_ascii_of_string (fmt_d target) ++ newline :: after)
               _ false _ _ _ "GOTO") by reflexivity.
    switch_on_keyword. unfold line_number_for. run_reader.
    rewrite scan_number by (exact Hok || reflexivity). run_reader. reflexivity.
  - exists t0, n0, s0. apply number_ok_range in Hok.
    rewrite list_ascii_of_append, <- app_assoc.
    rewrite (CompileStatement_keyword _ _ _ _
               (" "%char :: list_ascii_of_string (fmt_d target) ++ newline :: after)
               _ false _ _ _ "GOSUB") by reflexivity.
    switch_on_keyword. unfold line_number_for. run_reader.
    rewrite scan_number by (exact Hok || reflexivity). run_reader. reflexivity.
  - exists EndOfLine, 0, "".
    apply andb_prop in Hok. destruct Hok as [Hvar He].
    pose proof (atom_operand_ok (AVar ls sfx) Hvar) as Hname.
    cbn [atom_ok] in Hvar. apply andb_prop in Hvar. destruct Hvar as [Hvar Hs].
    apply andb_prop in Hvar. destruct Hvar as [Hne Hu].
    rewrite !list_ascii_of_append, list_ascii_of_string_of_list_ascii, <- !app_assoc.
    change (list_ascii_of_string " = ") with [" "; "="; " "]%char. cbn [app].
    pose proof (scan_operand_before (Name ls sfx) " " ("="%char :: " "%char ::
                  list_ascii_of_string (Expr_Print (texpr_expr e)) ++ newline :: after)
                  Hname eq_refl) as Hscan.
    cbn [atom_operand operand_text operand_tok] in Hscan.
    rewrite ToUpper_upper in Hscan by assumption. rewrite <- app_assoc in Hscan.
    rewrite (CompileStatement_keyword _ _ _ _ _ _ _ _ _ _ _ Hscan).
    cbn [CompileKeyword].
    repeat match goal with
           | |- context [String.eqb (string_of_list_ascii (ls ++ [sfx])) ?k] =>
               rewrite (variable_not_keyword ls sfx k Hs eq_refl)
           end.
    rewrite last_rune_snoc. unfold is_suffix in Hs. rewrite Hs.
    run_reader.
    change (scan ("="%char :: ?l)) with (Ok ((OperatorToken, 0, "="), false, l)).
    run_reader. change (String.eqb "=" "=") with true. run_reader.
    rewrite CompileExpr_blank.
    rewrite (CompileExpr_texpr e newline after after b fuel false true t0 n0 s0 EndOfLine 0 "")
      by (assumption || reflexivity || lia).
    run_reader. reflexivity.
  - exists EndOfLine, 0, "".
    apply andb_prop in Hok. destruct Hok as [He Hes].
    rewrite list_ascii_of_append. cbn [map Print_exprs].
    change (0 <? 0)%nat with false. cbv iota.
    rewrite !list_ascii_of_append, Print_exprs_more. cbn [list_ascii_of_string app].
    rewrite <- !app_assoc.
    rewrite (CompileStatement_keyword _ _ _ _
               (" "%char :: list_ascii_of_string (Expr_Print (texpr_expr e))
                  ++ more_items es ++ newline :: after)
               _ false _ _ _ "PRINT") by reflexivity.
    switch_on_keyword. run_reader.
    rewrite (CompilePrint_items es e [] after b fuel false t0 n0 s0)
      by (assumption || lia).
    run_reader. reflexivity.
  - exists KeywordToken, 0, "GOTO".
    apply andb_prop in Hok. destruct Hok as [Hchain Hnum]. apply number_ok_range in Hnum.
    cbn [texpr_ok] in Hchain. apply andb_prop in Hchain. destruct Hchain as [Hfirst Hrest].
    cbn [texpr_expr].
    rewrite !list_ascii_of_append, chain_rendering by assumption.
    cbn [list_ascii_of_string app]. rewrite <- !app_assoc. cbn [app].
    rewrite (CompileStatement_keyword _ _ _ _
               (" "%char :: chain_text (atom_operand first) (operands rest)
                  ++ " "%char :: "G"%char :: "O"%char :: "T"%char :: "O"%char :: " "%char
                  :: list_ascii_of_string (fmt_d target) ++ newline :: after)
               _ false _ _ _ "IF") by reflexivity.
    switch_on_keyword. run_reader. rewrite CompileExpr_blank.
    rewrite (CompileExpr_chain_before (operands rest) (atom_operand first) " "
               ("G"%char :: "O"%char :: "T"%char :: "O"%char :: " "%char
                  :: list_ascii_of_string (fmt_d target) ++ newline :: after)
               (" "%char :: list_ascii_of_string (fmt_d target) ++ newline :: after)
               b fuel false false t0 n0 s0 KeywordToken 0 "GOTO");
      [|apply atom_operand_ok, Hfirst|apply operands_ok, Hrest
       |unfold operands; rewrite length_map; lia|reflexivity|reflexivity|reflexivity].
    run_reader. change (String.eqb "GOTO" "THEN") with false.
    change (String.eqb "GOTO" "GOTO") with true. run_reader.
    unfold line_number_for. run_reader.
    rewrite scan_number by (exact Hnum || reflexivity). run_reader. reflexivity.
Qed.

Lemma cstmt_prints (c : cstmt) : exists p, Stmt_Print (cstmt_stmt c) = Ok p.
Proof. destruct c; eexists; reflexivity. Qed.

(** Outside the printed form the text does not give the statement back:
    the parentheses of [(1 + 2) * 3] are not written, and the text
    compiles to the chain nested to the right. *)
Lemma parentheses_are_not_printed :
  let S := PrintStmt [BinaryExpr "*" op_mul
                        (BinaryExpr "+" op_add (ValueExpr (VInt 1)) (ValueExpr (VInt 2)))
                        (ValueExpr (VInt 3))] in
  let S' := PrintStmt [BinaryExpr "+" op_add (ValueExpr (VInt 1))
                         (BinaryExpr "*" op_mul (ValueExpr (VInt 2)) (ValueExpr (VInt 3)))] in
  compile 10 "PRINT (1 + 2) * 3" = Ok (Some S, true)
  /\ Stmt_Print S = Ok "PRINT 1 + 2 * 3"
  /\ compile 10 "PRINT 1 + 2 * 3" = Ok (Some S', true)
  /\ S' <> S.
Proof.
  repeat split; try reflexivity.
  intros H; discriminate H.
Qed.

(** X16. Rendering a statement in printed form and compiling the text gives
    the statement back.  The statements in printed form ([cstmt]) are END,
    RETURN, GOTO, GOSUB, the assignment, PRINT and IF with GOTO, where
    every number is an int that is not negative, every name is a word of
    upper-case letters with [$] or [%] after it, and every expression is
    one string literal without a double quote, or a chain of such numbers
    and names joined by [+ - * / = <> < <=] and nested to the right (the
    test of IF is such a chain).  No other expression is covered:
    [Print] writes no parentheses and no quotes inside a chain, and the
    scanner does not deliver [>] and [>=]. *)
Theorem printed_round_trip (c : cstmt) (fuel : nat) :
  cstmt_ok c = true ->
  (cstmt_fuel c <= fuel)%nat ->
  rbind (Stmt_Print (cstmt_stmt c)) (fun p => compile fuel p)
  = Ok (Some (cstmt_stmt c), true).
Proof.
  intros Hok Hfuel. destruct (cstmt_prints c) as [p Hp]. rewrite Hp. cbn [rbind].
  unfold compile, reader. rewrite list_ascii_of_append.
  destruct (CompileStatement_printed c p [] (NewBasic ∅) fuel false EndOfLine 0 ""
              Hok Hfuel Hp) as (t1 & n1 & s1 & H).
  change (list_ascii_of_string nl) with [newline]. rewrite H. reflexivity.
Qed.

Lemma printed_round_trip_witness :
  rbind (Stmt_Print (IfGotoStmt (BinaryExpr "<=" op_le (VarExpr "ABC%")
                                   (BinaryExpr "+" op_add (ValueExpr (VInt 123))
                                                  (VarExpr "N%")))
                                50))
        (fun p => compile 4 p)
  = Ok (Some (IfGotoStmt (BinaryExpr "<=" op_le (VarExpr "ABC%")
                            (BinaryExpr "+" op_add (ValueExpr (VInt 123)) (VarExpr "N%")))
                         50), true).
Proof.
  apply (printed_round_trip
           (CIfGoto (AVar (list_ascii_of_string "ABC") "%")
                    [(Le, ALit 123); (Add, AVar ["N"%char] "%")] 50) 4).
  - reflexivity.
  - cbn. lia.
Defined.

(** *** Programs in printed form *)

Lemma walk_print_line (c : list Line) (text : string) :
  (forall l, In l c -> printable l) ->
  walk print_line c (Ok text) = Ok (text +:+ listing c).
Proof.
  revert text. induction c as [|x rest IH]; intros text Hp.
  - cbn. rewrite append_empty_r. reflexivity.
  - cbn [walk]. rewrite print_line_printable by (apply Hp; left; reflexivity).
    rewrite IH by (intros l Hl; apply Hp; right; exact Hl).
    cbn [listing]. rewrite append_assoc. reflexivity.
Qed.

(** SAVE writes to the file what LIST writes to the output. *)
Lemma Save_listing (fn : string) (b : Basic) :
  fn <> "" ->
  (forall l, In l (Code b) -> printable l) ->
  Save fn b = Ok (set_Files (<[fn := listing (Code b)]> (Files b)) b).
Proof.
  intros Hfn Hp. unfold Save, Ascend. apply String.eqb_neq in Hfn. rewrite Hfn.
  rewrite walk_print_line by exact Hp. reflexivity.
Qed.

Lemma ReplaceOrInsert_last (item : Line) (c : list Line) :
  (forall l, In l c -> Number l < Number item) -> ReplaceOrInsert item c = c ++ [item].
Proof.
  induction c as [|x rest IH]; intros H; [reflexivity|].
  cbn [ReplaceOrInsert app]. unfold Less.
  specialize (H x (or_introl eq_refl)) as Hx.
  replace (Number item <? Number x) with false by lia.
  replace (Number x <? Number item) with true by lia.
  rewrite IH; [reflexivity|]. intros l Hl. apply H. right. exact Hl.
Qed.

Lemma skip_blank_digit (d : rune) (l : list rune) :
  is_digit d = true -> skip_blank (d :: l) = Some (d :: l).
Proof.
  intros Hd. destruct (digit_class d Hd) as (H1 & H2 & _).
  cbn [skip_blank]. rewrite H1, H2. reflexivity.
Qed.

Lemma rendered_cstmt (n : Z) (c : cstmt) (p : string) :
  Stmt_Print (cstmt_stmt c) = Ok p ->
  list_ascii_of_string (rendered (mkLine n (Some (cstmt_stmt c))))
  = list_ascii_of_string (fmt_d n) ++ " "%char :: list_ascii_of_string p ++ [newline].
Proof.
  intros Hp. unfold rendered. cbn [Stmt_ Number Print_iface]. rewrite Hp.
  rewrite !list_ascii_of_append. reflexivity.
Qed.

(** The loop of [Load] over the listing of a program in printed form. *)
Lemma Load_loop_listing (prog : list (Z * cstmt)) :
  forall (before : list Line) (b : Basic) (fuel : nat)
         (eol : bool) (t0 : Token) (n0 : Z) (s0 : string),
    Code b = before ->
    (forall l num c, In l before -> In (num, c) prog -> Number l < num) ->
    cprog_ok fuel prog ->
    Load_loop fuel b (mkTR (list_ascii_of_string (listing (cprog_lines prog))) eol false t0 n0 s0)
    = Ok (true, set_Code (before ++ cprog_lines prog) b).
Proof.
  induction prog as [|[num c] prog IH];
    intros before b fuel eol t0 n0 s0 Hcode Hbefore (Hs & Hlen & Hall);
    (destruct fuel as [|fuel]; [cbn [length] in Hlen; lia|]).
  - cbn [cprog_lines map listing list_ascii_of_string Load_loop R skip_blank].
    rewrite app_nil_r, <- Hcode. destruct b; reflexivity.
  - destruct (Hall num c (or_introl eq_refl)) as (Hn & Hc & Hf). cbn [length] in Hf, Hlen.
    apply number_ok_range in Hn.
    destruct (cstmt_prints c) as [p Hp].
    cbn [cprog_lines map listing fst snd]. fold (cprog_lines prog).
    rewrite list_ascii_of_append, (rendered_cstmt num c p Hp), <- !app_assoc. cbn [app].
    cbn [Load_loop R].
    destruct (fmt_d_digits num ltac:(lia)) as [Hne Hds].
    destruct (list_ascii_of_string (fmt_d num)) as [|d ds] eqn:Hdigits; [discriminate Hne|].
    cbn [forallb] in Hds. apply andb_prop in Hds. destruct Hds as [Hd _].
    cbn [app]. rewrite (skip_blank_digit d _ Hd).
    change (d :: ds ++ ?l) with ((d :: ds) ++ l). rewrite <- Hdigits.
    unfold set_R, ReadToken. cbn [peeked R AtEOL t n s].
    rewrite scan_number by (exact Hn || reflexivity). cbn [rbind Token_eqb].
    rewrite CompileStatement_blank.
    destruct (CompileStatement_printed c p (list_ascii_of_string (listing (cprog_lines prog)))
                b fuel false t0 n0 s0 Hc ltac:(lia) Hp) as (t1 & n1 & s1 & Hcompile).
    rewrite <- app_assoc. cbn [app]. rewrite Hcompile.
    rewrite ReplaceOrInsert_last.
    + rewrite (IH (before ++ [mkLine num (Some (cstmt_stmt c))])).
      * cbn [set_Code Code Vars W ErrW Files]. rewrite <- app_assoc. reflexivity.
      * cbn [set_Code Code]. rewrite Hcode. reflexivity.
      * intros l num' c' Hl Hin. apply in_app_or in Hl.
        destruct Hl as [Hl|[<-|[]]]; [apply (Hbefore l num' c' Hl); right; exact Hin|].
        cbn [Number]. apply sorted_inv in Hs. destruct Hs as [_ Hlt].
        apply (Hlt (mkLine num' (Some (cstmt_stmt c')))).
        apply (in_map (fun p => mkLine (fst p) (Some (cstmt_stmt (snd p)))) prog (num', c')), Hin.
      * split; [|split].
        -- apply sorted_inv in Hs. apply Hs.
        -- lia.
        -- intros num' c' Hin. destruct (Hall num' c' (or_intror Hin)) as (H1 & H2 & H3).
           cbn [length] in H3. repeat split; try assumption. lia.
    + rewrite Hcode. intros l Hl. cbn [Number]. apply (Hbefore l num c Hl). left. reflexivity.
Qed.

(** X17. SAVE to a file whose name is not empty, and then LOAD of that
    file, give the stored lines back, for an ordered program whose lines
    have numbers that are not negative and statements in printed form
    ([cstmt], as for X16): SAVE creates the file with the listing of the
    lines, LOAD succeeds, and the variables are cleared. *)
Theorem Save_Load_round_trip (prog : list (Z * cstmt)) (fn : string) (b : Basic) (fuel : nat) :
  fn <> "" ->
  Code b = cprog_lines prog ->
  cprog_ok fuel prog ->
  exists b1,
    Save fn b = Ok b1
    /\ Files b1 = <[fn := listing (Code b)]> (Files b)
    /\ Load fuel fn b1 = Ok (true, set_Code (Code b) (New b1)).
Proof.
  intros Hfn Hcode Hok. eexists. split.
  - apply Save_listing; [exact Hfn|]. rewrite Hcode. intros l Hl. unfold cprog_lines in Hl.
    apply in_map_iff in Hl. destruct Hl as ([n c] & <- & _).
    unfold printable. cbn [Stmt_ Print_iface fst snd].
    destruct (cstmt_prints c) as [p ->]. discriminate.
  - split; [reflexivity|].
    unfold Load. cbn [Files set_Files]. rewrite lookup_insert_eq.
    unfold reader. rewrite Hcode.
    rewrite (Load_loop_listing prog [] _ fuel false EndOfLine 0 ""); try assumption.
    + reflexivity.
    + reflexivity.
    + intros l num c [].
Qed.

Lemma Save_Load_round_trip_witness :
  exists b1,
    Save "f" (set_Code (cprog_lines test_program) (NewBasic ∅)) = Ok b1
    /\ Files b1
       = <["f" := listing (Code (set_Code (cprog_lines test_program) (NewBasic ∅)))]>
           (Files (set_Code (cprog_lines test_program) (NewBasic ∅)))
    /\ Load 20 "f" b1
       = Ok (true, set_Code (Code (set_Code (cprog_lines test_program) (NewBasic ∅))) (New b1)).
Proof.
  apply (Save_Load_round_trip test_program "f"
           (set_Code (cprog_lines test_program) (NewBasic ∅)) 20).
  - discriminate.
  - reflexivity.
  - split; [|split].
    + unfold sorted, test_program. cbn [cprog_lines map fst snd].
      repeat (constructor; cbn [Number]; try lia).
    + cbn. lia.
    + intros n c Hin. cbn in Hin.
      repeat (destruct Hin as [[= <- <-]|Hin];
              [repeat split; try reflexivity; cbn; lia|]).
      destruct Hin.
Defined.

(** ** Assignment *)

(** X18. An assignment either stores a value that has the tag of the name and
    goes on with the next line, or stores nothing and halts. *)
Theorem AssignStmt_stores_or_halts (var : string) (e : Expr) (b : Basic) (line : Z)
        (stk : list Ctx) (next : Z) (stk' : list Ctx) (b' : Basic) :
  Execute (AssignStmt var e) b line stk = Ok (next, stk', b') ->
  stk' = stk
  /\ ((next = Int.add line 1
       /\ exists v, Eval e b = Ok (Some v, b) /\ tag_ok var v = true
                    /\ b' = set_Vars (<[var := v]> (Vars b)) b)
      \/ (next = -1 /\ Vars b' = Vars b)).
Proof.
  cbn [Execute].
  destruct (Eval e b) as [[val b1]| | |] eqn:E; try discriminate. cbn [rbind].
  pose proof (Eval_store _ _ _ _ E) as (Hv & _).
  destruct val as [v|]; [|intros [= <- <- <-]; auto].
  assert (b1 = b) as -> by apply (Eval_value _ _ _ _ E).
  destruct (last_rune var) as [c|] eqn:Hc; [|discriminate].
  destruct (is_rune "$" c) eqn:H1; [|destruct (is_rune "%" c) eqn:H2; [|discriminate]];
    destruct v; intros [= <- <- <-]; split; try reflexivity;
    try (right; split; reflexivity);
    left; (split; [reflexivity|]); eexists; (split; [reflexivity|]);
    (split; [|reflexivity]); unfold tag_ok; rewrite Hc, ?H1, ?H2; reflexivity.
Qed.

Lemma AssignStmt_stores_or_halts_witness :
  [] = ([] : list Ctx)
  /\ ((-1 = Int.add 20 1
       /\ exists v, Eval (ValueExpr (VInt 5)) loaded_state = Ok (Some v, loaded_state)
                    /\ tag_ok "A$" v = true
                    /\ err (ln "basic: error: expected a string value") loaded_state
                       = set_Vars (<["A$" := v]> (Vars loaded_state)) loaded_state)
      \/ (-1 = -1
          /\ Vars (err (ln "basic: error: expected a string value") loaded_state)
             = Vars loaded_state)).
Proof.
  apply (AssignStmt_stores_or_halts "A$" (ValueExpr (VInt 5)) loaded_state 20 []).
  reflexivity.
Defined.

(** ** Comments *)

Lemma skip_comment_text (v : list rune) (more : list rune) :
  no_newline v = true -> skip_comment (v ++ newline :: more) = Ok more.
Proof.
  induction v as [|ch v IH]; intros Hv.
  - reflexivity.
  - cbn [no_newline forallb] in Hv. apply andb_prop in Hv. destruct Hv as [Hch Hv].
    apply negb_true_iff in Hch. cbn [app skip_comment]. rewrite Hch. apply IH, Hv.
Qed.

(** X19. A single quote starts a comment: what follows it up to the end of the
    line is skipped, and the token is the end of the line. *)
Theorem scan_comment (v more : list rune) :
  no_newline v = true ->
  scan (squote :: v ++ newline :: more) = Ok ((EndOfLine, 0, ""), true, more).
Proof.
  intros Hv. cbn [scan]. change (is_rune " " squote) with false.
  change (is_rune newline squote) with false. change (is_rune squote squote) with true.
  cbv iota. cbn [skip_comment]. change (is_rune newline squote) with false. cbv iota.
  rewrite skip_comment_text by exact Hv. reflexivity.
Qed.

Lemma scan_comment_witness :
  scan (squote :: list_ascii_of_string " print 1 + 2" ++ newline :: list_ascii_of_string "run")
  = Ok ((EndOfLine, 0, ""), true, list_ascii_of_string "run").
Proof.
  apply (scan_comment (list_ascii_of_string " print 1 + 2") (list_ascii_of_string "run")).
  reflexivity.
Defined.

(** ** Entering a line *)

(** X20. A numbered line that compiles is stored under its number: the store
    stays ordered, a line that had the number is replaced, the other
    lines stay, and the executor positioned at the number fetches the new
    line. *)
Theorem line_entry (fuel : nat) (b b1 : Basic) (tr tr0 tr1 : TokenReader)
        (v : Z) (text : string) (stmt : option Stmt) :
  ReadToken tr = Ok ((IntegerToken, v, text), tr0) ->
  CompileStatement fuel true b tr0 = Ok ((stmt, true), b1, tr1) ->
  sorted (Code b) ->
  let c' := ReplaceOrInsert (mkLine v stmt) (Code b) in
  Program_line fuel b tr = Ok (false, set_Code c' b, tr1)
  /\ sorted c'
  /\ (forall l, In l c' <-> l = mkLine v stmt \/ (In l (Code b) /\ Number l <> v))
  /\ fetch c' v = mkLine v stmt.
Proof.
  intros Hread Hcompile Hs c'.
  assert (b1 = b) as ->.
  { pose proof (CompileStatement_with_tidy _ fuel true (CompileKeyword_tidy fuel)
                  b tr0 (stmt, true) b1 tr1 Hcompile) as H. exact H. }
  split; [|split; [|split]].
  - unfold Program_line, mbind, readT. rewrite Hread. cbn [rbind Token_eqb].
    rewrite Hcompile. reflexivity.
  - apply ReplaceOrInsert_sorted, Hs.
  - intros l. apply (ReplaceOrInsert_mem (mkLine v stmt) (Code b) l Hs).
  - apply (fetch_first c' v (mkLine v stmt)); [apply ReplaceOrInsert_sorted, Hs|].
    split; [apply ReplaceOrInsert_mem; [exact Hs|left; reflexivity]|].
    split; [cbn [Number]; lia|]. intros l' Hl' Hge. exact Hge.
Qed.

Lemma line_entry_witness :
  let c' := ReplaceOrInsert (mkLine 20 (Some EndStmt)) (Code goto_state) in
  Program_line 10 goto_state (reader ("20 end" +:+ nl))
  = Ok (false, set_Code c' goto_state, mkTR [] true false EndOfLine 0 "")
  /\ sorted c'
  /\ (forall l, In l c' <-> l = mkLine 20 (Some EndStmt)
                            \/ (In l (Code goto_state) /\ Number l <> 20))
  /\ fetch c' 20 = mkLine 20 (Some EndStmt).
Proof.
  apply (line_entry 10 goto_state goto_state (reader ("20 end" +:+ nl))
           (mkTR (list_ascii_of_string (" end" +:+ nl)) false false EndOfLine 0 "")
           (mkTR [] true false EndOfLine 0 "") 20 "" (Some EndStmt)).
  - reflexivity.
  - reflexivity.
  - apply goto_state_sorted.
Defined.

(** ** The end of the line *)

Lemma scan_eol (l : list rune) (tk : Token) (v : Z) (text : string) (eol : bool)
      (rest : list rune) :
  scan l = Ok ((tk, v, text), eol, rest) -> eol = Token_eqb tk EndOfLine.
Proof.
  induction l as [|ch l IH]; cbn [scan]; [discriminate|].
  destruct (is_rune " " ch); [exact IH|].
  destruct (is_rune newline ch); [intros [= <- _ _ <- _]; reflexivity|].
  destruct (is_rune squote ch).
  { destruct (skip_comment (ch :: l)); try discriminate.
    intros [= <- _ _ <- _]. reflexivity. }
  destruct (is_letter ch).
  { destruct (read_keyword (String ch "") l) as [[kw r]| | |]; try discriminate.
    intros [= <- _ _ <- _]. reflexivity. }
  destruct (is_digit ch).
  { destruct (read_integer 0 (ch :: l)) as [[z r]| | |]; try discriminate.
    intros [= <- _ _ <- _]. reflexivity. }
  destruct (is_single_operator ch); [intros [= <- _ _ <- _]; reflexivity|].
  destruct (is_rune "<" ch).
  { destruct (ReadRune l) as [[ch' r]| | |]; try discriminate. cbn [rbind].
    destruct (is_rune "=" ch'); [|destruct (is_rune ">" ch')];
      intros [= <- _ _ <- _]; reflexivity. }
  destruct (is_rune ">" ch).
  { destruct (is_rune "=" ch); intros [= <- _ _ <- _]; reflexivity. }
  destruct (is_rune dquote ch); [|exact IH].
  destruct (read_string "" l) as [[str r]| | |]; try discriminate.
  intros [= <- _ _ <- _]. reflexivity.
Qed.

Lemma ReadToken_eol (tr tr' : TokenReader) (tk : Token) (v : Z) (text : string) :
  peeked tr = false ->
  ReadToken tr = Ok ((tk, v, text), tr') ->
  AtEOL tr' = Token_eqb tk EndOfLine /\ peeked tr' = false.
Proof.
  intros Hp. unfold ReadToken. rewrite Hp.
  destruct (scan (R tr)) as [[[[[tk0 v0] text0] eol] rest]| | |] eqn:E; try discriminate.
  cbn [rbind]. intros [= <- <- <- <-]. cbn [AtEOL peeked].
  split; [eapply scan_eol, E|reflexivity].
Qed.

(** X21. When no token is pending, [AtEOL] is set after a read exactly when
    the token read is the end of the line, and no token is pending after
    the read. *)
Theorem ReadToken_AtEOL (tr tr' : TokenReader) (tk : Token) (v : Z) (text : string) :
  peeked tr = false ->
  ReadToken tr = Ok ((tk, v, text), tr') ->
  AtEOL tr' = Token_eqb tk EndOfLine /\ peeked tr' = false.
Proof. apply ReadToken_eol. Qed.

Lemma ReadToken_AtEOL_witness :
  AtEOL (mkTR (list_ascii_of_string "10") true false EndOfLine 0 "")
  = Token_eqb EndOfLine EndOfLine
  /\ peeked (mkTR (list_ascii_of_string "10") true false EndOfLine 0 "") = false.
Proof.
  apply (ReadToken_AtEOL (mkTR (list_ascii_of_string "  ' a remark" ++ newline
                                  :: list_ascii_of_string "10")
                               false false EndOfLine 0 "") _ EndOfLine 0 "");
    reflexivity.
Defined.

(** ** Ranges of line numbers *)

(** X22. A range that is read is in order, and the line it stood on has been
    read to its end. *)
Theorem readRange_ok (opt : bool) (tr tr' : TokenReader) (strt end_ : Z) :
  peeked tr = false ->
  readRange opt tr = Ok (strt, end_, true, tr') ->
  strt <= end_ /\ AtEOL tr' = true /\ peeked tr' = false
  /\ (opt = false -> exists tr1 text, ReadToken tr = Ok ((IntegerToken, strt, text), tr1)).
Proof.
  intros Hp. unfold readRange.
  destruct (ReadToken tr) as [[[[tk v] text] tr1]| | |] eqn:E1; try discriminate.
  destruct (ReadToken_eol _ _ _ _ _ Hp E1) as [Ha1 Hp1]. cbn [rbind].
  destruct (Token_eqb tk IntegerToken) eqn:Hi.
  - assert (tk = IntegerToken) as -> by (destruct tk; try discriminate; reflexivity).
    destruct (ReadToken tr1) as [[[[tk2 v2] text2] tr2]| | |] eqn:E2; try discriminate.
    destruct (ReadToken_eol _ _ _ _ _ Hp1 E2) as [Ha2 Hp2]. cbn [rbind].
    destruct (is_op tk2 text2 "-").
    + destruct (ReadToken tr2) as [[[[tk3 v3] text3] tr3]| | |] eqn:E3; try discriminate.
      destruct (ReadToken_eol _ _ _ _ _ Hp2 E3) as [Ha3 Hp3]. cbn [rbind].
      destruct (Token_eqb tk3 IntegerToken); cbn [negb]; [|discriminate].
      destruct (ReadToken tr3) as [[[[tk4 v4] text4] tr4]| | |] eqn:E4; try discriminate.
      destruct (ReadToken_eol _ _ _ _ _ Hp3 E4) as [Ha4 Hp4]. cbn [rbind].
      destruct (Token_eqb tk4 EndOfLine); cbn [negb]; [|discriminate].
      destruct (v3 <? v) eqn:Hlt; [discriminate|]. intros [= <- <- <-].
      apply Z.ltb_ge in Hlt. repeat split; try assumption. intros _. eauto.
    + destruct (Token_eqb tk2 EndOfLine); cbn [negb]; [|discriminate].
      destruct (Int.MaxInt32 <? v) eqn:Hlt; [discriminate|]. intros [= <- <- <-].
      apply Z.ltb_ge in Hlt. repeat split; try assumption. intros _. eauto.
  - destruct (Token_eqb tk EndOfLine); [|discriminate].
    destruct opt; cbn [negb]; [|discriminate].
    destruct (Int.MaxInt32 <? 0) eqn:Hlt; [discriminate|]. intros [= <- <- <-].
    repeat split; try assumption; discriminate.
Qed.

Lemma readRange_ok_witness :
  20 <= 40
  /\ AtEOL (mkTR (list_ascii_of_string "run") true false EndOfLine 0 "") = true
  /\ peeked (mkTR (list_ascii_of_string "run") true false EndOfLine 0 "") = false
  /\ (false = false ->
      exists tr1 text, ReadToken (reader (" 20 - 40" +:+ nl +:+ "run"))
                       = Ok ((IntegerToken, 20, text), tr1)).
Proof.
  apply (readRange_ok false (reader (" 20 - 40" +:+ nl +:+ "run"))); reflexivity.
Defined.

(** ** The argument of LOAD and SAVE *)



(** ** The two forms of IF *)

(** X24. [IF test GOTO n] does what [IF test THEN GOTO n] does. *)
Theorem IfGoto_as_IfThen (test : Expr) (number : Z) (b : Basic) (line : Z)
        (stk : list Ctx) :
  Execute (IfGotoStmt test number) b line stk
  = Execute (IfThenStmt test (Some (GotoStmt number)) None) b line stk.
Proof.
  cbn [Execute]. destruct (Eval_test test b) as [[[[|]|] b1]| | |]; reflexivity.
Qed.
